(** * ai_interviewer: the adaptive questioning state machine

    A shallow embedding of [utils.py] (question policy, grading normalizer,
    poor-area predicates, subtopic generation) and of the session state
    machine of [app.py] (start/restart, question-needed step, answer
    submission and subtopic advancement), followed by the properties of the
    specification that hold of them and by the inputs on which others fail.
    The evidence lookup of [utils.py] and the final report of [app.py] are
    embedded after them, with further properties of the code: what the
    lookup asks of Wikipedia, what a start and a run may change, and what
    holds of every session that runs of the script lead to.

    Conventions.
    - A Python [str] is a [string]; its characters stand for the code points
      0..255, and the character classes below ([isspace], [isword],
      [to_lower]) are the ones the interpreter uses on that range.
    - A Python value that comes out of [json.loads] is a [pyval].
    - An exception is [Raise msg]; every handler of the embedded code is
      [except Exception], so the exception class is not tracked.
    - [st.session_state] is a record that each block of the script reads and
      updates in place; [st.stop()] and [st.rerun()] end the run and are not
      caught by [except Exception].
    - The language model behind [ask_llm], [json.loads], [int] on a string
      and the evidence lookup ([build_wiki_context], with the query
      suggestions and the Wikipedia client below it) are collaborators of
      the state machine: they are the fields of a [runtime] record over which
      every definition is parametric, and every call to the language model
      or to the evidence lookup is logged. *)

From Stdlib Require Import Bool Arith ZArith List String Ascii Lia.
From Stdlib Require Import QArith_base.
From Stdlib Require Import Floats.SpecFloat.
Import ListNotations.

Close Scope Q_scope.
Local Open Scope nat_scope.
Local Open Scope list_scope.
Local Open Scope string_scope.

(* ------------------------------------------------------------------ *)
(** * Python strings *)

Module PyStr.

(** The double quote and the line feed, which the prompt templates and the
    JSON samples contain. *)
Definition dq : string := String "034"%char EmptyString.
Definition nl : string := String "010"%char EmptyString.

Definition between (lo hi n : nat) : bool := Nat.leb lo n && Nat.leb n hi.

(** [str.isspace] of one character (also the class [\s] of [re]). *)
Definition isspace (c : ascii) : bool :=
  let n := nat_of_ascii c in
  between 9 13 n || between 28 32 n || Nat.eqb n 133 || Nat.eqb n 160.

(** The class [\w] of [re] on a [str] pattern: alphanumeric or underscore. *)
Definition isword (c : ascii) : bool :=
  let n := nat_of_ascii c in
  between 48 57 n || between 65 90 n || Nat.eqb n 95 || between 97 122 n
  || Nat.eqb n 170 || between 178 179 n || Nat.eqb n 181
  || between 185 186 n || between 188 190 n
  || between 192 214 n || between 216 246 n || between 248 255 n.

(** Lower-casing of one character, as [re.IGNORECASE] compares them. *)
Definition to_lower (c : ascii) : ascii :=
  let n := nat_of_ascii c in
  if between 65 90 n || between 192 214 n || between 216 222 n
  then ascii_of_nat (n + 32) else c.

(** Truth value of a [str]: non-empty. *)
Definition nonempty (s : string) : bool :=
  match s with EmptyString => false | String _ _ => true end.

Fixpoint lstrip (s : string) : string :=
  match s with
  | EmptyString => EmptyString
  | String c s' => if isspace c then lstrip s' else s
  end.

(** [rstrip] scans from the right: a character is kept when it is not a
    space or when something is kept after it. *)
Fixpoint rstrip (s : string) : string :=
  match s with
  | EmptyString => EmptyString
  | String c s' =>
      match rstrip s' with
      | EmptyString => if isspace c then EmptyString else String c EmptyString
      | r => String c r
      end
  end.

(** [s.strip()] *)
Definition strip (s : string) : string := rstrip (lstrip s).

(** [s.find(c)] for a one-character needle: lowest index, or [-1]. *)
Fixpoint find (c : ascii) (s : string) : Z :=
  match s with
  | EmptyString => (-1)%Z
  | String d s' =>
      if Ascii.eqb d c then 0%Z
      else let r := find c s' in if (r <? 0)%Z then (-1)%Z else (r + 1)%Z
  end.

(** [s.rfind(c)] for a one-character needle: highest index, or [-1]. *)
Fixpoint rfind (c : ascii) (s : string) : Z :=
  match s with
  | EmptyString => (-1)%Z
  | String d s' =>
      let r := rfind c s' in
      if (0 <=? r)%Z then (r + 1)%Z
      else if Ascii.eqb d c then 0%Z else (-1)%Z
  end.

(** [s[a:b]] for [0 <= a], [0 <= b]. *)
Definition slice (a b : Z) (s : string) : string :=
  substring (Z.to_nat a) (Z.to_nat b - Z.to_nat a) s.

(** [s.replace(old, new)] for a non-empty [old]: occurrences are replaced
    from left to right without overlap.  [skip] counts the characters of an
    occurrence that are still to be dropped. *)
Fixpoint replace_from (old new : string) (skip : nat) (s : string) : string :=
  match s with
  | EmptyString => EmptyString
  | String c s' =>
      match skip with
      | S k => replace_from old new k s'
      | O =>
          if prefix old s
          then new ++ replace_from old new (String.length old - 1) s'
          else String c (replace_from old new 0 s')
      end
  end.

Definition replace (old new s : string) : string := replace_from old new 0 s.

(** ** The fragment of [re] that the program uses *)

Inductive cls := CLit (c : ascii) | CSpace.

Inductive atom :=
| ABoundary            (* \b *)
| AOne (k : cls)       (* a literal character or \s *)
| AStar (k : cls).     (* k* *)

(** Whether one character belongs to a class; [ci] is the flag (?i). *)
Definition cls_match (ci : bool) (k : cls) (c : ascii) : bool :=
  match k with
  | CLit l => if ci then Ascii.eqb (to_lower c) (to_lower l) else Ascii.eqb c l
  | CSpace => isspace c
  end.

Definition word_of (o : option ascii) : bool :=
  match o with Some c => isword c | None => false end.

Definition head (s : string) : option ascii :=
  match s with EmptyString => None | String c _ => Some c end.

(** Does the pattern [p] match at the current position?  [prev] is the
    character before it, [s] the text from it on. *)
Fixpoint match_here (ci : bool) (p : list atom) (prev : option ascii)
         (s : string) {struct p} : bool :=
  match p with
  | [] => true
  | ABoundary :: p' =>
      xorb (word_of prev) (word_of (head s)) && match_here ci p' prev s
  | AOne k :: p' =>
      match s with
      | EmptyString => false
      | String c s' => cls_match ci k c && match_here ci p' (Some c) s'
      end
  | AStar k :: p' =>
      (fix star (prev : option ascii) (s : string) {struct s} : bool :=
         match_here ci p' prev s
         || match s with
            | EmptyString => false
            | String c s' => cls_match ci k c && star (Some c) s'
            end) prev s
  end.

(** [re.split(p, s)[0]]: the text before the leftmost match of [p]. *)
Fixpoint split_head (ci : bool) (p : list atom) (prev : option ascii)
         (s : string) : string :=
  if match_here ci p prev s then EmptyString
  else match s with
       | EmptyString => EmptyString
       | String c s' => String c (split_head ci p (Some c) s')
       end.

End PyStr.

(* ------------------------------------------------------------------ *)
(** * Python values, exceptions and the collaborators *)

Module Py.
Import PyStr.

Inductive result (A : Type) : Type :=
| Ok (a : A)
| Raise (msg : string).
Arguments Ok {A} a.
Arguments Raise {A} msg.

Definition rbind {A B} (r : result A) (k : A -> result B) : result B :=
  match r with Ok a => k a | Raise m => Raise m end.

(** [try: r  except Exception: d] for a computation without effects. *)
Definition or_else {A} (r : result A) (d : A) : A :=
  match r with Ok a => a | Raise _ => d end.

Definition is_ok {A} (r : result A) : bool :=
  match r with Ok _ => true | Raise _ => false end.

#[local] Set Warnings "-register-all".

(** What [json.loads] can return.  A [dict] keeps its insertion order. *)
Inductive pyval : Type :=
| PNone
| PBool (b : bool)
| PInt (z : Z)
| PFloat (f : spec_float)
| PStr (s : string)
| PList (l : list pyval)
| PDict (d : list (string * pyval)).

(** Truth value of an object ([if v:], [not v]). *)
Definition truthy (v : pyval) : bool :=
  match v with
  | PNone => false
  | PBool b => b
  | PInt z => negb (Z.eqb z 0)
  | PFloat (S754_zero _) => false
  | PFloat _ => true
  | PStr s => nonempty s
  | PList [] => false
  | PList _ => true
  | PDict [] => false
  | PDict _ => true
  end.

(** [int(f)] on a float: truncation towards zero. *)
Definition int_of_float (f : spec_float) : result Z :=
  match f with
  | S754_zero _ => Ok 0%Z
  | S754_infinity _ => Raise "OverflowError"
  | S754_nan => Raise "ValueError"
  | S754_finite sgn m e =>
      let mag := if (0 <=? e)%Z then Z.shiftl (Zpos m) e
                 else Z.shiftr (Zpos m) (- e) in
      Ok (if sgn then (- mag)%Z else mag)
  end.

Fixpoint assoc (key : string) (d : list (string * pyval)) : option pyval :=
  match d with
  | [] => None
  | (k, v) :: d' => if String.eqb k key then Some v else assoc key d'
  end.

(** [v.get(key, default)] *)
Definition py_get (v : pyval) (key : string) (default : pyval) : result pyval :=
  match v with
  | PDict d => Ok (match assoc key d with Some x => x | None => default end)
  | _ => Raise "AttributeError"
  end.

(** The elements that [for s in v] goes through. *)
Definition py_iter (v : pyval) : result (list pyval) :=
  match v with
  | PList l => Ok l
  | PStr s => Ok (map (fun c => PStr (String c EmptyString)) (list_ascii_of_string s))
  | PDict d => Ok (map (fun kv => PStr (fst kv)) d)
  | _ => Raise "TypeError"
  end.

(** [v.strip()] *)
Definition py_strip (v : pyval) : result string :=
  match v with
  | PStr s => Ok (strip s)
  | _ => Raise "AttributeError"
  end.

(** [max(l, default=d)] *)
Definition py_max (l : list Z) (d : Z) : Z :=
  match l with
  | [] => d
  | x :: l' => fold_left Z.max l' x
  end.

(** ** The outside world *)

(** Calls that leave the process, in the order they were made. *)
Inductive event :=
| LlmCall (prompt : string) (temperature : Q)
| EvidenceLookup (topic question : string).

Definition world := list event.

(** The collaborators.  Each answer may depend on everything that was asked
    before, so two equal requests need not get equal answers. *)
Record runtime := {
  (** [json.loads] *)
  json_loads : string -> result pyval;
  (** [int] on a [str] *)
  int_of_str : string -> result Z;
  (** the reply text of [client.chat.completions.create] *)
  chat_completion : world -> string -> Q -> result string;
  (** the evidence lookup: [build_wiki_context] with the Wikipedia client
      and the query suggestions below it *)
  wiki_context : world -> string -> string -> result string
}.

(** [int(v)] *)
Definition py_int (R : runtime) (v : pyval) : result Z :=
  match v with
  | PInt z => Ok z
  | PBool b => Ok (if b then 1 else 0)%Z
  | PFloat f => int_of_float f
  | PStr s => int_of_str R s
  | PNone | PList _ | PDict _ => Raise "TypeError"
  end.

(** Computations that talk to the outside world. *)
Definition io (A : Type) : Type := world -> result A * world.

Definition ret {A} (a : A) : io A := fun w => (Ok a, w).

Definition bind {A B} (m : io A) (k : A -> io B) : io B :=
  fun w => match m w with
           | (Ok a, w') => k a w'
           | (Raise e, w') => (Raise e, w')
           end.

Definition lift_result {A} (r : result A) : io A := fun w => (r, w).

End Py.

(* ------------------------------------------------------------------ *)
(** * utils.py *)

Module Utils.
Import PyStr Py.

#[local] Notation "x <- m ;; k" := (bind m (fun x => k))
  (at level 61, m at next level, right associativity).
#[local] Notation "x <-? r ;; k" := (rbind r (fun x => k))
  (at level 61, r at next level, right associativity).

(** One question/answer exchange: the [entry] dictionaries of [app.py]. *)
Record Turn := {
  turn_subtopic : string;
  turn_style : string;
  turn_question : string;
  turn_answer : string;
  turn_scores : pyval;
  turn_evidence : pyval
}.

Section WithRuntime.
Variable R : runtime.

(** The call is logged whether or not it succeeds. *)
Definition ask_llm (prompt : string) (temperature : Q) : io string :=
  fun w => (chat_completion R w prompt temperature,
            (w ++ [LlmCall prompt temperature])%list).

Definition build_wiki_context (topic question : string) : io string :=
  fun w => (wiki_context R w topic question,
            (w ++ [EvidenceLookup topic question])%list).

Definition lbrace : ascii := "{"%char.
Definition rbrace : ascii := "}"%char.

Definition clean_json (text : string) : result pyval :=
  let s := strip text in
  let start := find lbrace s in
  let end_ := rfind rbrace s in
  if (start =? -1)%Z || (end_ =? -1)%Z || (end_ <=? start)%Z
  then Raise "Could not locate JSON braces"
  else
    let candidate := slice start (end_ + 1) s in
    let candidate := replace ",]" "]" (replace ",}" "}" candidate) in
    json_loads R candidate.

Definition subtopics_prompt (topic : string) : string :=
  nl ++
  "    Return ONLY one JSON object:" ++ nl ++
  "    {" ++ dq ++ "subtopics" ++ dq ++ ": [" ++ dq ++ "..." ++ dq ++ ", "
    ++ dq ++ "..." ++ dq ++ ", " ++ dq ++ "..." ++ dq ++ "]}" ++ nl ++
  nl ++
  "    Give 3 concise subtopics that help verify expertise under this topic." ++ nl ++
  "    Keep each subtopic <= 5 words." ++ nl ++
  nl ++
  "    Topic: " ++ topic ++ nl ++
  "    ".

(** [[s.strip() for s in l if s.strip()]] *)
Fixpoint stripped_nonblank (l : list pyval) : result (list string) :=
  match l with
  | [] => Ok []
  | v :: l' =>
      t <-? py_strip v ;;
      if nonempty t
      then (rest <-? stripped_nonblank l' ;; Ok (t :: rest))
      else stripped_nonblank l'
  end.

(** The body of the [try] of [get_subtopics]. *)
Definition parse_subtopics (topic raw : string) : result (list string) :=
  data <-? clean_json raw ;;
  field <-? py_get data "subtopics" (PList []) ;;
  items <-? py_iter field ;;
  subs <-? stripped_nonblank items ;;
  Ok (match subs with [] => [topic] | _ => firstn 3 subs end).

Definition get_subtopics (topic : string) : io (list string) :=
  raw <- ask_llm (subtopics_prompt topic) (Qmake 2 10) ;;
  ret (or_else (parse_subtopics topic raw) [topic]).

(** ** Question logic *)

Definition seed_prompt (topic subtopic : string) : string :=
  "You are interviewing about " ++ topic ++ " - subtopic: " ++ subtopic ++ "." ++ nl ++
  "This is the FIRST question for this subtopic." ++ nl ++
  "Ask ONE clear question that tests knowledge in this area." ++ nl ++
  "It should be checkable and relevant to this subtopic." ++ nl ++
  "Return ONLY the question text, without answers, hints, or commentary. Question:".

Definition checkpoint_prompt (topic subtopic prev_q prev_a : string) : string :=
  "Interview on " ++ topic ++ " - subtopic: " ++ subtopic ++ "." ++ nl ++
  "Previous Question: " ++ prev_q ++ nl ++
  "Previous Answer: " ++ prev_a ++ nl ++
  "Ask ONE short checkpoint question to verify a key definition or basic fact." ++ nl ++
  "Return ONLY the question text, without answers, hints, or commentary. Question:".

Definition probe_prompt (topic subtopic prev_q prev_a : string) : string :=
  "Interview on " ++ topic ++ " - subtopic: " ++ subtopic ++ "." ++ nl ++
  "Previous Question: " ++ prev_q ++ nl ++
  "Previous Answer: " ++ prev_a ++ nl ++
  "Ask ONE follow-up question that forces the candidate to give a specific example or detail." ++ nl ++
  "Return ONLY the question text, without answers, hints, or commentary. Question:".

Definition next_prompt (topic subtopic prev_q prev_a : string) : string :=
  "Interview on " ++ topic ++ " - subtopic: " ++ subtopic ++ "." ++ nl ++
  "Previous Question: " ++ prev_q ++ nl ++
  "Previous Answer: " ++ prev_a ++ nl ++
  "Ask ONE different question that is clear and tests knowledge in the subtopic area." ++ nl ++
  "It should be checkable and relevant to this subtopic." ++ nl ++
  "No commentary. Question:".

(** The first statement of [ask_question]: the style and the prompt. *)
Definition question_plan (topic subtopic : string) (last_scores : pyval)
           (prev_q prev_a : string) : result (string * string) :=
  if negb (truthy last_scores)
  then Ok ("seed", seed_prompt topic subtopic)
  else
    cv <-? py_get last_scores "correctness" (PInt 0) ;;
    c <-? py_int R cv ;;
    sv <-? py_get last_scores "specificity" (PInt 0) ;;
    s <-? py_int R sv ;;
    if (c <=? 1)%Z
    then Ok ("checkpoint", checkpoint_prompt topic subtopic prev_q prev_a)
    else if (s <=? 1)%Z
    then Ok ("probe", probe_prompt topic subtopic prev_q prev_a)
    else Ok ("next", next_prompt topic subtopic prev_q prev_a).

(** The pattern [(?i)\banswer\s*:] *)
Definition answer_re : list atom :=
  [ABoundary;
   AOne (CLit "a"); AOne (CLit "n"); AOne (CLit "s");
   AOne (CLit "w"); AOne (CLit "e"); AOne (CLit "r");
   AStar CSpace; AOne (CLit ":")].

(** The last statements of [ask_question]: from the reply to the question. *)
Definition question_text (q : string) : string :=
  let q := strip (replace "QUESTION:" "" (replace "Question:" "" q)) in
  strip (split_head true answer_re None q).

Definition ask_question (topic subtopic : string) (last_scores : pyval)
           (prev_q prev_a : string) : io (string * string) :=
  plan <- lift_result (question_plan topic subtopic last_scores prev_q prev_a) ;;
  q <- ask_llm (snd plan) (Qmake 2 10) ;;
  ret (question_text q, fst plan).

(** ** Poor-area predicates *)

(** [[int(h["scores"].get(field, 0)) for h in history if h.get("scores")]] *)
Fixpoint score_column (field : string) (history : list Turn) : result (list Z) :=
  match history with
  | [] => Ok []
  | h :: history' =>
      if truthy (turn_scores h)
      then v <-? py_get (turn_scores h) field (PInt 0) ;;
           z <-? py_int R v ;;
           rest <-? score_column field history' ;;
           Ok (z :: rest)
      else score_column field history'
  end.

Definition still_poor_after_checkpoint (history : list Turn) : result bool :=
  let asked := existsb (fun h => String.eqb (turn_style h) "checkpoint") history in
  col <-? score_column "correctness" history ;;
  Ok (asked && (py_max col 0 <? 2)%Z).

Definition still_poor_after_probe (history : list Turn) : result bool :=
  let asked := existsb (fun h => String.eqb (turn_style h) "probe") history in
  col <-? score_column "specificity" history ;;
  Ok (asked && (py_max col 0 <? 2)%Z).

End WithRuntime.
End Utils.

(* ------------------------------------------------------------------ *)
(** * app.py: the session state machine *)

Module App.
Import PyStr Py Utils.

(** A subtopic flagged at closure. *)
Record PoorArea := {
  area_subtopic : string;
  area_reasons : list string;
  area_turns : list Turn
}.

(** [st.session_state] *)
Record session_state := {
  topic : string;
  subtopics : list string;
  sub_idx : nat;
  turns_in_sub : nat;
  last_scores : pyval;
  history_sub : list Turn;
  full_history : list Turn;
  poor_areas : list PoorArea;
  question : string;
  style : string;
  awaiting_answer : bool;
  finished : bool
}.

(** Assignments to one key of [st.session_state]. *)
Definition set_subtopics (v : list string) (s : session_state) : session_state :=
  {| topic := topic s;
     subtopics := v;
     sub_idx := sub_idx s;
     turns_in_sub := turns_in_sub s;
     last_scores := last_scores s;
     history_sub := history_sub s;
     full_history := full_history s;
     poor_areas := poor_areas s;
     question := question s;
     style := style s;
     awaiting_answer := awaiting_answer s;
     finished := finished s |}.

Definition set_sub_idx (v : nat) (s : session_state) : session_state :=
  {| topic := topic s;
     subtopics := subtopics s;
     sub_idx := v;
     turns_in_sub := turns_in_sub s;
     last_scores := last_scores s;
     history_sub := history_sub s;
     full_history := full_history s;
     poor_areas := poor_areas s;
     question := question s;
     style := style s;
     awaiting_answer := awaiting_answer s;
     finished := finished s |}.

Definition set_turns_in_sub (v : nat) (s : session_state) : session_state :=
  {| topic := topic s;
     subtopics := subtopics s;
     sub_idx := sub_idx s;
     turns_in_sub := v;
     last_scores := last_scores s;
     history_sub := history_sub s;
     full_history := full_history s;
     poor_areas := poor_areas s;
     question := question s;
     style := style s;
     awaiting_answer := awaiting_answer s;
     finished := finished s |}.

Definition set_last_scores (v : pyval) (s : session_state) : session_state :=
  {| topic := topic s;
     subtopics := subtopics s;
     sub_idx := sub_idx s;
     turns_in_sub := turns_in_sub s;
     last_scores := v;
     history_sub := history_sub s;
     full_history := full_history s;
     poor_areas := poor_areas s;
     question := question s;
     style := style s;
     awaiting_answer := awaiting_answer s;
     finished := finished s |}.

Definition set_history_sub (v : list Turn) (s : session_state) : session_state :=
  {| topic := topic s;
     subtopics := subtopics s;
     sub_idx := sub_idx s;
     turns_in_sub := turns_in_sub s;
     last_scores := last_scores s;
     history_sub := v;
     full_history := full_history s;
     poor_areas := poor_areas s;
     question := question s;
     style := style s;
     awaiting_answer := awaiting_answer s;
     finished := finished s |}.

Definition set_full_history (v : list Turn) (s : session_state) : session_state :=
  {| topic := topic s;
     subtopics := subtopics s;
     sub_idx := sub_idx s;
     turns_in_sub := turns_in_sub s;
     last_scores := last_scores s;
     history_sub := history_sub s;
     full_history := v;
     poor_areas := poor_areas s;
     question := question s;
     style := style s;
     awaiting_answer := awaiting_answer s;
     finished := finished s |}.

Definition set_poor_areas (v : list PoorArea) (s : session_state) : session_state :=
  {| topic := topic s;
     subtopics := subtopics s;
     sub_idx := sub_idx s;
     turns_in_sub := turns_in_sub s;
     last_scores := last_scores s;
     history_sub := history_sub s;
     full_history := full_history s;
     poor_areas := v;
     question := question s;
     style := style s;
     awaiting_answer := awaiting_answer s;
     finished := finished s |}.

Definition set_question (v : string) (s : session_state) : session_state :=
  {| topic := topic s;
     subtopics := subtopics s;
     sub_idx := sub_idx s;
     turns_in_sub := turns_in_sub s;
     last_scores := last_scores s;
     history_sub := history_sub s;
     full_history := full_history s;
     poor_areas := poor_areas s;
     question := v;
     style := style s;
     awaiting_answer := awaiting_answer s;
     finished := finished s |}.

Definition set_style (v : string) (s : session_state) : session_state :=
  {| topic := topic s;
     subtopics := subtopics s;
     sub_idx := sub_idx s;
     turns_in_sub := turns_in_sub s;
     last_scores := last_scores s;
     history_sub := history_sub s;
     full_history := full_history s;
     poor_areas := poor_areas s;
     question := question s;
     style := v;
     awaiting_answer := awaiting_answer s;
     finished := finished s |}.

Definition set_awaiting_answer (v : bool) (s : session_state) : session_state :=
  {| topic := topic s;
     subtopics := subtopics s;
     sub_idx := sub_idx s;
     turns_in_sub := turns_in_sub s;
     last_scores := last_scores s;
     history_sub := history_sub s;
     full_history := full_history s;
     poor_areas := poor_areas s;
     question := question s;
     style := style s;
     awaiting_answer := v;
     finished := finished s |}.

Definition set_finished (v : bool) (s : session_state) : session_state :=
  {| topic := topic s;
     subtopics := subtopics s;
     sub_idx := sub_idx s;
     turns_in_sub := turns_in_sub s;
     last_scores := last_scores s;
     history_sub := history_sub s;
     full_history := full_history s;
     poor_areas := poor_areas s;
     question := question s;
     style := style s;
     awaiting_answer := awaiting_answer s;
     finished := v |}.

(** What the widgets hold in one run of the script. *)
Record inputs := {
  user_topic : string;               (* "Enter interview topic" *)
  max_subtopics : nat;               (* the slider, 1..5 *)
  subtopic_inputs : nat -> string;   (* the field "Subtopic k+1" *)
  start_clicked : bool;              (* "Start/Restart interview" *)
  answer : string;                   (* "Your answer" *)
  submitted : bool                   (* "Submit answer" *)
}.

(** Messages shown in the main pane. *)
Inductive notice :=
| Error (text : string)
| Warning (text : string)
| Info (text : string)
| Success (text : string).

(** Everything a run of the script can change. *)
Record env := {
  session : session_state;
  log : world;
  notices : list notice
}.

(** How a run is cut short: an uncaught exception, [st.stop()], [st.rerun()]. *)
Inductive signal :=
| Raised (msg : string)
| StopScript
| RerunScript.

Inductive outcome (A : Type) : Type :=
| Next (a : A)
| Halt (sg : signal).
Arguments Next {A} a.
Arguments Halt {A} sg.

Definition script (A : Type) : Type := env -> outcome A * env.

Definition sret {A} (a : A) : script A := fun e => (Next a, e).

Definition sbind {A B} (m : script A) (k : A -> script B) : script B :=
  fun e => match m e with
           | (Next a, e') => k a e'
           | (Halt sg, e') => (Halt sg, e')
           end.

#[local] Notation "x <- m ;; k" := (sbind m (fun x => k))
  (at level 61, m at next level, right associativity).
#[local] Notation "m ;;; k" := (sbind m (fun _ => k))
  (at level 61, right associativity).

Definition get : script session_state := fun e => (Next (session e), e).

Definition modify (f : session_state -> session_state) : script unit :=
  fun e => (Next tt, {| session := f (session e); log := log e; notices := notices e |}).

Definition notify (n : notice) : script unit :=
  fun e => (Next tt, {| session := session e; log := log e;
                        notices := (notices e ++ [n])%list |}).

Definition st_stop {A} : script A := fun e => (Halt StopScript, e).
Definition st_rerun {A} : script A := fun e => (Halt RerunScript, e).

(** A call into [utils.py] that talks to the outside world. *)
Definition call {A} (m : io A) : script A :=
  fun e => match m (log e) with
           | (Ok a, w) => (Next a, {| session := session e; log := w; notices := notices e |})
           | (Raise msg, w) => (Halt (Raised msg), {| session := session e; log := w; notices := notices e |})
           end.

(** A call into [utils.py] without effects. *)
Definition pure_call {A} (r : result A) : script A :=
  fun e => match r with
           | Ok a => (Next a, e)
           | Raise msg => (Halt (Raised msg), e)
           end.

(** [try: m  except Exception as e: h e].  [st.stop] and [st.rerun] are not
    caught. *)
Definition try_except {A} (m : script A) (h : string -> script A) : script A :=
  fun e => match m e with
           | (Halt (Raised msg), e') => h msg e'
           | r => r
           end.

(** ** The sidebar *)

(** [[s.strip() for s in user_subtopics if s.strip()]] over the
    [max_subtopics] text fields. *)
Definition user_subtopics (i : inputs) : list string :=
  filter nonempty
    (map (fun k => strip (subtopic_inputs i k)) (seq 0 (max_subtopics i))).

Definition valid_subtopics (i : inputs) : bool :=
  Nat.eqb (List.length (user_subtopics i)) 0
  || Nat.eqb (List.length (user_subtopics i)) (max_subtopics i).

(** The button is disabled unless the subtopic fields are valid. *)
Definition start_button (i : inputs) : bool :=
  start_clicked i && valid_subtopics i.

Definition init_state (i : inputs) : session_state :=
  {| topic := strip (user_topic i);
     subtopics := [];
     sub_idx := 0;
     turns_in_sub := 0;
     last_scores := PNone;
     history_sub := [];
     full_history := [];
     poor_areas := [];
     question := "";
     style := "";
     awaiting_answer := false;
     finished := false |}.

Definition start_hint : string :=
  "Enter a topic and press 'Start/Restart interview'. Fill all subtopics for manual input or leave blank to autogenerate.".

Definition grading_prompt (topic question context answer : string) : string :=
  nl ++
  "            You are grading an interview answer." ++ nl ++
  nl ++
  "            Provide ONLY a JSON object:" ++ nl ++
  "            {" ++ dq ++ "correctness" ++ dq ++ ": <0-3>, " ++ dq ++ "specificity" ++ dq
    ++ ": <0-3>, " ++ dq ++ "evidence" ++ dq ++ ": {" ++ dq ++ "verdict" ++ dq ++ ": "
    ++ dq ++ "supported" ++ dq ++ " | " ++ dq ++ "contradicted" ++ dq ++ " | "
    ++ dq ++ "insufficient" ++ dq ++ ", " ++ dq ++ "reason" ++ dq ++ ": "
    ++ dq ++ "short sentence" ++ dq ++ "}}" ++ nl ++
  nl ++
  "            Scoring criteria:" ++ nl ++
  "            - correctness:" ++ nl ++
  "            0 = wrong/irrelevant" ++ nl ++
  "            1 = mostly wrong or missing key points" ++ nl ++
  "            2 = mostly correct but incomplete or vague" ++ nl ++
  "            3 = fully correct, complete, and precise" ++ nl ++
  "            - specificity:" ++ nl ++
  "            0 = vague/general" ++ nl ++
  "            1 = somewhat specific, lacks detail" ++ nl ++
  "            2 = specific but not thorough" ++ nl ++
  "            3 = highly precise with clear details/examples" ++ nl ++
  nl ++
  "            Rules:" ++ nl ++
  "            - Use CONTEXT to inform correctness:" ++ nl ++
  "            - If CONTEXT explicitly refutes a claim in the ANSWER, verdict="
    ++ dq ++ "contradicted" ++ dq ++ " and correctness <= 1." ++ nl ++
  "            - If CONTEXT supports key claims, verdict="
    ++ dq ++ "supported" ++ dq ++ " and correctness >= 2 (unless other major errors)." ++ nl ++
  "            - If CONTEXT is unrelated/insufficient, verdict="
    ++ dq ++ "insufficient" ++ dq
    ++ ". Do NOT penalise correctness for irrelevance, judge correctness from general knowledge." ++ nl ++
  nl ++
  "            Topic: " ++ topic ++ nl ++
  "            Question: " ++ question ++ nl ++
  "            Context: " ++ (if nonempty context then context else "[no context found]") ++ nl ++
  "            Answer: " ++ answer ++ nl ++
  "            ".

(** The scores and the evidence recorded for an empty answer. *)
Definition zero_scores : pyval :=
  PDict [("correctness", PInt 0); ("specificity", PInt 0)].

Definition no_answer_evidence : pyval :=
  PDict [("verdict", PStr "insufficient"); ("reason", PStr "no answer")].

(** The result that stands in for a grading reply that cannot be used. *)
Definition unparsed_result : pyval :=
  PDict [("correctness", PInt 0); ("specificity", PInt 0);
         ("evidence", PDict [("verdict", PStr "insufficient");
                             ("reason", PStr "Could not parse JSON")])].

Definition checkpoint_reason : string :=
  "correctness stayed < 2 after a checkpoint question".
Definition probe_reason : string :=
  "specificity stayed < 2 after a probe question".

Section WithRuntime.
Variable R : runtime.

(** ** Start/Restart: [if start_button:] *)
Definition start (i : inputs) : script unit :=
  if start_button i then
    modify (fun _ => init_state i) ;;;
    st <- get ;;
    if negb (nonempty (topic st)) then
      notify (Warning start_hint) ;;; st_stop
    else
      try_except
        (match user_subtopics i with
         | [] =>
             subs <- call (get_subtopics R (topic st)) ;;
             modify (set_subtopics (firstn (max_subtopics i) subs))
         | us => modify (set_subtopics us)
         end)
        (fun e => notify (Error ("Failed to get subtopics: " ++ e))) ;;;
      st_rerun
  else sret tt.

(** ** Question needed: [if not question or not awaiting_answer:] *)
Definition question_needed (sub : string) : script unit :=
  st <- get ;;
  if negb (nonempty (question st)) || negb (awaiting_answer st) then
    qs <- try_except
            (let prev_q := last (map turn_question (history_sub st)) "" in
             let prev_a := last (map turn_answer (history_sub st)) "" in
             call (ask_question R (topic st) sub (last_scores st) prev_q prev_a))
            (fun e => notify (Error ("Failed to generate question: " ++ e)) ;;; st_stop) ;;
    modify (set_question (fst qs)) ;;;
    modify (set_style (snd qs)) ;;;
    modify (set_awaiting_answer true)
  else sret tt.

(** The record appended to both histories. *)
Definition record_turn (entry : Turn) : script unit :=
  modify (fun s => set_history_sub (history_sub s ++ [entry])%list s) ;;;
  modify (fun s => set_full_history (full_history s ++ [entry])%list s).

(** Context and grading of a non-empty answer; neither failure is fatal. *)
Definition grade (ans : string) : script pyval :=
  st <- get ;;
  context <- try_except
               (call (build_wiki_context R (topic st) (question st)))
               (fun e => notify (Warning ("Wikipedia context unavailable: " ++ e)) ;;; sret "") ;;
  try_except
    (raw <- call (ask_llm R (grading_prompt (topic st) (question st) context ans)
                          (Qmake 0 1)) ;;
     pure_call (clean_json R raw))
    (fun _ => sret unparsed_result).

(** [if moved:] flag the subtopic when it stayed poor, then leave it. *)
Definition close_subtopic (sub : string) : script unit :=
  st <- get ;;
  cp <- pure_call (still_poor_after_checkpoint R (history_sub st)) ;;
  flagged <- (if cp then sret true
              else pure_call (still_poor_after_probe R (history_sub st))) ;;
  (if flagged then
     cp' <- pure_call (still_poor_after_checkpoint R (history_sub st)) ;;
     pr' <- pure_call (still_poor_after_probe R (history_sub st)) ;;
     let reasons := ((if cp' then [checkpoint_reason] else [])
                     ++ (if pr' then [probe_reason] else []))%list in
     modify (fun s => set_poor_areas
                        (poor_areas s
                         ++ [{| area_subtopic := sub;
                                area_reasons := reasons;
                                area_turns := history_sub s |}])%list s)
   else sret tt) ;;;
  modify (fun s => set_sub_idx (sub_idx s + 1) s) ;;;
  modify (set_turns_in_sub 0) ;;;
  modify (set_last_scores PNone) ;;;
  modify (set_history_sub []) ;;;
  modify (set_question "") ;;;
  modify (set_style "") ;;;
  st' <- get ;;
  if Nat.leb (List.length (subtopics st')) (sub_idx st')
  then modify (set_finished true)
  else sret tt.

(** ** Answer submitted: [if submitted:] *)
Definition submit (i : inputs) (sub : string) : script unit :=
  modify (fun s => set_turns_in_sub (turns_in_sub s + 1) s) ;;;
  (if negb (nonempty (strip (answer i))) then
     st <- get ;;
     record_turn {| turn_subtopic := sub;
                    turn_style := style st;
                    turn_question := question st;
                    turn_answer := "";
                    turn_scores := zero_scores;
                    turn_evidence := no_answer_evidence |} ;;;
     modify (set_last_scores zero_scores) ;;;
     modify (set_awaiting_answer false) ;;;
     st_rerun
   else sret tt) ;;;
  result <- grade (answer i) ;;
  cv <- pure_call (py_get result "correctness" (PInt 0)) ;;
  _ <- pure_call (py_int R cv) ;;
  sv <- pure_call (py_get result "specificity" (PInt 0)) ;;
  _ <- pure_call (py_int R sv) ;;
  ev <- pure_call (py_get result "evidence" (PDict [])) ;;
  (if truthy ev then
     _ <- pure_call (py_get ev "verdict" PNone) ;;
     _ <- pure_call (py_get ev "reason" PNone) ;;
     sret tt
   else sret tt) ;;;
  st <- get ;;
  record_turn {| turn_subtopic := sub;
                 turn_style := style st;
                 turn_question := question st;
                 turn_answer := answer i;
                 turn_scores := result;
                 turn_evidence := ev |} ;;;
  modify (set_last_scores result) ;;;
  modify (set_awaiting_answer false) ;;;
  st <- get ;;
  let last_subtopic := (Z.of_nat (List.length (subtopics st)) - 1 <=? Z.of_nat (sub_idx st))%Z in
  moved <- (if Nat.leb 2 (turns_in_sub st) then
              notify (Info ("Subtopic turn limit reached."
                            ++ (if last_subtopic then "" else " Advancing to next subtopic."))) ;;;
              sret true
            else sret false) ;;
  (if moved then close_subtopic sub else sret tt) ;;;
  st_rerun.

(** ** Main flow: from [if st.session_state.finished:] to the form *)
Definition main_flow (i : inputs) : script unit :=
  st <- get ;;
  if finished st then notify (Success "Interview complete.")
  else
    match subtopics st with
    | [] => notify (Info start_hint) ;;; st_stop
    | _ =>
        match nth_error (subtopics st) (sub_idx st) with
        | None => fun e => (Halt (Raised "IndexError"), e)
        | Some sub =>
            question_needed sub ;;;
            if submitted i then submit i sub else sret tt
        end
    end.

(** One run of the script.  [None] is a session that has no state yet.  The
    final report, which follows the main flow when the session is finished,
    reads the state and does not change it. *)
Definition script_run (i : inputs) (st : option session_state) (w : world)
  : outcome unit * env :=
  let st0 := match st with Some s => s | None => init_state i end in
  (start i ;;; main_flow i) {| session := st0; log := w; notices := [] |}.

End WithRuntime.
End App.

(* ------------------------------------------------------------------ *)
(** * A concrete runtime, to run the definitions *)

Module Demo.
Import PyStr Py Utils App.

Definition is_digit (c : ascii) : bool := between 48 57 (nat_of_ascii c).

Definition json_space (c : ascii) : bool :=
  let n := nat_of_ascii c in
  Nat.eqb n 32 || Nat.eqb n 9 || Nat.eqb n 10 || Nat.eqb n 13.

Fixpoint skip_ws (s : string) : string :=
  match s with
  | String c s' => if json_space c then skip_ws s' else s
  | EmptyString => EmptyString
  end.

(** Digits to a number, most significant first. *)
Fixpoint read_digits (acc : Z) (s : string) : Z * string :=
  match s with
  | String c s' =>
      if is_digit c
      then read_digits (10 * acc + Z.of_nat (nat_of_ascii c - 48))%Z s'
      else (acc, s)
  | EmptyString => (acc, s)
  end.

Definition read_int (s : string) : option (Z * string) :=
  match s with
  | String "-" (String c r) =>
      if is_digit c
      then let '(z, rest) := read_digits 0 (String c r) in Some ((- z)%Z, rest)
      else None
  | String c r =>
      if is_digit c then Some (read_digits 0 (String c r)) else None
  | EmptyString => None
  end.

(** The characters up to the closing quote; escapes are not read. *)
Fixpoint read_string (s : string) : option (string * string) :=
  match s with
  | EmptyString => None
  | String c s' =>
      if Ascii.eqb c "034" then Some (EmptyString, s')
      else if Ascii.eqb c "\" then None
      else match read_string s' with
           | Some (t, rest) => Some (String c t, rest)
           | None => None
           end
  end.

(** A later member with the same key replaces the value of the earlier. *)
Fixpoint dict_set (key : string) (v : pyval) (d : list (string * pyval))
  : list (string * pyval) :=
  match d with
  | [] => [(key, v)]
  | (k, x) :: d' =>
      if String.eqb k key then (k, v) :: d' else (k, x) :: dict_set key v d'
  end.

(** A reader for JSON without escapes, fractions and exponents. *)
Fixpoint read_value (fuel : nat) (s : string) : option (pyval * string) :=
  match fuel with
  | O => None
  | S fuel' =>
      match skip_ws s with
      | String "{" r =>
          match skip_ws r with
          | String "}" rest => Some (PDict [], rest)
          | r' => read_members fuel' r' []
          end
      | String "[" r =>
          match skip_ws r with
          | String "]" rest => Some (PList [], rest)
          | r' => read_items fuel' r' []
          end
      | String "034" r =>
          match read_string r with
          | Some (t, rest) => Some (PStr t, rest)
          | None => None
          end
      | s' =>
          if prefix "true" s' then Some (PBool true, substring 4 (String.length s') s')
          else if prefix "false" s' then Some (PBool false, substring 5 (String.length s') s')
          else if prefix "null" s' then Some (PNone, substring 4 (String.length s') s')
          else match read_int s' with
               | Some (z, rest) => Some (PInt z, rest)
               | None => None
               end
      end
  end
with read_members (fuel : nat) (s : string) (acc : list (string * pyval))
  : option (pyval * string) :=
  match fuel with
  | O => None
  | S fuel' =>
      match skip_ws s with
      | String "034" r =>
          match read_string r with
          | Some (key, r1) =>
              match skip_ws r1 with
              | String ":" r2 =>
                  match read_value fuel' r2 with
                  | Some (v, r3) =>
                      match skip_ws r3 with
                      | String "," r4 => read_members fuel' r4 (dict_set key v acc)
                      | String "}" rest => Some (PDict (dict_set key v acc), rest)
                      | _ => None
                      end
                  | None => None
                  end
              | _ => None
              end
          | None => None
          end
      | _ => None
      end
  end
with read_items (fuel : nat) (s : string) (acc : list pyval)
  : option (pyval * string) :=
  match fuel with
  | O => None
  | S fuel' =>
      match read_value fuel' s with
      | Some (v, r) =>
          match skip_ws r with
          | String "," r' => read_items fuel' r' (acc ++ [v])%list
          | String "]" rest => Some (PList (acc ++ [v])%list, rest)
          | _ => None
          end
      | None => None
      end
  end.

Definition demo_json_loads (s : string) : result pyval :=
  match read_value (String.length s + 1) s with
  | Some (v, rest) =>
      match skip_ws rest with
      | EmptyString => Ok v
      | _ => Raise "Extra data"
      end
  | None => Raise "Expecting value"
  end.

Definition demo_int_of_str (s : string) : result Z :=
  match read_int (strip s) with
  | Some (z, EmptyString) => Ok z
  | _ => Raise "invalid literal for int() with base 10"
  end.

Definition llm_calls (w : world) : nat :=
  List.length (filter (fun e => match e with LlmCall _ _ => true | _ => false end) w).

(** A runtime whose language model gives the scripted replies in turn and
    whose evidence lookup always gives [context]. *)
Definition scripted (replies : list (result string)) (context : result string)
  : runtime :=
  {| json_loads := demo_json_loads;
     int_of_str := demo_int_of_str;
     chat_completion := fun w _ _ => nth (llm_calls w) replies (Raise "connection error");
     wiki_context := fun _ _ _ => context |}.

End Demo.

(* ------------------------------------------------------------------ *)
(** * The vocabulary of the properties *)

Module Props.
Import PyStr Py Utils App Demo.

(** ** Strings *)

(** The character [c] occurs in [s]. *)
Definition occurs_char (c : ascii) (s : string) : Prop :=
  In c (list_ascii_of_string s).

(** The string [sub] occurs in [s]. *)
Definition occurs (sub s : string) : Prop :=
  exists a b, s = a ++ sub ++ b.

(** Every character of [s] is white space. *)
Definition all_space (s : string) : Prop :=
  forall c, occurs_char c s -> isspace c = true.

(** ** The grading normalizer *)

(** The repair of trailing commas that [clean_json] applies. *)
Definition repaired (candidate : string) : string :=
  replace ",]" "]" (replace ",}" "}" candidate).

Definition braces_error : result pyval := Raise "Could not locate JSON braces".

(** The sample reply of the specification and what it holds once the noise
    and the trailing comma are gone. *)
Definition noisy_reply : string :=
  "noise{" ++ dq ++ "correctness" ++ dq ++ ":2," ++ dq ++ "specificity" ++ dq
  ++ ":1,}noise".

Definition tidy_reply : string :=
  "{" ++ dq ++ "correctness" ++ dq ++ ":2," ++ dq ++ "specificity" ++ dq ++ ":1}".

(** A runtime without a language model, with the JSON reader of [Demo]. *)
Definition offline : runtime := scripted [] (Raise "offline").

(** ** Poor-area predicates *)

(** The score that a turn holds in [field]; a turn whose scores are empty
    holds 0, as does a turn whose scores lack the field. *)
Definition turn_score (R : runtime) (field : string) (h : Turn) : result Z :=
  if truthy (turn_scores h)
  then rbind (py_get (turn_scores h) field (PInt 0)) (py_int R)
  else Ok 0%Z.

(** [col] lists the scores of the turns of [history], in order. *)
Definition scores_are (R : runtime) (field : string) (history : list Turn)
           (col : list Z) : Prop :=
  Forall2 (fun h z => turn_score R field h = Ok z) history col.

(** [m] is the greatest element of [l]. *)
Definition is_max (m : Z) (l : list Z) : Prop :=
  In m l /\ Forall (fun z => (z <= m)%Z) l.

(** Some turn of [history] has the style [st]. *)
Definition asked (st : string) (history : list Turn) : Prop :=
  exists h, In h history /\ turn_style h = st.

Definition sample_turn (st : string) (c s : Z) : Turn :=
  {| turn_subtopic := "Indexing";
     turn_style := st;
     turn_question := "What is an index?";
     turn_answer := "A lookup structure.";
     turn_scores := PDict [("correctness", PInt c); ("specificity", PInt s)];
     turn_evidence := PDict [] |}.

Definition below2 (z : Z) : bool := (z <? 2)%Z.

(** ** Question policy *)

(** The score that [ask_question] reads from a mapping: the field, or 0
    when the mapping lacks it, through [int]. *)
Definition read_score (R : runtime) (d : list (string * pyval))
           (field : string) : result Z :=
  py_int R (match assoc field d with Some v => v | None => PInt 0 end).

(** What a call of [ask_question] gives for a style and its prompt: one
    request to the language model, logged, and the reply turned into the
    question. *)
Definition asks (R : runtime) (st prompt : string) (w : world)
  : result (string * string) * world :=
  (match chat_completion R w prompt (Qmake 2 10) with
   | Ok raw => Ok (question_text raw, st)
   | Raise e => Raise e
   end,
   (w ++ [LlmCall prompt (Qmake 2 10)])%list).

(** A language model that answers every request with the same question. *)
Definition examiner : runtime :=
  scripted (repeat (Ok "What is an index?") 8) (Ok "").

(** ** Post-processing of a generated question *)

(** The last character of [s], or [prev] when [s] is empty. *)
Fixpoint last_char (prev : option ascii) (s : string) : option ascii :=
  match s with
  | EmptyString => prev
  | String c s' => last_char (Some c) s'
  end.

(** [a] and [b] are equal up to the case of their letters. *)
Definition ci_eq (a b : string) : Prop :=
  map to_lower (list_ascii_of_string a) = map to_lower (list_ascii_of_string b).

(** An answer label stands at the head of [rest], after the character
    [prev]: "answer" in any letter case, not preceded by a word character,
    then white space if any, then a colon. *)
Definition label_here (prev : option ascii) (rest : string) : Prop :=
  word_of prev = false
  /\ exists word ws tail,
      rest = word ++ ws ++ ":" ++ tail /\ ci_eq word "answer" /\ all_space ws.

(** The text [t] has an answer label right after its prefix [pre]. *)
Definition label_after (t pre : string) : Prop :=
  exists rest, t = pre ++ rest /\ label_here (last_char None pre) rest.

(** The reply without its question labels, trimmed. *)
Definition unlabelled (raw : string) : string :=
  strip (replace "QUESTION:" "" (replace "Question:" "" raw)).

(** A reply with a question label inside the sentence, and one in which the
    letters of "Answer:" end a longer word. *)
Definition inner_label_reply : string := "Is the Question: clear?".
Definition glued_label_reply : string := "Is MyAnswer: right?".

(** A reply with both labels. *)
Definition labelled_reply : string :=
  "Question: What is an index? Answer: a lookup structure".

(** ** Subtopic generation *)

(** A string with something else than white space in it. *)
Definition nonblank (s : string) : Prop := nonempty (strip s) = true.

(** A language model that declines to list subtopics, and one that lists
    four of them, one blank. *)
Definition declining : runtime :=
  scripted [Ok "Sorry, no subtopics today."] (Ok "").

Definition four_subtopics_reply : string :=
  "Sure: {" ++ dq ++ "subtopics" ++ dq ++ ": [" ++ dq ++ " Indexing " ++ dq ++ ", "
  ++ dq ++ "  " ++ dq ++ ", " ++ dq ++ "Transactions" ++ dq ++ ", "
  ++ dq ++ "Joins" ++ dq ++ ", " ++ dq ++ "Views" ++ dq ++ ",]}".

Definition listing : runtime := scripted [Ok four_subtopics_reply] (Ok "").

(** ** Sessions *)

(** The topic that Start/Restart takes from the sidebar. *)
Definition topic_of (i : inputs) : string := strip (user_topic i).

Definition databases_inputs (topic_field answer_field : string)
           (start submit : bool) : inputs :=
  {| user_topic := topic_field;
     max_subtopics := 2;
     subtopic_inputs := fun _ => "";
     start_clicked := start;
     answer := answer_field;
     submitted := submit |}.

(** A session in its first subtopic, one turn recorded, a question pending. *)
Definition midway : session_state :=
  {| topic := "Databases";
     subtopics := ["Indexing"; "Transactions"];
     sub_idx := 0;
     turns_in_sub := 1;
     last_scores := PDict [("correctness", PInt 1); ("specificity", PInt 1)];
     history_sub := [sample_turn "seed" 1 1];
     full_history := [sample_turn "seed" 1 1];
     poor_areas := [];
     question := "Name one kind of index.";
     style := "checkpoint";
     awaiting_answer := true;
     finished := false |}.

Definition env_of (s : session_state) : env :=
  {| session := s; log := []; notices := [] |}.

(** A session that has just started on its first subtopic. *)
Definition fresh : session_state :=
  set_subtopics ["Indexing"; "Transactions"]
    (init_state (databases_inputs "Databases" "" true false)).

(** A language model whose first reply holds an answer and no question. *)
Definition leaking : runtime :=
  scripted [Ok "Answer: 42"; Ok "What is an index?"] (Ok "").

(** ** Answers *)

(** The environment once the turn counter has been incremented. *)
Definition counted (e : env) : env :=
  {| session := set_turns_in_sub (turns_in_sub (session e) + 1) (session e);
     log := log e;
     notices := notices e |}.

(** The turn recorded for an empty answer. *)
Definition no_answer_turn (sub : string) (s : session_state) : Turn :=
  {| turn_subtopic := sub;
     turn_style := style s;
     turn_question := question s;
     turn_answer := "";
     turn_scores := zero_scores;
     turn_evidence := no_answer_evidence |}.

(** The turn recorded for a graded answer. *)
Definition graded_turn (sub ans : string) (result ev : pyval)
           (s : session_state) : Turn :=
  {| turn_subtopic := sub;
     turn_style := style s;
     turn_question := question s;
     turn_answer := ans;
     turn_scores := result;
     turn_evidence := ev |}.

(** The session once a turn is in both histories. *)
Definition recorded (t : Turn) (scores : pyval) (s : session_state)
  : session_state :=
  {| topic := topic s;
     subtopics := subtopics s;
     sub_idx := sub_idx s;
     turns_in_sub := turns_in_sub s;
     last_scores := scores;
     history_sub := (history_sub s ++ [t])%list;
     full_history := (full_history s ++ [t])%list;
     poor_areas := poor_areas s;
     question := question s;
     style := style s;
     awaiting_answer := false;
     finished := finished s |}.

(** What the display of a grading result reads from it: both scores through
    [int], and the evidence, whose verdict and reason are read when it is
    not empty.  The value is the evidence. *)
Definition shown (R : runtime) (result : pyval) : Py.result pyval :=
  rbind (py_get result "correctness" (PInt 0)) (fun cv =>
  rbind (py_int R cv) (fun _ =>
  rbind (py_get result "specificity" (PInt 0)) (fun sv =>
  rbind (py_int R sv) (fun _ =>
  rbind (py_get result "evidence" (PDict [])) (fun ev =>
  if truthy ev
  then rbind (py_get ev "verdict" PNone) (fun _ =>
       rbind (py_get ev "reason" PNone) (fun _ => Ok ev))
  else Ok ev))))).

(** The session once its subtopic is closed, [extra] being the poor areas
    flagged at closure. *)
Definition closed (extra : list PoorArea) (s : session_state) : session_state :=
  {| topic := topic s;
     subtopics := subtopics s;
     sub_idx := sub_idx s + 1;
     turns_in_sub := 0;
     last_scores := PNone;
     history_sub := [];
     full_history := full_history s;
     poor_areas := (poor_areas s ++ extra)%list;
     question := "";
     style := "";
     awaiting_answer := awaiting_answer s;
     finished := finished s || Nat.leb (List.length (subtopics s)) (sub_idx s + 1) |}.

Definition limit_notice (s : session_state) : notice :=
  Info ("Subtopic turn limit reached."
        ++ (if (Z.of_nat (List.length (subtopics s)) - 1 <=? Z.of_nat (sub_idx s))%Z
            then "" else " Advancing to next subtopic.")).

(** A language model that asks a question and then grades an answer 1/1. *)
Definition grader : runtime :=
  scripted [Ok ("{" ++ dq ++ "correctness" ++ dq ++ ": 1, "
                ++ dq ++ "specificity" ++ dq ++ ": 1}")]
           (Ok "An index speeds up lookups.").

(** What the user does in a run: submits a blank answer, submits an answer,
    nothing, presses Start/Restart with a blank topic. *)
Definition blank_submit : inputs := databases_inputs "Databases" "   " false true.
Definition real_submit : inputs := databases_inputs "Databases" "A B-tree." false true.
Definition idle : inputs := databases_inputs "Databases" "" false false.
Definition blank_start : inputs := databases_inputs "   " "" true false.
Definition good_start : inputs := databases_inputs "Databases" "" true false.

(** ** The end-to-end scenario of the specification *)

(** Topic "Databases", one manual subtopic "Indexing". *)
Definition scenario_inputs (start : bool) (answer_field : string) (submit : bool)
  : inputs :=
  {| user_topic := "Databases";
     max_subtopics := 1;
     subtopic_inputs := fun _ => "Indexing";
     start_clicked := start;
     answer := answer_field;
     submitted := submit |}.

(** Two questions, then a grading of correctness 1. *)
Definition interviewer : runtime :=
  scripted [Ok "Question: What is an index?";
            Ok "What does an index store? Answer: keys and row pointers";
            Ok ("{" ++ dq ++ "correctness" ++ dq ++ ": 1, "
                ++ dq ++ "specificity" ++ dq ++ ": 2,}")]
           (Ok "An index speeds up lookups.").

(** A language model whose grading reply is the empty object. *)
Definition terse : runtime :=
  scripted [Ok "What is an index?"; Ok "{}"; Ok "What is a key?"] (Ok "").

(** The run that follows the run [r], with the inputs [i]. *)
Definition then_run (R : runtime) (i : inputs) (r : outcome unit * env)
  : outcome unit * env :=
  script_run R i (Some (session (snd r))) (log (snd r)).

End Props.

(* ------------------------------------------------------------------ *)
(** * utils.py: the evidence lookup

    What stands behind the [wiki_context] of a [runtime]: the query
    suggestions, the Wikipedia search and the assembly of the context.  The
    Wikipedia client is a collaborator of its own, whose exceptions are
    told apart because [wiki_search] handles them one by one. *)

Module Wiki.
Import PyStr Py Utils.

(** ** More of [str] *)

(** [s.lower()] *)
Fixpoint lower (s : string) : string :=
  match s with
  | EmptyString => EmptyString
  | String c s' => String (to_lower c) (lower s')
  end.

(** [s.split()]: the maximal runs of characters that are not white space. *)
Fixpoint split (s : string) : list string :=
  match s with
  | EmptyString => []
  | String c s' =>
      if isspace c then split s'
      else match s' with
           | EmptyString => [String c EmptyString]
           | String d _ =>
               if isspace d then String c EmptyString :: split s'
               else match split s' with
                    | w :: ws => String c w :: ws
                    | [] => [String c EmptyString]
                    end
           end
  end.

(** [s.rstrip(ch)] for a one-character set. *)
Fixpoint rstrip_char (ch : ascii) (s : string) : string :=
  match s with
  | EmptyString => EmptyString
  | String c s' =>
      match rstrip_char ch s' with
      | EmptyString => if Ascii.eqb c ch then EmptyString else String c EmptyString
      | r => String c r
      end
  end.

(** [x in seen] for a set of strings. *)
Definition mem (x : string) (seen : list string) : bool :=
  existsb (String.eqb x) seen.

(** The normal form under which two suggested queries are the same:
    [" ".join(q.lower().split()).rstrip(".")]. *)
Definition normal_form (q_clean : string) : string :=
  rstrip_char "." (String.concat " " (split (lower q_clean))).

(** ** The Wikipedia client *)

(** The requests made to Wikipedia, in order. *)
Inductive lookup :=
| Search (query : string)
| Page (title : string).

(** What the client can raise, as [wiki_search] tells it apart. *)
Inductive wiki_error :=
| DisambiguationError (options : list string)
| PageError
| OtherError (msg : string).

Inductive outcome (A : Type) : Type :=
| Got (a : A)
| Failed (e : wiki_error).
Arguments Got {A} a.
Arguments Failed {A} e.

(** The calls made so far: to the language model and to Wikipedia. *)
Record trace := {
  asked_model : world;
  looked_up : list lookup
}.

Record encyclopedia := {
  (** [wikipedia.search(query, results=1)] *)
  wiki_titles : trace -> string -> outcome (list string);
  (** [wikipedia.summary(title, auto_suggest=False)] *)
  wiki_page : trace -> string -> outcome string
}.

Definition wio (A : Type) : Type := trace -> outcome A * trace.

Definition wret {A} (a : A) : wio A := fun t => (Got a, t).

Definition wbind {A B} (m : wio A) (k : A -> wio B) : wio B :=
  fun t => match m t with
           | (Got a, t') => k a t'
           | (Failed e, t') => (Failed e, t')
           end.

(** [try: m  except Exception: h] *)
Definition guarded {A} (m : wio A) (h : wio A) : wio A :=
  fun t => match m t with
           | (Failed _, t') => h t'
           | r => r
           end.

(** [try: m  except DisambiguationError as e: on_options e.options
            except PageError: on_missing] *)
Definition handled {A} (m : wio A) (on_options : list string -> wio A)
           (on_missing : wio A) : wio A :=
  fun t => match m t with
           | (Failed (DisambiguationError options), t') => on_options options t'
           | (Failed PageError, t') => on_missing t'
           | r => r
           end.

#[local] Notation "x <- m ;; k" := (wbind m (fun x => k))
  (at level 61, m at next level, right associativity).
#[local] Notation "x <-? r ;; k" := (rbind r (fun x => k))
  (at level 61, r at next level, right associativity).

Section WithCollaborators.
Variable R : runtime.
Variable E : encyclopedia.

Definition search (query : string) : wio (list string) :=
  fun t => (wiki_titles E t query,
            {| asked_model := asked_model t;
               looked_up := (looked_up t ++ [Search query])%list |}).

Definition summary (title : string) : wio string :=
  fun t => (wiki_page E t title,
            {| asked_model := asked_model t;
               looked_up := (looked_up t ++ [Page title])%list |}).

(** A call into the rest of [utils.py], which only talks to the language
    model. *)
Definition model {A} (m : io A) : wio A :=
  fun t => match m (asked_model t) with
           | (Ok a, w) => (Got a, {| asked_model := w; looked_up := looked_up t |})
           | (Raise msg, w) =>
               (Failed (OtherError msg),
                {| asked_model := w; looked_up := looked_up t |})
           end.

Definition wiki_search (query : string) : wio string :=
  guarded
    (titles <- search query ;;
     match titles with
     | [] => wret ""
     | title :: _ =>
         handled (summary title)
                 (fun options =>
                    match options with
                    | option :: _ => summary option
                    | [] => wret ""
                    end)
                 (wret "")
     end)
    (wret "").

Definition queries_prompt (topic question : string) : string :=
  nl ++
  "    Return ONLY a single JSON object like:" ++ nl ++
  "    {" ++ dq ++ "queries" ++ dq ++ ": [" ++ dq ++ "..." ++ dq ++ ", "
    ++ dq ++ "..." ++ dq ++ "]}" ++ nl ++
  nl ++
  "    Generate up to 2 concise Wikipedia search queries that would help" ++ nl ++
  "    verify an answer for this interview." ++ nl ++
  nl ++
  "    Rules:" ++ nl ++
  "    - Keep each query <= 5 words" ++ nl ++
  "    - Use simple encyclopaedic terms" ++ nl ++
  "    - If a standard Wikipedia page title exists use it" ++ nl ++
  "    - Queries should be directly relevant to the topic/question" ++ nl ++
  nl ++
  "    Topic: " ++ topic ++ nl ++
  "    Question: " ++ question ++ nl ++
  "    ".

(** The loop of [suggest_wiki_queries]: [seen] holds the normal forms kept
    so far, the value is what is appended to [out]. *)
Fixpoint distinct_queries (seen : list string) (queries : list pyval)
  : result (list string) :=
  match queries with
  | [] => Ok []
  | q :: queries' =>
      q_clean <-? py_strip (if truthy q then q else PStr "") ;;
      let q_norm := normal_form q_clean in
      if nonempty q_clean && negb (mem q_norm seen)
      then (out <-? distinct_queries (q_norm :: seen) queries' ;;
            Ok (q_clean :: out))
      else distinct_queries seen queries'
  end.

(** The body of the [try] of [suggest_wiki_queries]. *)
Definition parse_queries (raw : string) : result (list string) :=
  data <-? clean_json R raw ;;
  queries <-? py_get data "queries" (PList []) ;;
  items <-? py_iter queries ;;
  out <-? distinct_queries [] items ;;
  Ok (firstn 2 out).

Definition suggest_wiki_queries (topic question : string) : io (list string) :=
  bind (ask_llm R (queries_prompt topic question) (Qmake 2 10))
       (fun raw => ret (or_else (parse_queries raw) [])).

(** The loop of [build_wiki_context]: [tried] holds the keys searched so
    far, the value is [context_parts]. *)
Fixpoint gather (tried : list string) (queries : list string)
  : wio (list string) :=
  match queries with
  | [] => wret []
  | q :: queries' =>
      let key := lower (strip q) in
      if negb (nonempty key) || mem key tried
      then gather tried queries'
      else
        found <- wiki_search q ;;
        parts <- gather (key :: tried) queries' ;;
        wret (if nonempty found then found :: parts else parts)
  end.

Definition build_wiki_context (topic question : string) : wio string :=
  queries <- model (suggest_wiki_queries topic question) ;;
  parts <- gather [] queries ;;
  wret (strip (String.concat (nl ++ nl) parts)).

End WithCollaborators.
End Wiki.

(* ------------------------------------------------------------------ *)
(** * app.py: the final report

    What the script shows once the session is finished.  The widgets are
    not modelled: the report is the data that goes into them, in the order
    of the script, and the values read from a turn are kept as they are
    rather than formatted.  [json.dumps] is one more collaborator. *)

Module Report.
Import PyStr Py Utils App.

#[local] Notation "x <- m ;; k" := (bind m (fun x => k))
  (at level 61, m at next level, right associativity).
#[local] Notation "x <-? r ;; k" := (rbind r (fun x => k))
  (at level 61, r at next level, right associativity).









Section WithRuntime.
Variable R : runtime.
(** [json.dumps(full_history, indent=2)] *)
Variable json_dumps : list Turn -> result string.



End WithRuntime.
End Report.

(* ------------------------------------------------------------------ *)
(** * The vocabulary of the further properties *)

Module Cover.
Import PyStr Py Utils App Demo Props Wiki Report.

(** ** The evidence lookup *)

(** The queries searched for among the requests [l], in order. *)
Fixpoint searches (l : list lookup) : list string :=
  match l with
  | [] => []
  | Search q :: l' => q :: searches l'
  | Page _ :: l' => searches l'
  end.

(** A string that [strip] leaves alone and that is not empty. *)
Definition trimmed (s : string) : Prop := strip s = s /\ s <> "".

(** An encyclopedia with one ambiguous title. *)
Definition small_wiki : encyclopedia :=
  {| wiki_titles := fun _ q =>
       if String.eqb q "B-tree" then Got ["B-tree"]
       else if String.eqb q "mercury" then Got ["Mercury"]
       else Got [];
     wiki_page := fun _ title =>
       if String.eqb title "B-tree" then Got "A B-tree is a balanced search tree."
       else if String.eqb title "Mercury"
       then Failed (DisambiguationError ["Mercury (planet)"; "Mercury (element)"])
       else if String.eqb title "Mercury (planet)"
       then Got "Mercury is the first planet."
       else Failed PageError |}.

Definition no_trace : trace := {| asked_model := []; looked_up := [] |}.

(** A language model that suggests the same query three times over. *)
Definition repeating_reply : string :=
  "{" ++ dq ++ "queries" ++ dq ++ ": [" ++ dq ++ "B-tree" ++ dq ++ ", "
  ++ dq ++ " b-TREE. " ++ dq ++ ", " ++ dq ++ "mercury" ++ dq ++ ", "
  ++ dq ++ "Index" ++ dq ++ "]}".

Definition repeating : runtime := scripted [Ok repeating_reply] (Ok "").

(** ** The sidebar *)

(** Every subtopic field is blank; every subtopic field is filled. *)
Definition all_blank (i : inputs) : Prop :=
  forall k, k < max_subtopics i -> strip (subtopic_inputs i k) = "".

Definition all_filled (i : inputs) : Prop :=
  forall k, k < max_subtopics i -> strip (subtopic_inputs i k) <> "".

(** Three subtopic fields, filled by hand. *)
Definition manual_start : inputs :=
  {| user_topic := " Databases ";
     max_subtopics := 3;
     subtopic_inputs := fun k =>
       match k with
       | 0 => " Indexing"
       | 1 => "Transactions "
       | _ => "Joins"
       end;
     start_clicked := true;
     answer := "";
     submitted := false |}.

(** ** Sessions that can arise *)

(** The sessions that runs of the script lead to, from a browser session
    without state; each run may find the outside world in any state. *)
Inductive reachable (R : runtime) : session_state -> Prop :=
| reach_first (i : inputs) (w : world) (o : App.outcome unit) (e' : env) :
    script_run R i None w = (o, e') -> reachable R (session e')
| reach_next (i : inputs) (s : session_state) (w : world)
             (o : App.outcome unit) (e' : env) :
    reachable R s ->
    script_run R i (Some s) w = (o, e') -> reachable R (session e').

(** The subtopic index points at a subtopic until the session is finished,
    and just past the last one from then on. *)
Definition in_range (s : session_state) : Prop :=
  if finished s
  then sub_idx s = List.length (subtopics s) /\ subtopics s <> []
  else subtopics s = [] \/ sub_idx s < List.length (subtopics s).

(** The history of the subtopic is the end of the full history, is no longer
    than the turn counter says, and holds turns of the current subtopic
    only. *)
Definition coherent (s : session_state) : Prop :=
  (exists before, full_history s = (before ++ history_sub s)%list)
  /\ List.length (history_sub s) <= turns_in_sub s
  /\ Forall (fun t => nth_error (subtopics s) (sub_idx s) = Some (turn_subtopic t))
            (history_sub s).

(** [part] is a run of consecutive elements of [whole]. *)
Definition segment (part whole : list Turn) : Prop :=
  exists a b, whole = (a ++ part ++ b)%list.

(** A flagged area gives one or both of the two reasons, for a subtopic of
    the session, with the turns of that subtopic as they stand in the full
    history. *)
Definition sound_area (s : session_state) (a : PoorArea) : Prop :=
  (area_reasons a = [checkpoint_reason]
   \/ area_reasons a = [probe_reason]
   \/ area_reasons a = [checkpoint_reason; probe_reason])
  /\ area_turns a <> []
  /\ segment (area_turns a) (full_history s)
  /\ In (area_subtopic a) (subtopics s).

Definition sound_areas (s : session_state) : Prop :=
  Forall (sound_area s) (poor_areas s)
  /\ List.length (poor_areas s) <= sub_idx s.

(** Both scores of the turn can be read. *)
Definition readable_turn (R : runtime) (t : Turn) : Prop :=
  is_ok (turn_score R "correctness" t) = true
  /\ is_ok (turn_score R "specificity" t) = true.

Definition readable (R : runtime) (s : session_state) : Prop :=
  Forall (readable_turn R) (history_sub s).

(** What the invariants look at. *)
Definition core (s : session_state) :=
  (subtopics s, sub_idx s, turns_in_sub s, history_sub s, full_history s,
   poor_areas s, finished s).

(** A turn recorded for a blank answer, and a turn recorded for an answer
    that was graded: the result could be displayed and its evidence is what
    was displayed. *)
Definition blank_turn (t : Turn) : Prop :=
  turn_answer t = ""
  /\ turn_scores t = zero_scores
  /\ turn_evidence t = no_answer_evidence.

Definition graded (R : runtime) (t : Turn) : Prop :=
  nonempty (strip (turn_answer t)) = true
  /\ shown R (turn_scores t) = Ok (turn_evidence t).

Definition well_recorded (R : runtime) (s : session_state) : Prop :=
  Forall (fun t => (blank_turn t \/ graded R t)
                   /\ In (turn_subtopic t) (subtopics s))
         (full_history s).

Definition sane (R : runtime) (s : session_state) : Prop :=
  in_range s /\ coherent s /\ sound_areas s /\ readable R s
  /\ well_recorded R s.

(** Every turn of the open subtopic after its first one was recorded for a
    blank answer. *)
Definition first_only (s : session_state) : Prop :=
  Forall blank_turn (tl (history_sub s)).




(** The number of evidence lookups among the calls [w]. *)
Definition lookups (w : world) : nat :=
  List.length (filter (fun e => match e with EvidenceLookup _ _ => true | _ => false end) w).

(** The reasons given at closure, from the two predicates. *)
Definition reasons_of (cp pr : bool) : list string :=
  ((if cp then [checkpoint_reason] else [])
   ++ (if pr then [probe_reason] else []))%list.

(** The session once a question has been generated. *)
Definition asking (q st : string) (s : session_state) : session_state :=
  set_awaiting_answer true (set_style st (set_question q s)).

(** The question and the answer of the last turn of the subtopic, or the
    empty string when there is none. *)
Definition previous_question (s : session_state) : string :=
  last (map turn_question (history_sub s)) "".

Definition previous_answer (s : session_state) : string :=
  last (map turn_answer (history_sub s)) "".

(** A run from a given session in a given world. *)
Definition run_env (s : session_state) (w : world) : env :=
  {| session := s; log := w; notices := [] |}.


(** What is flagged at closure. *)
Definition flagged_area (sub : string) (cp pr : bool) (history : list Turn)
  : list PoorArea :=
  if cp || pr
  then [{| area_subtopic := sub;
           area_reasons := reasons_of cp pr;
           area_turns := history |}]
  else [].


(** What a run without Start/Restart may do to a session: the topic and the
    subtopics stay, the full history and the poor areas grow at their end,
    by one element at most, the subtopic index stays or goes up by one, and
    a finished session is left alone. *)
Definition grows (s s' : session_state) : Prop :=
  topic s' = topic s
  /\ subtopics s' = subtopics s
  /\ (exists new, full_history s' = (full_history s ++ new)%list
                  /\ List.length new <= 1)
  /\ (exists extra, poor_areas s' = (poor_areas s ++ extra)%list
                    /\ List.length extra <= 1)
  /\ (sub_idx s' = sub_idx s \/ sub_idx s' = sub_idx s + 1)
  /\ (finished s = true -> s' = s).

(** The runs of the scenario that follow its start, and where the scenario
    stands after the first [n] of them. *)
Definition scenario_steps : list inputs :=
  [scenario_inputs false "" false; scenario_inputs false "" true;
   scenario_inputs false "" false; scenario_inputs false "Keys." true].

Definition scenario_after (n : nat) : App.outcome unit * env :=
  fold_left (fun r i => then_run interviewer i r) (firstn n scenario_steps)
            (script_run interviewer (scenario_inputs true "" false) None []).

(** A session whose open subtopic holds an answered turn and then a turn
    without answer: a start with the subtopic "Indexing", a question, the
    answer "A B-tree.", the next question, a blank answer. *)
Definition answered_then_blank : App.outcome unit * env :=
  fold_left (fun r i => then_run terse i r)
            [scenario_inputs false "" false; scenario_inputs false "A B-tree." true;
             scenario_inputs false "" false; scenario_inputs false "" true]
            (script_run terse (scenario_inputs true "" false) None []).

(** [midway] with the request for its pending question in the log. *)
Definition asked_once : env :=
  {| session := midway;
     log := [LlmCall (checkpoint_prompt "Databases" "Indexing" "What is an index?"
                                        "A lookup structure.") (Qmake 2 10)];
     notices := [] |}.

End Cover.

(* ------------------------------------------------------------------ *)
(** * Facts about the string operations *)

Module StrFacts.
Import PyStr Props.

Lemma append_nil_r (s : string) : s ++ "" = s.
Proof. induction s; simpl; congruence. Qed.

Lemma append_assoc (a b c : string) : (a ++ b) ++ c = a ++ (b ++ c).
Proof. induction a; simpl; congruence. Qed.

Lemma length_append (a b : string) :
  String.length (a ++ b) = String.length a + String.length b.
Proof. induction a; simpl; congruence. Qed.

Lemma occurs_char_cons (c d : ascii) (s : string) :
  occurs_char c (String d s) <-> d = c \/ occurs_char c s.
Proof. unfold occurs_char; simpl; tauto. Qed.

Lemma occurs_char_app (c : ascii) (a b : string) :
  occurs_char c (a ++ b) <-> occurs_char c a \/ occurs_char c b.
Proof.
  induction a as [|d a IH]; simpl.
  - unfold occurs_char at 2; simpl; tauto.
  - rewrite !occurs_char_cons, IH; tauto.
Qed.

Lemma occurs_char_dec (c : ascii) (s : string) :
  {occurs_char c s} + {~ occurs_char c s}.
Proof. apply in_dec, ascii_dec. Qed.

(** Two ways of cutting one string: the shorter head is a prefix of the
    longer. *)
Lemma append_eq_split (a b c d : string) :
  a ++ b = c ++ d -> String.length a <= String.length c ->
  exists m, c = a ++ m /\ b = m ++ d.
Proof.
  revert c; induction a as [|x a IH]; intros c H L; simpl in *.
  - exists c; auto.
  - destruct c as [|y c]; simpl in *; [lia|].
    injection H as -> H.
    destruct (IH c H ltac:(lia)) as (m & -> & ->).
    exists m; auto.
Qed.

Lemma append_inv_head (a b c : string) : a ++ b = a ++ c -> b = c.
Proof. induction a; simpl; intros H; [auto | injection H; auto]. Qed.

(** ** [find] and [rfind] *)

Lemma find_absent (c : ascii) (s : string) :
  ~ occurs_char c s -> find c s = (-1)%Z.
Proof.
  induction s as [|d s IH]; simpl; intros H; [reflexivity|].
  rewrite occurs_char_cons in H.
  destruct (Ascii.eqb_spec d c); [tauto|].
  rewrite IH by tauto. reflexivity.
Qed.

Lemma find_first (c : ascii) (a r : string) :
  ~ occurs_char c a ->
  find c (a ++ String c r) = Z.of_nat (String.length a).
Proof.
  induction a as [|d a IH]; intros H.
  - simpl. now rewrite Ascii.eqb_refl.
  - rewrite occurs_char_cons in H.
    cbn [append find String.length].
    destruct (Ascii.eqb_spec d c); [tauto|].
    rewrite IH by tauto.
    destruct (Z.of_nat (String.length a) <? 0)%Z eqn:E.
    + apply Z.ltb_lt in E; lia.
    + lia.
Qed.

Lemma rfind_absent (c : ascii) (s : string) :
  ~ occurs_char c s -> rfind c s = (-1)%Z.
Proof.
  induction s as [|d s IH]; simpl; intros H; [reflexivity|].
  rewrite occurs_char_cons in H.
  rewrite IH by tauto. simpl.
  destruct (Ascii.eqb_spec d c); [tauto|reflexivity].
Qed.

Lemma rfind_last (c : ascii) (b r : string) :
  ~ occurs_char c r ->
  rfind c (b ++ String c r) = Z.of_nat (String.length b).
Proof.
  intros H. induction b as [|d b IH].
  - simpl. rewrite (rfind_absent c r H). simpl. now rewrite Ascii.eqb_refl.
  - cbn [append rfind String.length]. rewrite IH.
    destruct (0 <=? Z.of_nat (String.length b))%Z eqn:E.
    + lia.
    + apply Z.leb_gt in E; lia.
Qed.

Lemma occurs_split_first (c : ascii) (s : string) :
  occurs_char c s ->
  exists a r, s = a ++ String c r /\ ~ occurs_char c a.
Proof.
  induction s as [|d s IH]; intros H.
  - destruct H.
  - destruct (ascii_dec d c) as [->|N].
    + exists "", s. split; [reflexivity | intros []].
    + rewrite occurs_char_cons in H.
      destruct H as [H|H]; [contradiction|].
      destruct (IH H) as (a & r & -> & Ha).
      exists (String d a), r. split; [reflexivity|].
      rewrite occurs_char_cons. tauto.
Qed.

Lemma occurs_split_last (c : ascii) (s : string) :
  occurs_char c s ->
  exists b r, s = b ++ String c r /\ ~ occurs_char c r.
Proof.
  induction s as [|d s IH]; intros H.
  - destruct H.
  - destruct (occurs_char_dec c s) as [Y|N].
    + destruct (IH Y) as (b & r & -> & Hr).
      exists (String d b), r. split; [reflexivity | assumption].
    + rewrite occurs_char_cons in H.
      destruct H as [->|H]; [|contradiction].
      exists "", s. split; [reflexivity | assumption].
Qed.

(** ** [strip] *)

Lemma lstrip_app_nonspace (a r : string) (c : ascii) :
  isspace c = false -> lstrip (a ++ String c r) = lstrip a ++ String c r.
Proof.
  intros H. induction a as [|d a IH]; simpl.
  - now rewrite H.
  - destruct (isspace d); [assumption | reflexivity].
Qed.

Lemma rstrip_app_nonspace (l r : string) (c : ascii) :
  isspace c = false -> rstrip (l ++ String c r) = l ++ String c (rstrip r).
Proof.
  intros H. induction l as [|d l IH].
  - simpl. destruct (rstrip r); [now rewrite H | reflexivity].
  - cbn [append rstrip]. rewrite IH.
    destruct l; reflexivity.
Qed.

Lemma occurs_lstrip (c : ascii) (s : string) :
  occurs_char c (lstrip s) -> occurs_char c s.
Proof.
  induction s as [|d s IH]; simpl; [auto|].
  destruct (isspace d); [|auto].
  intros H. rewrite occurs_char_cons. auto.
Qed.

Lemma occurs_rstrip (c : ascii) (s : string) :
  occurs_char c (rstrip s) -> occurs_char c s.
Proof.
  induction s as [|d s IH]; simpl; [auto|].
  destruct (rstrip s) as [|e t].
  - destruct (isspace d); intros H; [destruct H|].
    rewrite occurs_char_cons in *. destruct H as [H|[]]. auto.
  - intros H. rewrite occurs_char_cons in *. tauto.
Qed.

Lemma occurs_strip (c : ascii) (s : string) :
  occurs_char c (strip s) -> occurs_char c s.
Proof. intros H. now apply occurs_lstrip, occurs_rstrip. Qed.

(** ** Slices *)

Lemma substring_skip (a s : string) (n : nat) :
  substring (String.length a) n (a ++ s) = substring 0 n s.
Proof. induction a; simpl; auto. Qed.

Lemma substring_head (m r : string) :
  substring 0 (String.length m) (m ++ r) = m.
Proof.
  induction m as [|d m IH]; simpl.
  - destruct r; reflexivity.
  - now rewrite IH.
Qed.

Lemma slice_middle (a m r : string) :
  slice (Z.of_nat (String.length a))
        (Z.of_nat (String.length a + String.length m)) (a ++ m ++ r) = m.
Proof.
  unfold slice. rewrite !Nat2Z.id.
  replace (String.length a + String.length m - String.length a)
    with (String.length m) by lia.
  now rewrite substring_skip, substring_head.
Qed.

End StrFacts.

(* ------------------------------------------------------------------ *)
(** * The grading normalizer *)

Module Normalizer.
Import PyStr Py Utils Props StrFacts.

Section WithRuntime.
Variable R : runtime.

Lemma clean_json_no_lbrace (text : string) :
  ~ occurs_char "{" text -> clean_json R text = braces_error.
Proof.
  intros H. unfold clean_json.
  rewrite (find_absent lbrace (strip text)); [reflexivity|].
  intros O. apply H. now apply occurs_strip.
Qed.

Lemma clean_json_no_rbrace (text : string) :
  ~ occurs_char "}" text -> clean_json R text = braces_error.
Proof.
  intros H. unfold clean_json.
  rewrite (rfind_absent rbrace (strip text)).
  - now rewrite orb_true_r.
  - intros O. apply H. now apply occurs_strip.
Qed.

(** The text between the first [{] and the last [}] is what gets parsed. *)
Lemma clean_json_braces (a mid c : string) :
  ~ occurs_char "{" a -> ~ occurs_char "}" c ->
  clean_json R (a ++ "{" ++ mid ++ "}" ++ c)
  = json_loads R (repaired ("{" ++ mid ++ "}")).
Proof.
  intros Ha Hc. unfold clean_json, strip.
  change (a ++ "{" ++ mid ++ "}" ++ c)
    with (a ++ String "{" (mid ++ String "}" c)).
  rewrite lstrip_app_nonspace by reflexivity.
  replace (lstrip a ++ String "{" (mid ++ String "}" c))
    with ((lstrip a ++ String "{" mid) ++ String "}" c)
    by (now rewrite append_assoc).
  rewrite rstrip_app_nonspace by reflexivity.
  rewrite (rfind_last rbrace)
    by (intros O; apply Hc; now apply occurs_rstrip).
  rewrite append_assoc.
  change (String "{" mid ++ String "}" (rstrip c))
    with (String "{" (mid ++ String "}" (rstrip c))).
  rewrite (find_first lbrace)
    by (intros O; apply Ha; now apply occurs_lstrip).
  rewrite length_append. cbn [String.length].
  set (n := String.length (lstrip a)). set (k := String.length mid).
  replace ((Z.of_nat n =? -1)%Z) with false by (symmetry; apply Z.eqb_neq; lia).
  replace ((Z.of_nat (n + S k) =? -1)%Z) with false
    by (symmetry; apply Z.eqb_neq; lia).
  replace ((Z.of_nat (n + S k) <=? Z.of_nat n)%Z) with false
    by (symmetry; apply Z.leb_gt; lia).
  cbn [orb].
  replace (Z.of_nat (n + S k) + 1)%Z
    with (Z.of_nat (n + String.length (String "{" (mid ++ "}"))))
    by (cbn [String.length]; rewrite length_append; cbn [String.length]; lia).
  replace (String "{" (mid ++ String "}" (rstrip c)))
    with (String "{" (mid ++ "}") ++ rstrip c)
    by (cbn [append]; now rewrite append_assoc).
  subst n. rewrite slice_middle. reflexivity.
Qed.

(** The last [}] stands before the first [{]. *)
Lemma clean_json_inverted (text a r b c : string) :
  text = a ++ String "{" r -> ~ occurs_char "{" a ->
  text = b ++ String "}" c -> ~ occurs_char "}" c ->
  String.length b <= String.length a ->
  clean_json R text = braces_error.
Proof.
  intros Ea Ha Eb Hc L.
  assert (E : b ++ String "}" c = a ++ String "{" r) by congruence.
  destruct (append_eq_split _ _ _ _ E L) as (m & Em & Ec).
  destruct m as [|x m]; [discriminate|].
  cbn [append] in Ec. injection Ec as <- Ec. subst a c text.
  unfold clean_json, strip.
  rewrite lstrip_app_nonspace by reflexivity.
  rewrite rstrip_app_nonspace by reflexivity.
  rewrite (lstrip_app_nonspace b m) by reflexivity.
  assert (Hl : ~ occurs_char lbrace (lstrip b ++ String "}" m)).
  { intros O. apply Ha.
    rewrite occurs_char_app in *.
    destruct O as [O|O]; [left; now apply occurs_lstrip | now right]. }
  assert (Hr : ~ occurs_char rbrace (m ++ String "{" (rstrip r))).
  { intros O. apply Hc.
    rewrite occurs_char_app in *. rewrite occurs_char_cons in *.
    destruct O as [O|[O|O]]; [now left | right; now left |].
    right; right. now apply occurs_rstrip. }
  rewrite (find_first lbrace _ _ Hl).
  replace ((lstrip b ++ String "}" m) ++ String "{" (rstrip r))
    with (lstrip b ++ String rbrace (m ++ String "{" (rstrip r)))
    by (now rewrite append_assoc).
  rewrite (rfind_last rbrace _ _ Hr).
  rewrite length_append. cbn [String.length].
  set (n := String.length (lstrip b)). set (k := String.length m).
  replace ((Z.of_nat n <=? Z.of_nat (n + S k))%Z) with true
    by (symmetry; apply Z.leb_le; lia).
  now rewrite !orb_true_r.
Qed.

(** C4. [clean_json] raises a parse error exactly when the text has no
    opening brace, or no closing brace, or its last closing brace does not
    come after its first opening brace, or the text from the first opening
    brace to the last closing brace, once every ",}" has become "}" and then
    every ",]" has become "]", is refused by the JSON reader.  The noisy
    sample reply parses to whatever its tidy form parses to, and a text
    without braces raises the error. *)
Theorem clean_json_parse_error :
  (forall text,
      is_ok (clean_json R text) = false <->
      ~ occurs_char "{" text
      \/ ~ occurs_char "}" text
      \/ (exists a r b c,
             text = a ++ String "{" r /\ ~ occurs_char "{" a /\
             text = b ++ String "}" c /\ ~ occurs_char "}" c /\
             String.length b <= String.length a)
      \/ (exists a mid c,
             text = a ++ "{" ++ mid ++ "}" ++ c /\
             ~ occurs_char "{" a /\ ~ occurs_char "}" c /\
             is_ok (json_loads R (repaired ("{" ++ mid ++ "}"))) = false))
  /\ (forall v, json_loads R tidy_reply = Ok v -> clean_json R noisy_reply = Ok v)
  /\ clean_json R "no json here" = braces_error.
Proof.
  split; [|split].
  - intros text. split.
    + intros E.
      destruct (occurs_char_dec "{" text) as [Ol|]; [|now left].
      destruct (occurs_char_dec "}" text) as [Or|]; [|now right; left].
      right; right.
      destruct (occurs_split_first _ _ Ol) as (a & r & Ea & Ha).
      destruct (occurs_split_last _ _ Or) as (b & c & Eb & Hc).
      destruct (le_lt_dec (String.length b) (String.length a)) as [L|L].
      * left. exists a, r, b, c. auto.
      * right.
        assert (E' : a ++ String "{" r = b ++ String "}" c) by congruence.
        destruct (append_eq_split _ _ _ _ E' ltac:(lia)) as (m & Em & Er).
        destruct m as [|x m].
        { rewrite append_nil_r in Em. subst b. lia. }
        cbn [append] in Er. injection Er as <- Er.
        exists a, m, c. subst r. split; [exact Ea|]. split; [exact Ha|].
        split; [exact Hc|].
        rewrite <- (clean_json_braces a m c Ha Hc).
        cbn [append] in *. now rewrite <- Ea.
    + intros [H|[H|[H|H]]].
      * now rewrite clean_json_no_lbrace.
      * now rewrite clean_json_no_rbrace.
      * destruct H as (a & r & b & c & Ea & Ha & Eb & Hc & L).
        now rewrite (clean_json_inverted text a r b c).
      * destruct H as (a & mid & c & -> & Ha & Hc & E).
        now rewrite clean_json_braces.
  - intros v H.
    change noisy_reply
      with ("noise" ++ "{"
            ++ (dq ++ "correctness" ++ dq ++ ":2," ++ dq ++ "specificity" ++ dq ++ ":1,")
            ++ "}" ++ "noise").
    rewrite clean_json_braces.
    + exact H.
    + unfold occurs_char; simpl. intros O.
      repeat (destruct O as [O|O]; [discriminate|]). exact O.
    + unfold occurs_char; simpl. intros O.
      repeat (destruct O as [O|O]; [discriminate|]). exact O.
  - reflexivity.
Qed.

End WithRuntime.

(** With the JSON reader of [Demo], the noisy sample reply holds correctness
    2 and specificity 1. *)
Lemma clean_json_parse_error_witness :
  clean_json offline noisy_reply
  = Ok (PDict [("correctness", PInt 2); ("specificity", PInt 1)]).
Proof.
  apply (proj1 (proj2 (clean_json_parse_error offline))).
  vm_compute. reflexivity.
Defined.

End Normalizer.

(* ------------------------------------------------------------------ *)
(** * The poor-area predicates *)

Module PoorAreas.
Import PyStr Py Utils Props.

Lemma fold_max_below (l : list Z) (x : Z) :
  (fold_left Z.max l x <? 2)%Z = below2 x && forallb below2 l.
Proof.
  revert x. induction l as [|y l IH]; intros x; simpl.
  - now rewrite andb_true_r.
  - rewrite IH. unfold below2.
    destruct (x <? 2)%Z eqn:Ex, (y <? 2)%Z eqn:Ey;
      destruct (Z.max x y <? 2)%Z eqn:Em; try reflexivity;
      rewrite ?Z.ltb_lt, ?Z.ltb_ge in *; lia.
Qed.

Lemma py_max_below (l : list Z) :
  (py_max l 0 <? 2)%Z = forallb below2 l.
Proof. destruct l as [|x l]; [reflexivity | apply fold_max_below]. Qed.

Lemma is_max_below (m : Z) (l : list Z) :
  is_max m l -> (m < 2)%Z -> forallb below2 l = true.
Proof.
  intros [_ H] L. apply forallb_forall. intros z Hz.
  rewrite Forall_forall in H. specialize (H z Hz).
  apply Z.ltb_lt. lia.
Qed.

Lemma is_max_exists (x : Z) (l : list Z) : exists m, is_max m (x :: l).
Proof.
  revert x. induction l as [|y l IH]; intros x.
  - exists x. split; [now left | constructor; [lia | constructor]].
  - destruct (IH y) as (m & Hin & Hall).
    inversion Hall as [|? ? Hy Hl]; subst.
    destruct (Z_le_gt_dec x m).
    + exists m. split; [now right|]. constructor; [lia|assumption].
    + exists x. split; [now left|]. constructor; [lia|].
      constructor; [lia|]. eapply Forall_impl; [|exact Hl]. simpl; intros; lia.
Qed.

Lemma below_is_max (m : Z) (l : list Z) :
  is_max m l -> forallb below2 l = true -> (m < 2)%Z.
Proof.
  intros [Hin _] H. rewrite forallb_forall in H.
  apply Z.ltb_lt. exact (H m Hin).
Qed.

Section WithRuntime.
Variable R : runtime.

(** The column that the code collects leaves out the turns without scores,
    which hold 0: that does not change whether everything is below 2. *)
Lemma score_column_of_scores (field : string) (history : list Turn) (col : list Z) :
  scores_are R field history col ->
  exists col', score_column R field history = Ok col'
               /\ forallb below2 col' = forallb below2 col.
Proof.
  induction 1 as [|h z history col Hh _ (col' & E & B)].
  - exists []. auto.
  - unfold turn_score in Hh. simpl.
    destruct (truthy (turn_scores h)).
    + destruct (py_get (turn_scores h) field (PInt 0)) as [v|]; [|discriminate].
      simpl in *. rewrite Hh. simpl. rewrite E. simpl.
      exists (z :: col'). simpl. now rewrite B.
    + injection Hh as <-. exists col'. split; [exact E|]. simpl. exact B.
Qed.

Lemma scores_of_score_column (field : string) (history : list Turn) (col' : list Z) :
  score_column R field history = Ok col' ->
  exists col, scores_are R field history col
              /\ forallb below2 col' = forallb below2 col.
Proof.
  revert col'. induction history as [|h history IH]; intros col' E; simpl in E.
  - injection E as <-. exists []. split; [constructor | reflexivity].
  - destruct (truthy (turn_scores h)) eqn:T.
    + destruct (py_get (turn_scores h) field (PInt 0)) as [v|] eqn:G; [|discriminate].
      simpl in E.
      destruct (py_int R v) as [z|] eqn:I; [|discriminate]. simpl in E.
      destruct (score_column R field history) as [rest|]; [|discriminate].
      simpl in E. injection E as <-.
      destruct (IH rest eq_refl) as (col & F & B).
      exists (z :: col). split.
      * constructor; [|exact F]. unfold turn_score. rewrite T, G. exact I.
      * simpl. now rewrite B.
    + destruct (IH col' E) as (col & F & B).
      exists (0%Z :: col). split.
      * constructor; [|exact F]. unfold turn_score. now rewrite T.
      * simpl. exact B.
Qed.

Lemma asked_existsb (st : string) (history : list Turn) :
  existsb (fun h => String.eqb (turn_style h) st) history = true
  <-> asked st history.
Proof.
  rewrite existsb_exists. unfold asked.
  split; intros (h & Hin & E); exists h; split; auto;
    now apply String.eqb_eq.
Qed.

(** Both predicates are one scheme, for a style and a score field. *)
Lemma poor_scheme (st field : string) (history : list Turn) :
  let poor :=
    rbind (score_column R field history)
          (fun col => Ok (existsb (fun h => String.eqb (turn_style h) st) history
                          && (py_max col 0 <? 2)%Z)) in
  (poor = Ok true <->
     asked st history
     /\ exists col m, scores_are R field history col /\ is_max m col /\ (m < 2)%Z)
  /\ (forall col, scores_are R field history col -> exists b, poor = Ok b).
Proof.
  cbv zeta. split; [split|].
  - intros E.
    destruct (score_column R field history) as [col'|] eqn:C; [|discriminate].
    simpl in E. injection E as E. apply andb_prop in E as [A B].
    apply asked_existsb in A. split; [exact A|].
    destruct (scores_of_score_column _ _ _ C) as (col & F & Bq).
    rewrite py_max_below, Bq in B.
    destruct A as (h & Hin & _).
    destruct F as [|h0 z history col Hh F]; [destruct Hin|].
    destruct (is_max_exists z col) as (m & M).
    exists (z :: col), m. split; [now constructor|]. split; [exact M|].
    now apply (below_is_max m (z :: col)).
  - intros (A & col & m & F & M & L).
    destruct (score_column_of_scores _ _ _ F) as (col' & C & B).
    rewrite C. simpl. rewrite py_max_below, B, (is_max_below m col M L).
    apply asked_existsb in A. now rewrite A.
  - intros col F.
    destruct (score_column_of_scores _ _ _ F) as (col' & C & _).
    rewrite C. simpl. eauto.
Qed.

(** C3. [still_poor_after_checkpoint] is true exactly when some turn has the
    style "checkpoint" and the greatest correctness over all turns is below
    2; [still_poor_after_probe] is true exactly when some turn has the style
    "probe" and the greatest specificity over all turns is below 2.  Both
    return whenever every turn has readable scores.  A checkpoint turn and a
    next turn of correctness 1 give true; one checkpoint turn of correctness
    2 gives false. *)
Theorem still_poor_predicates :
  (forall history,
      (still_poor_after_checkpoint R history = Ok true <->
         asked "checkpoint" history
         /\ exists col m, scores_are R "correctness" history col
                          /\ is_max m col /\ (m < 2)%Z)
      /\ (still_poor_after_probe R history = Ok true <->
            asked "probe" history
            /\ exists col m, scores_are R "specificity" history col
                             /\ is_max m col /\ (m < 2)%Z)
      /\ (forall col, scores_are R "correctness" history col ->
                      exists b, still_poor_after_checkpoint R history = Ok b)
      /\ (forall col, scores_are R "specificity" history col ->
                      exists b, still_poor_after_probe R history = Ok b))
  /\ (forall s1 s2,
         still_poor_after_checkpoint R
           [sample_turn "checkpoint" 1 s1; sample_turn "next" 1 s2] = Ok true)
  /\ (forall s1,
         still_poor_after_checkpoint R [sample_turn "checkpoint" 2 s1] = Ok false).
Proof.
  split; [|split; reflexivity].
  intros history.
  pose proof (poor_scheme "checkpoint" "correctness" history) as [C1 C2].
  pose proof (poor_scheme "probe" "specificity" history) as [P1 P2].
  repeat split; try apply C1; try apply P1; auto.
Qed.

End WithRuntime.

(** One checkpoint turn of correctness 1: the scores are readable, so the
    predicate returns. *)
Lemma still_poor_predicates_witness :
  exists b,
    still_poor_after_checkpoint offline [sample_turn "checkpoint" 1 1] = Ok b.
Proof.
  refine (proj1 (proj2 (proj2 (proj1 (still_poor_predicates offline)
                                     [sample_turn "checkpoint" 1 1])))
                [1%Z] _).
  repeat constructor.
Defined.

End PoorAreas.

(* ------------------------------------------------------------------ *)
(** * The question policy *)

Module Policy.
Import PyStr Py Utils App Demo Props.

Section WithRuntime.
Variable R : runtime.

Lemma ask_question_plan (topic subtopic : string) (last_scores : pyval)
      (prev_q prev_a st prompt : string) (w : world) :
  question_plan R topic subtopic last_scores prev_q prev_a = Ok (st, prompt) ->
  ask_question R topic subtopic last_scores prev_q prev_a w = asks R st prompt w.
Proof.
  intros E. unfold ask_question, asks, bind, lift_result, ask_llm, ret.
  rewrite E. simpl.
  destruct (chat_completion R w prompt (Qmake 2 10)); reflexivity.
Qed.

Lemma question_plan_scored (topic subtopic prev_q prev_a : string)
      (kv : string * pyval) (d : list (string * pyval)) (c s : Z) :
  read_score R (kv :: d) "correctness" = Ok c ->
  read_score R (kv :: d) "specificity" = Ok s ->
  question_plan R topic subtopic (PDict (kv :: d)) prev_q prev_a
  = if (c <=? 1)%Z
    then Ok ("checkpoint", checkpoint_prompt topic subtopic prev_q prev_a)
    else if (s <=? 1)%Z
    then Ok ("probe", probe_prompt topic subtopic prev_q prev_a)
    else Ok ("next", next_prompt topic subtopic prev_q prev_a).
Proof.
  unfold read_score, question_plan. intros C S.
  cbn [truthy negb py_get rbind]. rewrite C. cbn [rbind]. rewrite S.
  reflexivity.
Qed.

(** C2, amended.  The style that [ask_question] returns is chosen in this
    order: "seed" when the last scores are absent or an empty mapping;
    otherwise, a missing field counting as 0, "checkpoint" when correctness
    is at most 1, else "probe" when specificity is at most 1, else "next".
    In each case the call makes one request with the prompt of that style
    and returns as soon as the language model replies. *)
Theorem ask_question_style (topic subtopic prev_q prev_a : string) (w : world) :
  (forall last_scores,
      last_scores = PNone \/ last_scores = PDict [] ->
      ask_question R topic subtopic last_scores prev_q prev_a w
      = asks R "seed" (seed_prompt topic subtopic) w)
  /\ (forall kv d c s,
         read_score R (kv :: d) "correctness" = Ok c ->
         read_score R (kv :: d) "specificity" = Ok s ->
         ((c <= 1)%Z ->
          ask_question R topic subtopic (PDict (kv :: d)) prev_q prev_a w
          = asks R "checkpoint" (checkpoint_prompt topic subtopic prev_q prev_a) w)
         /\ ((1 < c)%Z -> (s <= 1)%Z ->
             ask_question R topic subtopic (PDict (kv :: d)) prev_q prev_a w
             = asks R "probe" (probe_prompt topic subtopic prev_q prev_a) w)
         /\ ((1 < c)%Z -> (1 < s)%Z ->
             ask_question R topic subtopic (PDict (kv :: d)) prev_q prev_a w
             = asks R "next" (next_prompt topic subtopic prev_q prev_a) w)).
Proof.
  split.
  - intros last_scores [-> | ->]; now apply ask_question_plan.
  - intros kv d c s C S.
    pose proof (question_plan_scored topic subtopic prev_q prev_a kv d c s C S) as P.
    repeat split; intros; apply ask_question_plan; rewrite P.
    + replace (c <=? 1)%Z with true by (symmetry; apply Z.leb_le; lia).
      reflexivity.
    + replace (c <=? 1)%Z with false by (symmetry; apply Z.leb_gt; lia).
      replace (s <=? 1)%Z with true by (symmetry; apply Z.leb_le; lia).
      reflexivity.
    + replace (c <=? 1)%Z with false by (symmetry; apply Z.leb_gt; lia).
      replace (s <=? 1)%Z with false by (symmetry; apply Z.leb_gt; lia).
      reflexivity.
Qed.

End WithRuntime.

(** Scores of correctness 2 and specificity 1 lead to a probe question. *)
Lemma ask_question_style_witness :
  ask_question examiner "Databases" "Indexing"
    (PDict [("correctness", PInt 2); ("specificity", PInt 1)])
    "What is an index?" "A lookup structure." []
  = (Ok ("What is an index?", "probe"),
     [LlmCall (probe_prompt "Databases" "Indexing" "What is an index?"
                            "A lookup structure.") (Qmake 2 10)]).
Proof.
  refine (eq_trans
            (proj1 (proj2 (proj2 (ask_question_style examiner "Databases" "Indexing"
                      "What is an index?" "A lookup structure." [])
                     ("correctness", PInt 2) [("specificity", PInt 1)] 2%Z 1%Z
                     eq_refl eq_refl)) _ _) _).
  - lia.
  - lia.
  - reflexivity.
Defined.

(** C2 as stated fails: the last scores are present, their correctness reads
    as 0, and yet the style is "seed", not "checkpoint".  Such scores arise
    in a session when the grading reply is the empty object: the question
    after that answer is a seed question again. *)
Lemma empty_scores_get_seed :
  PDict [] <> PNone
  /\ read_score examiner [] "correctness" = Ok 0%Z
  /\ ask_question examiner "Databases" "Indexing" (PDict []) "" "" []
     = (Ok ("What is an index?", "seed"),
        [LlmCall (seed_prompt "Databases" "Indexing") (Qmake 2 10)])
  /\ (let r1 := script_run terse idle (Some fresh) [] in
      let r2 := then_run terse real_submit r1 in
      let r3 := then_run terse idle r2 in
      fst r2 = Halt RerunScript
      /\ last_scores (session (snd r2)) = PDict []
      /\ turns_in_sub (session (snd r2)) = 1
      /\ question (session (snd r3)) = "What is a key?"
      /\ style (session (snd r3)) = "seed").
Proof.
  split; [discriminate|]. split; [reflexivity|]. split; [reflexivity|].
  vm_compute. repeat split.
Qed.

End Policy.

(* ------------------------------------------------------------------ *)
(** * The post-processing of a generated question *)

Module QuestionText.
Import PyStr Py Utils Demo Props StrFacts.

(** ** Replacement *)

Lemma prefix_append (a s : string) :
  prefix a s = true -> exists r, s = a ++ r.
Proof.
  revert s. induction a as [|c a IH]; intros s H.
  - exists s. reflexivity.
  - destruct s as [|d s]; [discriminate|]. simpl in H.
    destruct (ascii_dec c d) as [->|]; [|discriminate].
    destruct (IH s H) as (r & ->). exists r. reflexivity.
Qed.

Lemma occurs_tail (sub s : string) (c : ascii) :
  occurs sub s -> occurs sub (String c s).
Proof. intros (a & b & ->). exists (String c a), b. reflexivity. Qed.

Lemma replace_absent (old new s : string) :
  ~ occurs old s -> replace old new s = s.
Proof.
  unfold replace. induction s as [|c s IH]; intros H; [reflexivity|].
  cbn [replace_from].
  destruct (prefix old (String c s)) eqn:P.
  - exfalso. apply H. destruct (prefix_append _ _ P) as (r & ->).
    exists "", r. reflexivity.
  - rewrite IH; [reflexivity|].
    intros O. apply H. now apply occurs_tail.
Qed.

(** ** The answer label *)

Lemma to_lower_colon (c : ascii) : to_lower c = ":"%char -> c = ":"%char.
Proof.
  destruct c as [[] [] [] [] [] [] [] []]; vm_compute; intros H;
    first [reflexivity | discriminate H].
Qed.

(** The tail of the pattern: [\s*:]. *)
Lemma spaces_colon (prev : option ascii) (s : string) :
  match_here true [AStar CSpace; AOne (CLit ":")] prev s = true
  <-> exists ws tail, s = ws ++ ":" ++ tail /\ all_space ws.
Proof.
  revert prev. induction s as [|c s IH]; intros prev.
  - simpl. split; [discriminate|].
    intros (ws & tail & E & _). destruct ws; discriminate.
  - specialize (IH (Some c)). cbn in IH |- *.
    rewrite andb_true_r. rewrite orb_true_iff, andb_true_iff, IH.
    split.
    + intros [H|[H (ws & tail & -> & A)]].
      * apply Ascii.eqb_eq, to_lower_colon in H. subst c.
        exists "", s. split; [reflexivity|]. intros ? [].
      * exists (String c ws), tail. split; [reflexivity|].
        intros x. rewrite occurs_char_cons. intros [<-|O]; auto.
    + intros (ws & tail & E & A). destruct ws as [|d ws].
      * cbn in E. injection E as -> _. left. reflexivity.
      * cbn in E. injection E as <- ->. right. split.
        -- apply A. rewrite occurs_char_cons. now left.
        -- exists ws, tail. split; [reflexivity|].
           intros x O. apply A. rewrite occurs_char_cons. now right.
Qed.

(** A run of literal characters, as the pattern spells a word. *)
Lemma literals_match (w : string) (p : list atom) (prev : option ascii) (s : string) :
  match_here true (map (fun c => AOne (CLit c)) (list_ascii_of_string w) ++ p) prev s
  = true
  <-> exists word rest,
      s = word ++ rest /\ ci_eq word w
      /\ match_here true p (last_char prev word) rest = true.
Proof.
  revert prev s. induction w as [|x w IH]; intros prev s.
  - cbn [list_ascii_of_string map app]. split.
    + intros H. exists "", s. repeat split; assumption.
    + intros (word & rest & -> & C & H).
      destruct word; [exact H | discriminate C].
  - cbn [list_ascii_of_string map app match_here].
    destruct s as [|c s].
    + split; [discriminate|].
      intros (word & rest & E & C & _).
      destruct word; [discriminate C | discriminate E].
    + rewrite andb_true_iff, IH. cbn [cls_match]. rewrite Ascii.eqb_eq. split.
      * intros (L & word & rest & -> & C & H).
        exists (String c word), rest. repeat split; [|exact H].
        unfold ci_eq in *. cbn. now rewrite L, C.
      * intros (word & rest & E & C & H).
        destruct word as [|d word]; [discriminate C|].
        cbn in E. injection E as <- ->.
        unfold ci_eq in C. cbn in C. injection C as L C.
        split; [exact L|]. exists word, rest. repeat split; assumption.
Qed.

Lemma to_lower_a_word (c : ascii) : to_lower c = "a"%char -> isword c = true.
Proof.
  destruct c as [[] [] [] [] [] [] [] []]; vm_compute; intros H;
    first [reflexivity | discriminate H].
Qed.

(** The pattern matches exactly where an answer label stands. *)
Lemma label_match (prev : option ascii) (s : string) :
  match_here true answer_re prev s = true <-> label_here prev s.
Proof.
  change answer_re
    with (ABoundary
            :: map (fun c => AOne (CLit c)) (list_ascii_of_string "answer")
            ++ [AStar CSpace; AOne (CLit ":")]).
  cbn [match_here]. rewrite andb_true_iff, literals_match. unfold label_here.
  split.
  - intros (B & word & rest & -> & C & H).
    apply spaces_colon in H as (ws & tail & -> & A).
    split.
    + destruct word as [|c word]; [discriminate C|].
      unfold ci_eq in C. cbn in C. injection C as L _.
      cbn in B. rewrite (to_lower_a_word c L) in B.
      now destruct (word_of prev).
    + exists word, ws, tail. auto.
  - intros (B & word & ws & tail & -> & C & A). split.
    + destruct word as [|c word]; [discriminate C|].
      unfold ci_eq in C. cbn in C. injection C as L _.
      cbn. now rewrite (to_lower_a_word c L), B.
    + exists word, (ws ++ ":" ++ tail). repeat split; [exact C|].
      apply spaces_colon. exists ws, tail. auto.
Qed.

(** [split_head] stops at the first answer label, or nowhere. *)
Lemma split_head_cases (prev : option ascii) (t : string) :
  (exists pre rest,
      t = pre ++ rest
      /\ split_head true answer_re prev t = pre
      /\ label_here (last_char prev pre) rest
      /\ forall pre' rest',
          t = pre' ++ rest' -> String.length pre' < String.length pre ->
          ~ label_here (last_char prev pre') rest')
  \/ (split_head true answer_re prev t = t
      /\ forall pre rest, t = pre ++ rest -> ~ label_here (last_char prev pre) rest).
Proof.
  revert prev. induction t as [|c t IH]; intros prev.
  - right. split.
    + cbn [split_head]. now destruct (match_here true answer_re prev "").
    + intros pre rest E. destruct pre; [|discriminate E].
      cbn in E. subst rest. cbn [last_char].
      rewrite <- label_match. cbn. now rewrite andb_false_r.
  - cbn [split_head].
    destruct (match_here true answer_re prev (String c t)) eqn:M.
    + left. exists "", (String c t).
      split; [reflexivity|]. split; [reflexivity|]. split.
      * now apply label_match.
      * cbn. intros; lia.
    + assert (N : ~ label_here prev (String c t))
        by (rewrite <- label_match, M; discriminate).
      destruct (IH (Some c)) as [(pre & rest & E & S & L & Min) | (S & No)].
      * left. exists (String c pre), rest. subst t.
        split; [reflexivity|]. split; [|split].
        -- now rewrite S.
        -- exact L.
        -- intros pre' rest' E' Len.
           destruct pre' as [|d pre'].
           ++ cbn in E'. subst rest'. exact N.
           ++ cbn in E'. injection E' as <- E'. cbn [last_char].
              apply Min; [exact E' | cbn in Len; lia].
      * right. split; [now rewrite S|].
        intros pre rest E. destruct pre as [|d pre].
        -- cbn in E. subst rest. exact N.
        -- cbn in E. injection E as <- E. cbn [last_char]. now apply No.
Qed.

Lemma first_label_computed (t pre : string) :
  split_head true answer_re None t = pre -> pre <> t ->
  label_after t pre
  /\ forall pre', label_after t pre' -> String.length pre <= String.length pre'.
Proof.
  intros E N.
  destruct (split_head_cases None t) as [(p & rest & Et & Ep & L & Min) | (Ep & _)];
    [|congruence].
  rewrite E in Ep. subst p. split.
  - exists rest. split; assumption.
  - intros pre' (rest' & Et' & L').
    destruct (le_lt_dec (String.length pre) (String.length pre')); [assumption|].
    exfalso. exact (Min pre' rest' Et' ltac:(assumption) L').
Qed.

Lemma no_label_computed (t : string) :
  split_head true answer_re None t = t -> forall pre, ~ label_after t pre.
Proof.
  intros E pre (rest & Et & L).
  destruct (split_head_cases None t) as [(p & r & Ep & Es & Lp & _) | (_ & No)].
  - rewrite E in Es. subst p.
    assert (r = "").
    { apply (append_inv_head t). now rewrite append_nil_r. }
    subst r. destruct Lp as (_ & word & ws & tail & Ew & _).
    destruct word; [destruct ws|]; discriminate Ew.
  - exact (No pre rest Et L).
Qed.

(** ** [strip] twice *)

Lemma rstrip_idem (s : string) : rstrip (rstrip s) = rstrip s.
Proof.
  induction s as [|c s IH]; [reflexivity|].
  cbn [rstrip]. destruct (rstrip s) as [|d r] eqn:E.
  - destruct (isspace c) eqn:Sp; [reflexivity|].
    cbn [rstrip]. now rewrite Sp.
  - cbn [rstrip] in *. now rewrite IH.
Qed.

Lemma lstrip_fixed (c : ascii) (s : string) :
  isspace c = false -> lstrip (String c s) = String c s.
Proof. intros H. cbn. now rewrite H. Qed.

Lemma lstrip_head (s : string) :
  lstrip s = "" \/ exists c r, lstrip s = String c r /\ isspace c = false.
Proof.
  induction s as [|c s IH]; [now left|].
  cbn. destruct (isspace c) eqn:E; [exact IH|].
  right. exists c, s. auto.
Qed.

Lemma strip_idem (s : string) : strip (strip s) = strip s.
Proof.
  unfold strip.
  destruct (lstrip_head s) as [-> | (c & r & -> & Sp)]; [reflexivity|].
  assert (H : exists r', rstrip (String c r) = String c r').
  { cbn [rstrip]. destruct (rstrip r); [rewrite Sp|]; eauto. }
  destruct H as (r' & H). rewrite H, lstrip_fixed by exact Sp.
  rewrite <- H. apply rstrip_idem.
Qed.

(** ** The question that [ask_question] returns *)

Lemma question_text_cut (raw : string) :
  question_text raw = strip (split_head true answer_re None (unlabelled raw)).
Proof. reflexivity. Qed.

Section WithRuntime.
Variable R : runtime.

(** C9, amended.  The question that [ask_question] returns is the reply of
    the language model with every occurrence of "Question:" and then every
    occurrence of "QUESTION:" replaced by nothing, wherever it stands,
    trimmed, cut at the first answer label ("answer" in any letter case, not
    preceded by a word character, followed by white space if any and a
    colon) and trimmed again.  Without an answer label the trimmed text is
    returned whole, and a reply without question labels is only trimmed
    before the cut. *)
Theorem question_post_processing
        (topic subtopic : string) (last_scores : pyval) (prev_q prev_a : string)
        (w : world) :
  (forall q st w',
      ask_question R topic subtopic last_scores prev_q prev_a w = (Ok (q, st), w') ->
      exists prompt raw,
        chat_completion R w prompt (Qmake 2 10) = Ok raw /\ q = question_text raw)
  /\ (forall raw pre,
         label_after (unlabelled raw) pre ->
         (forall pre', label_after (unlabelled raw) pre' ->
                       String.length pre <= String.length pre') ->
         question_text raw = strip pre)
  /\ (forall raw,
         (forall pre, ~ label_after (unlabelled raw) pre) ->
         question_text raw = unlabelled raw)
  /\ (forall raw,
         ~ occurs "Question:" raw -> ~ occurs "QUESTION:" raw ->
         unlabelled raw = strip raw).
Proof.
  split; [|split; [|split]].
  - intros q st w'. unfold ask_question, bind, lift_result, ask_llm, ret.
    destruct (question_plan R topic subtopic last_scores prev_q prev_a)
      as [[st0 prompt]|]; [|discriminate].
    cbn [fst snd].
    destruct (chat_completion R w prompt (Qmake 2 10)) as [raw|] eqn:C;
      [|discriminate].
    intros E. injection E as <- _ _. exists prompt, raw. auto.
  - intros raw pre L Min. rewrite question_text_cut.
    destruct (split_head_cases None (unlabelled raw))
      as [(p & rest & Et & S & Lp & Minp) | (_ & No)].
    + rewrite S. f_equal.
      destruct L as (rest' & Et' & L').
      assert (Lp' : label_after (unlabelled raw) p) by (exists rest; split; assumption).
      pose proof (Min p Lp') as Le.
      assert (Ge : String.length p <= String.length pre).
      { destruct (le_lt_dec (String.length p) (String.length pre)); [assumption|].
        exfalso. exact (Minp pre rest' Et' ltac:(assumption) L'). }
      assert (E : p ++ rest = pre ++ rest') by congruence.
      destruct (append_eq_split _ _ _ _ E Ge) as (m & -> & _).
      rewrite length_append in Le.
      destruct m; [now rewrite append_nil_r | cbn in Le; lia].
    + destruct L as (rest' & Et' & L'). destruct (No pre rest' Et' L').
  - intros raw No. rewrite question_text_cut.
    destruct (split_head_cases None (unlabelled raw))
      as [(p & rest & Et & _ & Lp & _) | (S & _)].
    + destruct (No p). exists rest. split; assumption.
    + rewrite S. apply strip_idem.
  - intros raw N1 N2. unfold unlabelled.
    now rewrite (replace_absent "Question:" "" raw N1), replace_absent.
Qed.

End WithRuntime.

(** The labelled reply is cut down to its question. *)
Lemma question_post_processing_witness :
  question_text labelled_reply = "What is an index?".
Proof.
  destruct (first_label_computed (unlabelled labelled_reply) "What is an index? "
              eq_refl ltac:(discriminate)) as [L Min].
  exact (proj1 (proj2 (question_post_processing offline "" "" PNone "" "" []))
               labelled_reply "What is an index? " L Min).
Defined.

(** C9 as stated fails.  A reply that starts with no label, holds no answer
    label and needs no trimming is returned changed: the question label
    inside the sentence is removed.  And a reply in which the letters of
    "Answer:" end a longer word is not cut. *)
Lemma inner_question_label_removed :
  prefix "Question:" inner_label_reply = false
  /\ prefix "QUESTION:" inner_label_reply = false
  /\ (forall pre, ~ label_after inner_label_reply pre)
  /\ strip inner_label_reply = inner_label_reply
  /\ question_text inner_label_reply = "Is the  clear?"
  /\ question_text inner_label_reply <> inner_label_reply
  /\ ask_question (scripted [Ok inner_label_reply] (Ok "")) "Databases" "Indexing"
       PNone "" "" []
     = (Ok ("Is the  clear?", "seed"),
        [LlmCall (seed_prompt "Databases" "Indexing") (Qmake 2 10)])
  /\ occurs "Answer:" glued_label_reply
  /\ question_text glued_label_reply = glued_label_reply.
Proof.
  split; [reflexivity|]. split; [reflexivity|].
  split; [now apply no_label_computed|].
  split; [reflexivity|]. split; [reflexivity|].
  split; [discriminate|]. split; [reflexivity|].
  split; [|reflexivity].
  exists "Is My", " right?". reflexivity.
Qed.

End QuestionText.

(* ------------------------------------------------------------------ *)
(** * Subtopic generation *)

Module Subtopics.
Import PyStr Py Utils Demo Props StrFacts QuestionText.

Lemma Forall_firstn_keep {A} (P : A -> Prop) (n : nat) (l : list A) :
  Forall P l -> Forall P (firstn n l).
Proof.
  revert n. induction l as [|x l IH]; intros [|n] H; cbn; auto.
  inversion H; subst. constructor; auto.
Qed.

Lemma firstn_nonempty {A} (n : nat) (x : A) (l : list A) :
  firstn (S n) (x :: l) <> [].
Proof. discriminate. Qed.

Lemma stripped_nonblank_kept (l : list pyval) (subs : list string) :
  stripped_nonblank l = Ok subs -> Forall nonblank subs.
Proof.
  revert subs. induction l as [|v l IH]; intros subs E; cbn in E.
  - injection E as <-. constructor.
  - destruct (py_strip v) as [t|] eqn:Ev; [|discriminate]. cbn in E.
    destruct (nonempty t) eqn:Ne; [|now apply IH].
    destruct (stripped_nonblank l) as [rest|]; [|discriminate].
    cbn in E. injection E as <-. constructor; [|now apply IH].
    destruct v; try discriminate. cbn in Ev. injection Ev as <-.
    unfold nonblank. now rewrite strip_idem.
Qed.

Section WithRuntime.
Variable R : runtime.

(** What the [try] of [get_subtopics] returns: up to three trimmed subtopics
    that are not blank, or the topic alone. *)
Lemma parse_subtopics_shape (topic raw : string) (l : list string) :
  parse_subtopics R topic raw = Ok l ->
  l = [topic] \/ (l <> [] /\ List.length l <= 3 /\ Forall nonblank l).
Proof.
  unfold parse_subtopics. intros E.
  destruct (clean_json R raw) as [data|]; [|discriminate]. cbn [rbind] in E.
  destruct (py_get data "subtopics" (PList [])) as [field|]; [|discriminate].
  cbn [rbind] in E. destruct (py_iter field) as [items|]; [|discriminate].
  cbn [rbind] in E.
  destruct (stripped_nonblank items) as [subs|] eqn:S; [|discriminate].
  cbn [rbind] in E. injection E as <-.
  destruct subs as [|s subs]; [now left|]. right.
  change (firstn 3 (s :: subs) <> []
          /\ List.length (firstn 3 (s :: subs)) <= 3
          /\ Forall nonblank (firstn 3 (s :: subs))).
  split; [apply firstn_nonempty|]. split; [apply firstn_le_length|].
  apply Forall_firstn_keep. exact (stripped_nonblank_kept _ _ S).
Qed.

(** C10, amended.  Whenever the language model replies, [get_subtopics]
    returns, without raising, a non-empty list of at most 3 strings, each of
    them either the topic itself or a string that is not blank; so every
    string is non-blank when the topic is.  When the body of the [try]
    raises, or finds no subtopic that is not blank, the list is the topic
    alone. *)
Theorem get_subtopics_fallback (topic raw : string) (w : world) :
  chat_completion R w (subtopics_prompt topic) (Qmake 2 10) = Ok raw ->
  exists l,
    get_subtopics R topic w
    = (Ok l, (w ++ [LlmCall (subtopics_prompt topic) (Qmake 2 10)])%list)
    /\ l <> [] /\ List.length l <= 3
    /\ Forall (fun s => s = topic \/ nonblank s) l
    /\ (nonblank topic -> Forall nonblank l)
    /\ (is_ok (parse_subtopics R topic raw) = false -> l = [topic])
    /\ (forall data field items,
           clean_json R raw = Ok data ->
           py_get data "subtopics" (PList []) = Ok field ->
           py_iter field = Ok items ->
           stripped_nonblank items = Ok [] ->
           l = [topic]).
Proof.
  intros C. exists (or_else (parse_subtopics R topic raw) [topic]).
  split.
  { unfold get_subtopics, bind, ask_llm, ret. now rewrite C. }
  destruct (parse_subtopics R topic raw) as [l|e] eqn:P; cbn [or_else is_ok].
  - destruct (parse_subtopics_shape _ _ _ P) as [-> | (Ne & Le & F)].
    + split; [discriminate|]. split; [cbn; lia|].
      split; [constructor; [now left | constructor]|].
      split; [intros N; constructor; [exact N | constructor]|].
      split; [reflexivity|]. reflexivity.
    + split; [exact Ne|]. split; [exact Le|].
      split; [eapply Forall_impl; [|exact F]; cbn; auto|].
      split; [auto|]. split; [discriminate|].
      intros data field items E1 E2 E3 E4.
      unfold parse_subtopics in P. rewrite E1 in P. cbn in P.
      rewrite E2 in P. cbn in P. rewrite E3 in P. cbn in P.
      rewrite E4 in P. cbn in P. now injection P as <-.
  - split; [discriminate|]. split; [cbn; lia|].
    split; [constructor; [now left | constructor]|].
    split; [intros N; constructor; [exact N | constructor]|].
    split; reflexivity.
Qed.

End WithRuntime.

(** Four listed subtopics, one of them blank: the language model of
    [listing] replies, so the list comes back within the bounds. *)
Lemma get_subtopics_fallback_witness :
  exists l,
    get_subtopics listing "Databases" []
    = (Ok l, [LlmCall (subtopics_prompt "Databases") (Qmake 2 10)])
    /\ l <> [] /\ List.length l <= 3
    /\ Forall (fun s => s = "Databases" \/ nonblank s) l
    /\ (nonblank "Databases" -> Forall nonblank l)
    /\ (is_ok (parse_subtopics listing "Databases" four_subtopics_reply) = false
        -> l = ["Databases"])
    /\ (forall data field items,
           clean_json listing four_subtopics_reply = Ok data ->
           py_get data "subtopics" (PList []) = Ok field ->
           py_iter field = Ok items ->
           stripped_nonblank items = Ok [] ->
           l = ["Databases"]).
Proof.
  exact (get_subtopics_fallback listing "Databases" four_subtopics_reply []
           eq_refl).
Defined.

(** C10 as stated fails for a blank topic: the list that comes back holds a
    blank string. *)
Lemma blank_topic_comes_back :
  get_subtopics declining " " []
  = (Ok [" "], [LlmCall (subtopics_prompt " ") (Qmake 2 10)])
  /\ strip " " = ""
  /\ ~ nonblank " ".
Proof. repeat split. discriminate. Qed.

End Subtopics.

(* ------------------------------------------------------------------ *)
(** * The session state machine *)

Module Session.
Import PyStr Py Utils App Demo Props.

Section WithRuntime.
Variable R : runtime.

(** ** Question needed *)

(** A pending question with a non-empty text is kept. *)
Lemma question_needed_kept (sub : string) (e : env) :
  awaiting_answer (session e) = true ->
  question (session e) <> "" ->
  question_needed R sub e = (Next tt, e).
Proof.
  intros A Q. unfold question_needed, sbind, get. cbn.
  rewrite A. destruct (question (session e)); [congruence | reflexivity].
Qed.

(** A question whose text is empty is not pending, whatever the awaiting
    flag says: the step goes on to [ask_question]. *)
Lemma question_needed_empty (sub : string) (e : env) :
  question (session e) = "" ->
  question_needed R sub e
  = match question_plan R (topic (session e)) sub (last_scores (session e))
            (last (map turn_question (history_sub (session e))) "")
            (last (map turn_answer (history_sub (session e))) "") with
    | Ok (st, prompt) =>
        match chat_completion R (log e) prompt (Qmake 2 10) with
        | Ok raw =>
            (Next tt,
             {| session := set_awaiting_answer true
                             (set_style st
                                (set_question (question_text raw) (session e)));
                log := (log e ++ [LlmCall prompt (Qmake 2 10)])%list;
                notices := notices e |})
        | Raise msg =>
            (Halt StopScript,
             {| session := session e;
                log := (log e ++ [LlmCall prompt (Qmake 2 10)])%list;
                notices := (notices e
                            ++ [Error ("Failed to generate question: " ++ msg)])%list |})
        end
    | Raise msg =>
        (Halt StopScript,
         {| session := session e;
            log := log e;
            notices := (notices e
                        ++ [Error ("Failed to generate question: " ++ msg)])%list |})
    end.
Proof.
  intros Q. destruct e as [s w n]. cbn [session log notices] in *.
  unfold question_needed. unfold sbind at 1, get at 1. cbn [session].
  rewrite Q. cbn [nonempty negb orb].
  unfold sbind at 1, try_except, call, ask_question, bind, lift_result, ask_llm, ret.
  cbn [log session notices].
  destruct (question_plan R (topic s) sub (last_scores s)
              (last (map turn_question (history_sub s)) "")
              (last (map turn_answer (history_sub s)) "")) as [[st prompt]|msg].
  - cbn [fst snd]. destruct (chat_completion R w prompt (Qmake 2 10)); reflexivity.
  - reflexivity.
Qed.

(** C7, amended.  While a question with a non-empty text is pending, the
    question-needed step changes nothing: same question, same style, no
    request to the language model.  A pending question whose text is empty
    is generated again, awaiting flag or not: whenever the last scores can be
    read, the style and the prompt are chosen from them as for any question
    and one new request is made to the language model, logged after the
    earlier ones; its reply, post-processed, replaces the question, and the
    style is set anew.  When the request fails, or the last scores cannot be
    read, the run stops with an error and the session as it was. *)
Theorem question_needed_idempotent (sub : string) (e : env) :
  (awaiting_answer (session e) = true ->
   question (session e) <> "" ->
   question_needed R sub e = (Next tt, e))
  /\ (question (session e) = "" ->
      let plan :=
        question_plan R (topic (session e)) sub (last_scores (session e))
          (last (map turn_question (history_sub (session e))) "")
          (last (map turn_answer (history_sub (session e))) "") in
      (forall st prompt raw,
          plan = Ok (st, prompt) ->
          chat_completion R (log e) prompt (Qmake 2 10) = Ok raw ->
          question_needed R sub e
          = (Next tt,
             {| session := set_awaiting_answer true
                             (set_style st
                                (set_question (question_text raw) (session e)));
                log := (log e ++ [LlmCall prompt (Qmake 2 10)])%list;
                notices := notices e |}))
      /\ (forall st prompt msg,
             plan = Ok (st, prompt) ->
             chat_completion R (log e) prompt (Qmake 2 10) = Raise msg ->
             question_needed R sub e
             = (Halt StopScript,
                {| session := session e;
                   log := (log e ++ [LlmCall prompt (Qmake 2 10)])%list;
                   notices := (notices e
                               ++ [Error ("Failed to generate question: "
                                          ++ msg)])%list |}))
      /\ (forall msg,
             plan = Raise msg ->
             question_needed R sub e
             = (Halt StopScript,
                {| session := session e;
                   log := log e;
                   notices := (notices e
                               ++ [Error ("Failed to generate question: "
                                          ++ msg)])%list |}))
      /\ (is_ok plan = true ->
          exists prompt,
            log (snd (question_needed R sub e))
            = (log e ++ [LlmCall prompt (Qmake 2 10)])%list)).
Proof.
  split; [apply question_needed_kept|].
  intros Q. cbn zeta. rewrite (question_needed_empty sub e Q).
  split; [|split; [|split]].
  - intros st prompt raw -> C. now rewrite C.
  - intros st prompt msg -> C. now rewrite C.
  - now intros msg ->.
  - destruct (question_plan R _ _ _ _ _) as [[st prompt]|]; [|discriminate].
    intros _. exists prompt.
    destruct (chat_completion R (log e) prompt (Qmake 2 10)); reflexivity.
Qed.

(** ** Start/Restart *)

(** C8, amended.  Start/Restart first resets the whole session state to the
    initial state for the entered topic.  With a blank topic a warning is
    shown and the run stops in that initial state; when the generation of
    subtopics fails an error is shown and the run ends in that initial
    state, which holds the entered topic and no subtopics. *)
Theorem start_failure (i : inputs) (e : env) :
  start_button i = true ->
  (topic_of i = "" ->
   start R i e
   = (Halt StopScript,
      {| session := init_state i;
         log := log e;
         notices := (notices e ++ [Warning start_hint])%list |}))
  /\ (forall msg,
         topic_of i <> "" -> user_subtopics i = [] ->
         chat_completion R (log e) (subtopics_prompt (topic_of i)) (Qmake 2 10)
         = Raise msg ->
         start R i e
         = (Halt RerunScript,
            {| session := init_state i;
               log := (log e ++ [LlmCall (subtopics_prompt (topic_of i)) (Qmake 2 10)])%list;
               notices := (notices e ++ [Error ("Failed to get subtopics: " ++ msg)])%list |})
         /\ subtopics (init_state i) = []
         /\ topic (init_state i) = topic_of i).
Proof.
  intros B. unfold topic_of. split.
  - intros T. unfold start, sbind, modify, get, notify, st_stop. rewrite B. cbn.
    rewrite T. reflexivity.
  - intros msg T U C. split; [|split; reflexivity].
    unfold start. rewrite B.
    unfold sbind, modify, get, notify, st_rerun, try_except, call,
      get_subtopics, bind, ask_llm, ret.
    assert (N : nonempty (strip (user_topic i)) = true)
      by (destruct (strip (user_topic i)); [congruence | reflexivity]).
    cbn -[subtopics_prompt strip]. rewrite N.
    cbn -[subtopics_prompt strip]. rewrite U.
    cbn -[subtopics_prompt strip]. rewrite C. reflexivity.
Qed.

(** ** Answer submitted *)

Lemma submit_blank (i : inputs) (sub : string) (e : env) :
  nonempty (strip (answer i)) = false ->
  submit R i sub e
  = (Halt RerunScript,
     {| session := recorded (no_answer_turn sub (session e)) zero_scores
                            (session (counted e));
        log := log e;
        notices := notices e |}).
Proof.
  intros B. unfold submit, sbind, modify, get, record_turn, st_rerun.
  cbn -[strip]. rewrite B. reflexivity.
Qed.

(** C5.  An empty or blank answer is recorded as a turn with scores
    correctness 0 and specificity 0 and the evidence (insufficient, no
    answer); the turn counter goes up by one, the awaiting flag is cleared,
    the subtopic stays, and nothing is asked of the language model or of the
    evidence lookup: the log of calls is unchanged. *)
Theorem empty_answer_recorded (i : inputs) (sub : string) (e : env) :
  strip (answer i) = "" ->
  exists e' t,
    submit R i sub e = (Halt RerunScript, e')
    /\ t = {| turn_subtopic := sub;
              turn_style := style (session e);
              turn_question := question (session e);
              turn_answer := "";
              turn_scores := PDict [("correctness", PInt 0); ("specificity", PInt 0)];
              turn_evidence := PDict [("verdict", PStr "insufficient");
                                      ("reason", PStr "no answer")] |}
    /\ history_sub (session e') = (history_sub (session e) ++ [t])%list
    /\ full_history (session e') = (full_history (session e) ++ [t])%list
    /\ last_scores (session e')
       = PDict [("correctness", PInt 0); ("specificity", PInt 0)]
    /\ turns_in_sub (session e') = turns_in_sub (session e) + 1
    /\ awaiting_answer (session e') = false
    /\ sub_idx (session e') = sub_idx (session e)
    /\ finished (session e') = finished (session e)
    /\ poor_areas (session e') = poor_areas (session e)
    /\ log e' = log e.
Proof.
  intros B. eexists. eexists. split.
  - apply submit_blank. now rewrite B.
  - cbn. repeat split; reflexivity.
Qed.

(** Grading never stops the run and leaves the session alone. *)
Lemma grade_returns (ans : string) (e : env) :
  exists result w n,
    grade R ans e = (Next result, {| session := session e; log := w; notices := n |}).
Proof.
  unfold grade, sbind, get, try_except, call, pure_call, notify, sret,
    build_wiki_context, ask_llm.
  cbn -[grading_prompt].
  destruct (wiki_context R (log e) (topic (session e)) (question (session e)))
    as [context|msg]; cbn -[grading_prompt].
  - destruct (chat_completion R _ _ _) as [raw|]; cbn -[grading_prompt]; eauto.
    destruct (clean_json R raw); cbn -[grading_prompt]; eauto.
  - destruct (chat_completion R _ _ _) as [raw|]; cbn -[grading_prompt]; eauto.
    destruct (clean_json R raw); cbn -[grading_prompt]; eauto.
Qed.

(** Closure either raises before it changes anything, or closes the
    subtopic with at most one poor area flagged. *)
Lemma close_subtopic_cases (sub : string) (e : env) :
  (exists msg,
      close_subtopic R sub e = (Halt (Raised msg), e)
      /\ (still_poor_after_checkpoint R (history_sub (session e)) = Raise msg
          \/ still_poor_after_probe R (history_sub (session e)) = Raise msg))
  \/ (exists extra,
         close_subtopic R sub e
         = (Next tt, {| session := closed extra (session e);
                        log := log e;
                        notices := notices e |})
         /\ (extra = []
             \/ exists reasons,
                 extra = [{| area_subtopic := sub;
                             area_reasons := reasons;
                             area_turns := history_sub (session e) |}])).
Proof.
  unfold close_subtopic, sbind, get, pure_call, sret, modify.
  destruct e as [s w n]. cbn [session log notices].
  destruct (still_poor_after_checkpoint R (history_sub s)) as [cp|msg] eqn:C.
  - destruct cp.
    + destruct (still_poor_after_probe R (history_sub s)) as [pr|msg] eqn:P.
      * right. eexists. split; [|right; eexists; reflexivity].
        cbn. unfold closed. cbn.
        destruct (Nat.leb (List.length (subtopics s)) (sub_idx s + 1));
          rewrite ?orb_true_r, ?orb_false_r; reflexivity.
      * left. exists msg. split; [reflexivity | now right].
    + destruct (still_poor_after_probe R (history_sub s)) as [pr|msg] eqn:P.
      * destruct pr.
        -- right. eexists. split; [|right; eexists; reflexivity].
           cbn. unfold closed. cbn.
           destruct (Nat.leb (List.length (subtopics s)) (sub_idx s + 1));
             rewrite ?orb_true_r, ?orb_false_r; reflexivity.
        -- right. exists []. split; [|now left].
           cbn. unfold closed. cbn. rewrite app_nil_r.
           destruct (Nat.leb (List.length (subtopics s)) (sub_idx s + 1));
             rewrite ?orb_true_r, ?orb_false_r; reflexivity.
      * left. exists msg. split; [reflexivity | now right].
  - left. exists msg. split; [reflexivity | now left].
Qed.

(** The path of an answer that is not blank, step by step. *)
Ltac submit_tail R sub :=
  unfold sbind, get, record_turn, modify, notify, sret, st_rerun;
  cbn -[close_subtopic Nat.leb];
  match goal with
  | |- context [Nat.leb 2 ?n] => destruct (Nat.leb 2 n); [|reflexivity]
  end;
  lazymatch goal with
  | |- ?lhs = ?rhs =>
      match lhs with
      | context [close_subtopic R sub ?x] =>
          match rhs with
          | context [close_subtopic R sub ?y] => change x with y
          end
      end
  end;
  match goal with
  | |- context [close_subtopic R sub ?x] =>
      destruct (close_subtopic R sub x) as [[[]|?] ?]; reflexivity
  end.

Lemma submit_answered (i : inputs) (sub : string) (e e1 : env) (result : pyval) :
  nonempty (strip (answer i)) = true ->
  grade R (answer i) (counted e) = (Next result, e1) ->
  submit R i sub e
  = match shown R result with
    | Raise msg => (Halt (Raised msg), e1)
    | Ok ev =>
        let s2 := recorded (graded_turn sub (answer i) result ev (session e1))
                           result (session e1) in
        if Nat.leb 2 (turns_in_sub s2)
        then match close_subtopic R sub
                     {| session := s2; log := log e1;
                        notices := (notices e1 ++ [limit_notice s2])%list |} with
             | (Next _, e3) => (Halt RerunScript, e3)
             | (Halt sg, e3) => (Halt sg, e3)
             end
        else (Halt RerunScript,
              {| session := s2; log := log e1; notices := notices e1 |})
    end.
Proof.
  intros B G. unfold submit.
  unfold sbind at 1. unfold modify at 1. fold (counted e).
  unfold sbind at 1. rewrite B. cbn [negb]. unfold sret at 1.
  unfold sbind at 1. rewrite G.
  unfold shown.
  destruct e1 as [s1 w1 n1].
  destruct (py_get result "correctness" (PInt 0)) as [cv|]; [|reflexivity].
  cbn [rbind]. unfold sbind at 1, pure_call at 1. cbn beta iota.
  destruct (py_int R cv); [|reflexivity].
  cbn [rbind]. unfold sbind at 1, pure_call at 1. cbn beta iota.
  destruct (py_get result "specificity" (PInt 0)) as [sv|]; [|reflexivity].
  cbn [rbind]. unfold sbind at 1, pure_call at 1. cbn beta iota.
  destruct (py_int R sv); [|reflexivity].
  cbn [rbind]. unfold sbind at 1, pure_call at 1. cbn beta iota.
  destruct (py_get result "evidence" (PDict [])) as [ev|]; [|reflexivity].
  cbn [rbind]. unfold sbind at 1, pure_call at 1. cbn beta iota.
  unfold sbind at 1.
  destruct (truthy ev).
  - unfold sbind at 1, pure_call at 1. cbn beta iota.
    destruct (py_get ev "verdict" PNone); [|reflexivity].
    cbn [rbind]. unfold sbind at 1, pure_call at 1. cbn beta iota.
    destruct (py_get ev "reason" PNone); [|reflexivity].
    cbn [rbind]. unfold sret at 1. cbn beta iota. submit_tail R sub.
  - unfold sret at 1. cbn beta iota. submit_tail R sub.
Qed.

(** C6.  When a subtopic closes, the subtopic index goes up by one and the
    fields of the subtopic are reset (turn counter 0, no last scores, empty
    subtopic history, empty question and style); the topic and the
    subtopics stay; the full history and the poor areas only grow, by the
    turn just recorded and by at most one area; and the finished flag is set
    exactly when the new index is beyond the last subtopic. *)
Theorem subtopic_closure (i : inputs) (sub : string) (e e' : env) :
  nonempty (strip (answer i)) = true ->
  2 <= turns_in_sub (session e) + 1 ->
  submit R i sub e = (Halt RerunScript, e') ->
  exists t extra,
    sub_idx (session e') = sub_idx (session e) + 1
    /\ turns_in_sub (session e') = 0
    /\ last_scores (session e') = PNone
    /\ history_sub (session e') = []
    /\ question (session e') = ""
    /\ style (session e') = ""
    /\ awaiting_answer (session e') = false
    /\ topic (session e') = topic (session e)
    /\ subtopics (session e') = subtopics (session e)
    /\ full_history (session e') = (full_history (session e) ++ [t])%list
    /\ turn_answer t = answer i
    /\ poor_areas (session e') = (poor_areas (session e) ++ extra)%list
    /\ List.length extra <= 1
    /\ (forall a, In a extra ->
                  area_subtopic a = sub
                  /\ area_turns a = (history_sub (session e) ++ [t])%list)
    /\ finished (session e')
       = finished (session e)
         || Nat.leb (List.length (subtopics (session e))) (sub_idx (session e) + 1)
    /\ (finished (session e) = false ->
        (finished (session e') = true
         <-> (Z.of_nat (List.length (subtopics (session e))) - 1
              < Z.of_nat (sub_idx (session e) + 1))%Z)).
Proof.
  intros B T H.
  destruct (grade_returns (answer i) (counted e)) as (result & w & n & G).
  rewrite (submit_answered i sub e _ result B G) in H.
  destruct (shown R result) as [ev|]; [|discriminate].
  cbn zeta in H. cbn [session log notices recorded turns_in_sub counted
                      set_turns_in_sub] in H.
  replace (Nat.leb 2 (turns_in_sub (session e) + 1)) with true in H
    by (symmetry; apply Nat.leb_le; lia).
  match type of H with
  | context [close_subtopic R sub ?x] =>
      destruct (close_subtopic_cases sub x) as [(msg & E & _) | (extra & E & X)];
        rewrite E in H; [discriminate|]
  end.
  injection H as <-.
  eexists. exists extra. cbn.
  repeat (split; [reflexivity|]).
  split; [destruct X as [-> | (reasons & ->)]; cbn; lia|].
  split.
  { intros a Ha. destruct X as [-> | (reasons & ->)]; [destruct Ha|].
    destruct Ha as [<- | []]. cbn. auto. }
  split; [reflexivity|].
  intros F. rewrite F. cbn [orb]. rewrite Nat.leb_le. lia.
Qed.

(** C1, amended.  The advancement check runs after every turn recorded for
    an answer that is not blank: the subtopic closes on that turn exactly
    when the counter, incremented, is at least 2, and the run goes on
    whenever the grading result can be displayed and the poor-area
    predicates return.  A turn recorded for a blank answer never closes the
    subtopic, whatever the counter.  In every case the counter is back to 0
    exactly when the subtopic index went up by one; otherwise it went up by
    one itself. *)
Theorem advancement_check (i : inputs) (sub : string) (e : env) :
  (strip (answer i) = "" ->
   exists e',
     submit R i sub e = (Halt RerunScript, e')
     /\ sub_idx (session e') = sub_idx (session e)
     /\ turns_in_sub (session e') = turns_in_sub (session e) + 1)
  /\ (nonempty (strip (answer i)) = true ->
      forall e',
        submit R i sub e = (Halt RerunScript, e') ->
        if Nat.leb 2 (turns_in_sub (session e) + 1)
        then sub_idx (session e') = sub_idx (session e) + 1
             /\ turns_in_sub (session e') = 0
        else sub_idx (session e') = sub_idx (session e)
             /\ turns_in_sub (session e') = turns_in_sub (session e) + 1)
  /\ (nonempty (strip (answer i)) = true ->
      forall result e1 ev,
        grade R (answer i) (counted e) = (Next result, e1) ->
        shown R result = Ok ev ->
        (let history :=
           (history_sub (session e)
            ++ [graded_turn sub (answer i) result ev (session e)])%list in
         is_ok (still_poor_after_checkpoint R history) = true
         /\ is_ok (still_poor_after_probe R history) = true) ->
        exists e', submit R i sub e = (Halt RerunScript, e'))
  /\ (forall o e',
         submit R i sub e = (o, e') ->
         ((turns_in_sub (session e') = 0
           /\ sub_idx (session e') = sub_idx (session e) + 1)
          \/ (turns_in_sub (session e') = turns_in_sub (session e) + 1
              /\ sub_idx (session e') = sub_idx (session e)))
         /\ (turns_in_sub (session e') = 0
             <-> sub_idx (session e') = sub_idx (session e) + 1)).
Proof.
  assert (All : forall o e',
             submit R i sub e = (o, e') ->
             (turns_in_sub (session e') = 0
              /\ sub_idx (session e') = sub_idx (session e) + 1)
             \/ (turns_in_sub (session e') = turns_in_sub (session e) + 1
                 /\ sub_idx (session e') = sub_idx (session e))).
  { intros o e' H.
    destruct (nonempty (strip (answer i))) eqn:B.
    - destruct (grade_returns (answer i) (counted e)) as (result & w & n & G).
      rewrite (submit_answered i sub e _ result B G) in H.
      destruct (shown R result) as [ev|].
      + cbn zeta in H.
        destruct (Nat.leb 2 _) in H.
        * match type of H with
          | context [close_subtopic R sub ?x] =>
              destruct (close_subtopic_cases sub x)
                as [(msg & E & _) | (extra & E & X)];
                rewrite E in H; injection H as <- <-
          end.
          -- right. cbn. auto.
          -- left. cbn. auto.
        * injection H as <- <-. right. cbn. auto.
      + injection H as <- <-. right. cbn. auto.
    - rewrite (submit_blank i sub e B) in H. injection H as <- <-.
      right. cbn. auto. }
  split; [|split; [|split]].
  - intros B. eexists. split; [apply submit_blank; now rewrite B|].
    cbn. auto.
  - intros B e' H.
    destruct (grade_returns (answer i) (counted e)) as (result & w & n & G).
    rewrite (submit_answered i sub e _ result B G) in H.
    destruct (shown R result) as [ev|]; [|discriminate].
    cbn zeta in H.
    cbn [session log notices recorded turns_in_sub counted set_turns_in_sub] in H.
    destruct (Nat.leb 2 (turns_in_sub (session e) + 1)).
    + match type of H with
      | context [close_subtopic R sub ?x] =>
          destruct (close_subtopic_cases sub x)
            as [(msg & E & _) | (extra & E & X)];
            rewrite E in H; [discriminate|]
      end.
      injection H as <-. cbn. auto.
    + injection H as <-. cbn. auto.
  - intros B result e1 ev G S P.
    rewrite (submit_answered i sub e _ result B G), S. cbn zeta.
    destruct (grade_returns (answer i) (counted e)) as (result' & w & n & G').
    rewrite G in G'. injection G' as _ ->.
    cbn [session log notices] in *.
    destruct (Nat.leb 2 _); [|eauto].
    match goal with
    | |- context [close_subtopic R sub ?x] =>
        destruct (close_subtopic_cases sub x)
          as [(msg & E & C) | (extra & E & X)]; rewrite E; [|eauto]
    end.
    exfalso. unfold graded_turn in C, P. cbn in C, P. destruct P as [P1 P2].
    destruct C as [C|C]; [rewrite C in P1 | rewrite C in P2]; discriminate.
  - intros o e' H. split; [exact (All o e' H)|].
    destruct (All o e' H) as [[A B] | [A B]]; rewrite A, B; split; intros; lia.
Qed.

(** ** Whole runs of the script *)

(** A run in which nothing is pressed, or a blank answer is submitted, while
    a question with a non-empty text is pending. *)
Lemma script_run_pending (i : inputs) (s : session_state) (w : world) (sub : string) :
  start_button i = false ->
  finished s = false ->
  nth_error (subtopics s) (sub_idx s) = Some sub ->
  awaiting_answer s = true ->
  question s <> "" ->
  (submitted i = false ->
   script_run R i (Some s) w
   = (Next tt, {| session := s; log := w; notices := [] |}))
  /\ (submitted i = true -> strip (answer i) = "" ->
      script_run R i (Some s) w
      = (Halt RerunScript,
         {| session := recorded (no_answer_turn sub s) zero_scores
                                (set_turns_in_sub (turns_in_sub s + 1) s);
            log := w;
            notices := [] |})).
Proof.
  intros B F N A Q.
  assert (Main : main_flow R i {| session := s; log := w; notices := [] |}
                 = (if submitted i then submit R i sub else sret tt)
                     {| session := s; log := w; notices := [] |}).
  { unfold main_flow. unfold sbind at 1, get at 1. cbn [session]. rewrite F.
    destruct (subtopics s) as [|x l] eqn:E.
    - destruct (sub_idx s); discriminate N.
    - rewrite N. unfold sbind at 1.
      rewrite question_needed_kept by assumption. reflexivity. }
  assert (Run : script_run R i (Some s) w
                = main_flow R i {| session := s; log := w; notices := [] |}).
  { unfold script_run, start. rewrite B. reflexivity. }
  rewrite Run, Main. split.
  - intros ->. reflexivity.
  - intros -> E. rewrite submit_blank by (now rewrite E). reflexivity.
Qed.

End WithRuntime.

(** ** The theorems at work *)

(** A blank answer in the session [midway]. *)
Lemma empty_answer_recorded_witness :
  exists e',
    submit offline blank_submit "Indexing" (env_of midway) = (Halt RerunScript, e')
    /\ last_scores (session e') = zero_scores
    /\ turns_in_sub (session e') = 2
    /\ awaiting_answer (session e') = false
    /\ log e' = [].
Proof.
  destruct (empty_answer_recorded offline blank_submit "Indexing" (env_of midway)
              eq_refl)
    as (e' & t & H & _ & _ & _ & L & T & A & _ & _ & _ & W).
  exists e'. repeat split; assumption.
Defined.

(** The pending question of [midway] stays as it is.  The first reply of
    [leaking] leaves an empty question pending: the step, run again, asks
    for a seed question once more and takes the second reply. *)
Lemma question_needed_idempotent_witness :
  question_needed offline "Indexing" (env_of midway) = (Next tt, env_of midway)
  /\ (let e1 := snd (question_needed leaking "Indexing" (env_of fresh)) in
      awaiting_answer (session e1) = true
      /\ question (session e1) = ""
      /\ question_needed leaking "Indexing" e1
         = (Next tt,
            {| session := set_awaiting_answer true
                            (set_style "seed"
                               (set_question (question_text "What is an index?")
                                             (session e1)));
               log := (log e1 ++ [LlmCall (seed_prompt "Databases" "Indexing")
                                          (Qmake 2 10)])%list;
               notices := notices e1 |})).
Proof.
  split.
  - apply (proj1 (question_needed_idempotent offline "Indexing" (env_of midway))).
    + reflexivity.
    + discriminate.
  - cbn zeta.
    assert (A : awaiting_answer
                  (session (snd (question_needed leaking "Indexing" (env_of fresh))))
                = true) by (vm_compute; reflexivity).
    assert (Q : question
                  (session (snd (question_needed leaking "Indexing" (env_of fresh))))
                = "") by (vm_compute; reflexivity).
    split; [exact A|]. split; [exact Q|].
    refine (proj1 (proj2 (question_needed_idempotent leaking "Indexing"
                            (snd (question_needed leaking "Indexing" (env_of fresh))))
                         Q)
                  "seed" (seed_prompt "Databases" "Indexing") "What is an index?"
                  _ _); vm_compute; reflexivity.
Defined.

(** Start/Restart with a blank topic, and with a language model that cannot
    be reached. *)
Lemma start_failure_witness :
  start offline blank_start (env_of midway)
  = (Halt StopScript,
     {| session := init_state blank_start;
        log := [];
        notices := [Warning start_hint] |})
  /\ start offline good_start (env_of midway)
     = (Halt RerunScript,
        {| session := init_state good_start;
           log := [LlmCall (subtopics_prompt "Databases") (Qmake 2 10)];
           notices := [Error "Failed to get subtopics: connection error"] |}).
Proof.
  split.
  - exact (proj1 (start_failure offline blank_start (env_of midway) eq_refl)
                 eq_refl).
  - refine (proj1 (proj2 (start_failure offline good_start (env_of midway) eq_refl)
                         "connection error" _ eq_refl eq_refl)).
    discriminate.
Defined.

(** The second answer of [midway] closes its subtopic. *)
Lemma subtopic_closure_witness :
  exists e',
    submit grader real_submit "Indexing" (env_of midway) = (Halt RerunScript, e')
    /\ sub_idx (session e') = 1
    /\ turns_in_sub (session e') = 0
    /\ history_sub (session e') = []
    /\ List.length (full_history (session e')) = 2
    /\ finished (session e') = false.
Proof.
  assert (H : submit grader real_submit "Indexing" (env_of midway)
              = (Halt RerunScript,
                 snd (submit grader real_submit "Indexing" (env_of midway))))
    by (vm_compute; reflexivity).
  destruct (subtopic_closure grader real_submit "Indexing" (env_of midway) _
              eq_refl (le_n 2) H)
    as (t & extra & I & T & _ & Hs & _ & _ & _ & _ & _ & F & _ & _ & _ & _ & Fin & _).
  eexists. split; [exact H|].
  split; [exact I|]. split; [exact T|]. split; [exact Hs|].
  split; [rewrite F; reflexivity | exact Fin].
Defined.

(** A blank answer in [midway]: the counter reaches 2 and the subtopic
    stays.  A graded answer in [midway]: the run goes on to the rerun. *)
Lemma advancement_check_witness :
  (exists e',
      submit offline blank_submit "Indexing" (env_of midway) = (Halt RerunScript, e')
      /\ sub_idx (session e') = 0
      /\ turns_in_sub (session e') = 2)
  /\ (exists e',
         submit grader real_submit "Indexing" (env_of midway) = (Halt RerunScript, e')).
Proof.
  split.
  - exact (proj1 (advancement_check offline blank_submit "Indexing" (env_of midway))
                 eq_refl).
  - refine (proj1 (proj2 (proj2 (advancement_check grader real_submit "Indexing"
                                   (env_of midway))))
                  eq_refl
                  (PDict [("correctness", PInt 1); ("specificity", PInt 1)])
                  (snd (grade grader (answer real_submit) (counted (env_of midway))))
                  (PDict []) _ _ _).
    + vm_compute. reflexivity.
    + reflexivity.
    + vm_compute. split; reflexivity.
Defined.

(** ** The end-to-end scenario *)

(** Start with one subtopic; the seed question gets an empty answer, the
    checkpoint question an answer graded 1: the subtopic closes on the second
    turn, is flagged once for correctness, and the session is finished. *)
Lemma end_to_end_scenario :
  let r1 := script_run interviewer (scenario_inputs true "" false) None [] in
  let r2 := then_run interviewer (scenario_inputs false "" false) r1 in
  let r3 := then_run interviewer (scenario_inputs false "" true) r2 in
  let r4 := then_run interviewer (scenario_inputs false "" false) r3 in
  let r5 := then_run interviewer (scenario_inputs false "Keys." true) r4 in
  let r6 := then_run interviewer (scenario_inputs false "" false) r5 in
  fst r1 = Halt RerunScript
  /\ subtopics (session (snd r1)) = ["Indexing"]
  /\ question (session (snd r2)) = "What is an index?"
  /\ style (session (snd r2)) = "seed"
  /\ fst r3 = Halt RerunScript
  /\ last_scores (session (snd r3)) = zero_scores
  /\ turns_in_sub (session (snd r3)) = 1
  /\ sub_idx (session (snd r3)) = 0
  /\ question (session (snd r4)) = "What does an index store?"
  /\ style (session (snd r4)) = "checkpoint"
  /\ fst r5 = Halt RerunScript
  /\ map turn_style (full_history (session (snd r5))) = ["seed"; "checkpoint"]
  /\ map area_reasons (poor_areas (session (snd r5))) = [[checkpoint_reason]]
  /\ sub_idx (session (snd r5)) = 1
  /\ finished (session (snd r5)) = true
  /\ fst r6 = Next tt
  /\ notices (snd r6) = [Success "Interview complete."]
  /\ List.length (log (snd r6)) = 4.
Proof. vm_compute. repeat split. Qed.

(** ** Where the claims fail *)

(** C1 as stated fails.  In [midway] one turn is recorded and a question is
    pending.  A blank answer is submitted: a second turn is recorded, the
    counter is 2, and the subtopic does not close.  The next run asks a new
    question; a second blank answer takes the counter to 3, with the session
    still in its first subtopic. *)
Lemma blank_answers_pass_the_cap :
  let r1 := script_run examiner blank_submit (Some midway) [] in
  let r2 := script_run examiner idle (Some (session (snd r1))) (log (snd r1)) in
  let r3 := script_run examiner blank_submit (Some (session (snd r2))) (log (snd r2)) in
  fst r1 = Halt RerunScript
  /\ List.length (history_sub (session (snd r1))) = 2
  /\ turns_in_sub (session (snd r1)) = 2
  /\ sub_idx (session (snd r1)) = 0
  /\ fst r2 = Next tt
  /\ awaiting_answer (session (snd r2)) = true
  /\ fst r3 = Halt RerunScript
  /\ List.length (history_sub (session (snd r3))) = 3
  /\ turns_in_sub (session (snd r3)) = 3
  /\ sub_idx (session (snd r3)) = 0
  /\ finished (session (snd r3)) = false.
Proof. vm_compute. repeat split. Qed.

(** C7 as stated fails.  The first reply holds no question, so the pending
    question is the empty text; the question-needed step, run again with no
    answer in between, asks the language model a second time and replaces
    the question. *)
Lemma empty_question_asked_again :
  let r1 := question_needed leaking "Indexing" (env_of fresh) in
  let r2 := question_needed leaking "Indexing" (snd r1) in
  fst r1 = Next tt
  /\ awaiting_answer (session (snd r1)) = true
  /\ question (session (snd r1)) = ""
  /\ List.length (log (snd r1)) = 1
  /\ fst r2 = Next tt
  /\ question (session (snd r2)) = "What is an index?"
  /\ List.length (log (snd r2)) = 2.
Proof. vm_compute. repeat split. Qed.

(** C8 as stated fails.  Start/Restart with a blank topic, pressed in the
    middle of a session, stops with a warning and leaves the session wiped:
    no topic, no subtopics, no history.  With a language model that cannot
    be reached the session is wiped as well. *)
Lemma failed_start_wipes_session :
  let r1 := start offline blank_start (env_of midway) in
  let r2 := start offline good_start (env_of midway) in
  start_button blank_start = true
  /\ fst r1 = Halt StopScript
  /\ notices (snd r1) = [Warning start_hint]
  /\ session (snd r1) <> midway
  /\ topic (session (snd r1)) = ""
  /\ full_history (session (snd r1)) = []
  /\ full_history midway <> []
  /\ fst r2 = Halt RerunScript
  /\ session (snd r2) <> midway
  /\ full_history (session (snd r2)) = []
  /\ subtopics (session (snd r2)) = [].
Proof. vm_compute. repeat split; discriminate. Qed.

End Session.

(* ------------------------------------------------------------------ *)
(** * The evidence lookup *)

Module Evidence.
Import PyStr Py Utils Demo Props Wiki Cover StrFacts QuestionText.

(** ** Normal forms *)

Lemma mem_In (x : string) (l : list string) : mem x l = true <-> In x l.
Proof.
  unfold mem. rewrite existsb_exists. split.
  - intros (y & Hy & E). apply String.eqb_eq in E. now subst.
  - intros H. exists x. split; [assumption | apply String.eqb_refl].
Qed.

Lemma lower_length (s : string) : String.length (lower s) = String.length s.
Proof. induction s; simpl; congruence. Qed.

Lemma lower_nonempty (s : string) : nonempty (lower s) = nonempty s.
Proof. destruct s; reflexivity. Qed.

Lemma NoDup_firstn_keep {A} (n : nat) (l : list A) :
  NoDup l -> NoDup (firstn n l).
Proof.
  revert n. induction l as [|x l IH]; intros [|n] H; cbn; try constructor.
  - inversion H; subst. intros I. apply H2.
    clear - I. revert n I. induction l as [|y l IH]; intros [|n] I; cbn in *;
      try contradiction.
    destruct I as [I|I]; [now left | right; eauto].
  - inversion H; subst. auto.
Qed.

Lemma Forall_firstn_kept {A} (P : A -> Prop) (n : nat) (l : list A) :
  Forall P l -> Forall P (firstn n l).
Proof.
  revert n. induction l as [|x l IH]; intros [|n] H; cbn; auto.
  inversion H; subst. constructor; auto.
Qed.

Section WithCollaborators.
Variable R : runtime.
Variable E : encyclopedia.

(** ** [wiki_search] *)

(** X1.  [wiki_search] never raises, whatever the Wikipedia client does: it
    makes one search and then at most two page requests, leaves the language
    model alone, and returns either the empty string or a summary that the
    client gave.  When the search fails or finds no title, no page is
    requested and the result is empty. *)
Theorem wiki_search_never_raises (query : string) (t : trace) :
  exists text pages,
    wiki_search E query t
    = (Got text,
       {| asked_model := asked_model t;
          looked_up := (looked_up t ++ Search query :: map Page pages)%list |})
    /\ List.length pages <= 2
    /\ (text = "" \/ exists t0 title, In title pages /\ wiki_page E t0 title = Got text)
    /\ ((forall title rest, wiki_titles E t query <> Got (title :: rest)) ->
        text = "" /\ pages = []).
Proof.
  unfold wiki_search, guarded, wbind, search, handled, summary, wret.
  destruct (wiki_titles E t query) as [[|title rest]|err] eqn:T.
  - exists "", []. cbn. repeat split; auto.
  - set (t1 := {| asked_model := asked_model t;
                  looked_up := (looked_up t ++ [Search query])%list |}).
    destruct (wiki_page E t1 title) as [text|[[|option options]| |msg]] eqn:P1.
    + exists text, [title]. cbn. rewrite <- app_assoc. cbn.
      split; [reflexivity|]. split; [lia|]. split.
      * right. exists t1, title. split; [now left | exact P1].
      * intros H. destruct (H title rest eq_refl).
    + exists "", [title]. cbn. rewrite <- app_assoc. cbn.
      split; [reflexivity|]. split; [lia|]. split; [now left|].
      intros H. destruct (H title rest eq_refl).
    + set (t2 := {| asked_model := asked_model t1;
                    looked_up := (looked_up t1 ++ [Page title])%list |}).
      destruct (wiki_page E t2 option) as [text|err] eqn:P2.
      * exists text, [title; option]. cbn. rewrite <- !app_assoc. cbn.
        split; [reflexivity|]. split; [lia|]. split.
        -- right. exists t2, option. split; [right; now left | exact P2].
        -- intros H. destruct (H title rest eq_refl).
      * exists "", [title; option]. cbn. rewrite <- !app_assoc. cbn.
        split; [reflexivity|]. split; [lia|]. split; [now left|].
        intros H. destruct (H title rest eq_refl).
    + exists "", [title]. cbn. rewrite <- app_assoc. cbn.
      split; [reflexivity|]. split; [lia|]. split; [now left|].
      intros H. destruct (H title rest eq_refl).
    + exists "", [title]. cbn. rewrite <- app_assoc. cbn.
      split; [reflexivity|]. split; [lia|]. split; [now left|].
      intros H. destruct (H title rest eq_refl).
  - exists "", []. cbn. repeat split; auto.
Qed.

(** ** [suggest_wiki_queries] *)

Lemma strip_trimmed (v : pyval) (q : string) :
  py_strip v = Ok q -> nonempty q = true -> trimmed q.
Proof.
  destruct v; try discriminate. cbn. intros Hq N. injection Hq as <-.
  split; [apply strip_idem|]. intros Z. now rewrite Z in N.
Qed.

(** What the loop keeps: trimmed queries whose normal forms differ from one
    another and from those seen before. *)
Lemma distinct_queries_kept (seen : list string) (items : list pyval)
      (out : list string) :
  distinct_queries seen items = Ok out ->
  Forall trimmed out
  /\ NoDup (map normal_form out)
  /\ Forall (fun q => ~ In (normal_form q) seen) out.
Proof.
  revert seen out. induction items as [|v items IH]; intros seen out H; cbn in H.
  - injection H as <-. repeat constructor.
  - destruct (py_strip (if truthy v then v else PStr "")) as [q|] eqn:Q;
      [|discriminate]. cbn [rbind] in H.
    destruct (nonempty q) eqn:N; cbn [andb] in H; [|now apply IH].
    destruct (mem (normal_form q) seen) eqn:M; cbn [negb] in H; [now apply IH|].
    destruct (distinct_queries (normal_form q :: seen) items) as [rest|] eqn:D;
      [|discriminate].
    cbn [rbind] in H. injection H as <-.
    destruct (IH _ _ D) as (T & U & F).
    split; [constructor; [exact (strip_trimmed _ _ Q N) | exact T]|].
    split.
    + cbn. constructor; [|exact U].
      rewrite in_map_iff. intros (q' & Eq & Hin).
      rewrite Forall_forall in F. apply (F q' Hin). left. now symmetry.
    + constructor.
      * intros I. apply mem_In in I. congruence.
      * eapply Forall_impl; [|exact F]. cbn. intros q' Hq I. apply Hq. now right.
Qed.

Lemma parse_queries_kept (raw : string) (l : list string) :
  parse_queries R raw = Ok l ->
  List.length l <= 2 /\ Forall trimmed l /\ NoDup (map normal_form l).
Proof.
  unfold parse_queries. intros H.
  destruct (clean_json R raw) as [data|]; [|discriminate]. cbn [rbind] in H.
  destruct (py_get data "queries" (PList [])) as [queries|]; [|discriminate].
  cbn [rbind] in H. destruct (py_iter queries) as [items|]; [|discriminate].
  cbn [rbind] in H.
  destruct (distinct_queries [] items) as [out|] eqn:D; [|discriminate].
  assert (El : l = firstn 2 out) by (cbn [rbind] in H; now injection H).
  subst l.
  destruct (distinct_queries_kept _ _ _ D) as (T & U & _).
  split; [apply firstn_le_length|].
  split; [now apply Forall_firstn_kept|].
  rewrite <- firstn_map. now apply NoDup_firstn_keep.
Qed.

(** Two queries with the same letters up to case have the same normal
    form. *)
Lemma lower_lower (s : string) : lower (lower s) = lower s.
Proof.
  induction s as [|c s IH]; [reflexivity|]. cbn. rewrite IH. f_equal.
  destruct c as [[] [] [] [] [] [] [] []]; reflexivity.
Qed.

Lemma normal_form_lower (q : string) : normal_form (lower q) = normal_form q.
Proof. unfold normal_form. now rewrite lower_lower. Qed.

(** X2.  [suggest_wiki_queries] makes one request to the language model and
    raises only when that request does.  When the model replies it returns
    at most 2 queries, each trimmed and not empty, no two of them equal up to
    letter case, runs of white space and trailing full stops; a reply that
    cannot be used gives the empty list. *)
Theorem suggest_wiki_queries_distinct (topic question : string) (w : world) :
  (forall msg,
      chat_completion R w (queries_prompt topic question) (Qmake 2 10) = Raise msg ->
      suggest_wiki_queries R topic question w
      = (Raise msg, (w ++ [LlmCall (queries_prompt topic question) (Qmake 2 10)])%list))
  /\ (forall raw,
         chat_completion R w (queries_prompt topic question) (Qmake 2 10) = Ok raw ->
         exists l,
           suggest_wiki_queries R topic question w
           = (Ok l, (w ++ [LlmCall (queries_prompt topic question) (Qmake 2 10)])%list)
           /\ List.length l <= 2
           /\ Forall trimmed l
           /\ NoDup (map normal_form l)
           /\ NoDup (map lower l)
           /\ (is_ok (parse_queries R raw) = false -> l = [])).
Proof.
  unfold suggest_wiki_queries, bind, ask_llm, ret. split.
  - intros msg C. now rewrite C.
  - intros raw C. rewrite C.
    exists (or_else (parse_queries R raw) []). split; [reflexivity|].
    destruct (parse_queries R raw) as [l|] eqn:P; cbn [or_else is_ok].
    + destruct (parse_queries_kept _ _ P) as (L & T & U).
      repeat (split; [assumption|]). split; [|discriminate].
      clear - U. induction l as [|q l IH]; [constructor|].
      cbn in *. inversion U as [|? ? N U']; subst. constructor; [|auto].
      rewrite in_map_iff. intros (q' & Eq & Hin). apply N.
      rewrite in_map_iff. exists q'. split; [|exact Hin].
      rewrite <- (normal_form_lower q'), Eq. apply normal_form_lower.
    + repeat split; cbn; try constructor. lia.
Qed.

(** ** [build_wiki_context] *)

(** The requests of one search, for the loop below. *)
Lemma wiki_search_requests (query : string) (t : trace) :
  exists text pages,
    wiki_search E query t
    = (Got text,
       {| asked_model := asked_model t;
          looked_up := (looked_up t ++ Search query :: map Page pages)%list |})
    /\ List.length pages <= 2.
Proof.
  unfold wiki_search, guarded, wbind, search, handled, summary, wret.
  destruct (wiki_titles E t query) as [[|title rest]|err];
    [exists "", []; cbn; auto | | exists "", []; cbn; auto].
  match goal with
  | |- context [wiki_page E ?t1 title] =>
      destruct (wiki_page E t1 title) as [text|[[|option options]| |msg]]
  end;
    try (eexists; exists [title]; cbn; rewrite <- app_assoc; cbn;
         split; [reflexivity | lia]).
  match goal with
  | |- context [wiki_page E ?t2 option] =>
      destruct (wiki_page E t2 option) as [text|err]
  end;
    eexists; exists [title; option]; cbn; rewrite <- !app_assoc; cbn;
    (split; [reflexivity | lia]).
Qed.

Lemma searches_app (a b : list lookup) :
  searches (a ++ b) = (searches a ++ searches b)%list.
Proof.
  induction a as [|[q|p] a IH]; cbn; [reflexivity | now rewrite IH | exact IH].
Qed.

Lemma searches_pages (pages : list string) : searches (map Page pages) = [].
Proof. induction pages; cbn; auto. Qed.

(** The loop searches every query of a list of trimmed queries that differ
    up to case from one another and from the keys tried before. *)
Lemma gather_all (queries tried : list string) (t : trace) :
  Forall trimmed queries ->
  NoDup (map lower queries) ->
  Forall (fun q => ~ In (lower q) tried) queries ->
  exists parts new,
    gather E tried queries t
    = (Got parts,
       {| asked_model := asked_model t; looked_up := (looked_up t ++ new)%list |})
    /\ searches new = queries
    /\ List.length new <= 3 * List.length queries
    /\ List.length parts <= List.length queries.
Proof.
  revert tried t. induction queries as [|q queries IH]; intros tried t T U F.
  - exists [], []. cbn. rewrite app_nil_r. destruct t. auto.
  - inversion T as [|? ? [Tq Nq] T']; subst.
    inversion U as [|? ? Uq U']; subst.
    inversion F as [|? ? Fq F']; subst.
    cbn [gather]. rewrite Tq.
    replace (nonempty (lower q)) with true
      by (rewrite lower_nonempty; destruct q; [congruence | reflexivity]).
    destruct (mem (lower q) tried) eqn:M; [apply mem_In in M; contradiction|].
    cbn [negb orb]. unfold wbind.
    destruct (wiki_search_requests q t) as (text & pages & -> & Lp).
    match goal with
    | |- context [gather E (lower q :: tried) queries ?t1] =>
        destruct (IH (lower q :: tried) t1 T' U') as (parts & new & -> & Sn & Ln & Lq)
    end.
    { rewrite Forall_forall in *. intros q' Hq' [Eq|I].
      - apply Uq. rewrite in_map_iff. exists q'. auto.
      - exact (F' q' Hq' I). }
    unfold wret. cbn [asked_model looked_up].
    exists (if nonempty text then text :: parts else parts),
           ((Search q :: map Page pages) ++ new)%list.
    split; [now rewrite <- app_assoc|]. split.
    + rewrite searches_app. cbn. now rewrite searches_pages, Sn.
    + split.
      * rewrite length_app. cbn. rewrite length_map. lia.
      * destruct (nonempty text); cbn; lia.
Qed.

Lemma trimmed_lower_distinct (l : list string) :
  NoDup (map normal_form l) -> NoDup (map lower l).
Proof.
  induction l as [|q l IH]; [constructor|].
  cbn. intros U. inversion U as [|? ? N U']; subst. constructor; [|auto].
  rewrite in_map_iff. intros (q' & Eq & Hin). apply N.
  rewrite in_map_iff. exists q'. split; [|exact Hin].
  rewrite <- (normal_form_lower q'), Eq. apply normal_form_lower.
Qed.

(** Everything about one call, for the two theorems below. *)
Lemma build_wiki_context_shape (topic question raw : string) (t : trace) :
  chat_completion R (asked_model t) (queries_prompt topic question) (Qmake 2 10)
  = Ok raw ->
  exists text new,
    build_wiki_context R E topic question t
    = (Got text,
       {| asked_model :=
            (asked_model t ++ [LlmCall (queries_prompt topic question) (Qmake 2 10)])%list;
          looked_up := (looked_up t ++ new)%list |})
    /\ strip text = text
    /\ searches new = or_else (parse_queries R raw) []
    /\ List.length new <= 6
    /\ (new = [] -> text = "").
Proof.
  intros C.
  unfold build_wiki_context, wbind at 1, model, suggest_wiki_queries, bind,
    ask_llm, ret.
  rewrite C.
  set (qs := or_else (parse_queries R raw) []).
  assert (Q : List.length qs <= 2 /\ Forall trimmed qs /\ NoDup (map lower qs)).
  { subst qs. destruct (parse_queries R raw) as [l|] eqn:P; cbn [or_else].
    - destruct (parse_queries_kept _ _ P) as (L & T & U).
      split; [exact L|]. split; [exact T|]. now apply trimmed_lower_distinct.
    - cbn. repeat constructor. }
  destruct Q as (L & T & U).
  unfold wbind.
  match goal with
  | |- context [gather E [] qs ?t1] =>
      destruct (gather_all qs [] t1 T U) as (parts & new & -> & Sn & Ln & Lp)
  end.
  { rewrite Forall_forall. intros q _ []. }
  unfold wret. cbn [asked_model looked_up].
  exists (strip (String.concat (nl ++ nl) parts)), new.
  split; [reflexivity|]. split; [apply strip_idem|]. split; [exact Sn|].
  split; [lia|].
  intros ->. cbn in Sn. rewrite <- Sn in Lp. cbn in Lp.
  destruct parts; [reflexivity | cbn in Lp; lia].
Qed.

(** X3.  [build_wiki_context] raises only when the request for query
    suggestions does, and then asks Wikipedia nothing.  Otherwise it returns
    a trimmed text after one request to the language model and at most six
    to Wikipedia, at most two of them searches; without any request to
    Wikipedia the text is empty. *)
Theorem build_wiki_context_bounded (topic question : string) (t : trace) :
  (forall msg,
      chat_completion R (asked_model t) (queries_prompt topic question) (Qmake 2 10)
      = Raise msg ->
      build_wiki_context R E topic question t
      = (Failed (OtherError msg),
         {| asked_model :=
              (asked_model t ++ [LlmCall (queries_prompt topic question) (Qmake 2 10)])%list;
            looked_up := looked_up t |}))
  /\ (forall raw,
         chat_completion R (asked_model t) (queries_prompt topic question) (Qmake 2 10)
         = Ok raw ->
         exists text new,
           build_wiki_context R E topic question t
           = (Got text,
              {| asked_model :=
                   (asked_model t
                    ++ [LlmCall (queries_prompt topic question) (Qmake 2 10)])%list;
                 looked_up := (looked_up t ++ new)%list |})
           /\ strip text = text
           /\ List.length new <= 6
           /\ List.length (searches new) <= 2
           /\ (new = [] -> text = "")).
Proof.
  split.
  - intros msg C.
    unfold build_wiki_context, wbind, model, suggest_wiki_queries, bind, ask_llm.
    now rewrite C.
  - intros raw C.
    destruct (build_wiki_context_shape topic question raw t C)
      as (text & new & B & S & Sn & Ln & Em).
    exists text, new. repeat (split; [assumption|]). split; [|exact Em].
    rewrite Sn. destruct (parse_queries R raw) as [l|] eqn:P; cbn; [|lia].
    now destruct (parse_queries_kept _ _ P).
Qed.

(** X4.  [build_wiki_context] searches Wikipedia for exactly the queries
    that [suggest_wiki_queries] returns, each once and in their order: its
    own test for blank or repeated queries never discards one of them. *)
Theorem build_wiki_context_searches_suggestions
        (topic question : string) (t : trace) (l : list string) :
  suggest_wiki_queries R topic question (asked_model t)
  = (Ok l, (asked_model t ++ [LlmCall (queries_prompt topic question) (Qmake 2 10)])%list) ->
  exists text new,
    build_wiki_context R E topic question t
    = (Got text,
       {| asked_model :=
            (asked_model t ++ [LlmCall (queries_prompt topic question) (Qmake 2 10)])%list;
          looked_up := (looked_up t ++ new)%list |})
    /\ searches new = l.
Proof.
  intros S.
  unfold suggest_wiki_queries, bind, ask_llm, ret in S.
  destruct (chat_completion R (asked_model t) (queries_prompt topic question)
                            (Qmake 2 10)) as [raw|] eqn:C; [|discriminate].
  destruct (build_wiki_context_shape topic question raw t C)
    as (text & new & B & _ & Sn & _).
  exists text, new. split; [exact B|]. rewrite Sn. now injection S.
Qed.

End WithCollaborators.

(** A search in [small_wiki] for an ambiguous title: the first option is
    taken. *)
Lemma build_wiki_context_bounded_witness :
  exists text new,
    build_wiki_context repeating small_wiki "Databases" "What is a B-tree?" no_trace
    = (Got text,
       {| asked_model := [LlmCall (queries_prompt "Databases" "What is a B-tree?")
                                  (Qmake 2 10)];
          looked_up := new |})
    /\ strip text = text
    /\ List.length new <= 6
    /\ List.length (searches new) <= 2
    /\ (new = [] -> text = "").
Proof.
  exact (proj2 (build_wiki_context_bounded repeating small_wiki "Databases"
                  "What is a B-tree?" no_trace)
               repeating_reply eq_refl).
Defined.

Lemma build_wiki_context_searches_suggestions_witness :
  exists text new,
    build_wiki_context repeating small_wiki "Databases" "What is a B-tree?" no_trace
    = (Got text,
       {| asked_model := [LlmCall (queries_prompt "Databases" "What is a B-tree?")
                                  (Qmake 2 10)];
          looked_up := new |})
    /\ searches new = ["B-tree"; "mercury"].
Proof.
  exact (build_wiki_context_searches_suggestions repeating small_wiki "Databases"
           "What is a B-tree?" no_trace ["B-tree"; "mercury"] eq_refl).
Defined.

(** A reply with a repeated query among four: the first two distinct ones
    come back. *)
Lemma suggest_wiki_queries_distinct_witness :
  exists l,
    suggest_wiki_queries repeating "Databases" "What is a B-tree?" []
    = (Ok l, [LlmCall (queries_prompt "Databases" "What is a B-tree?") (Qmake 2 10)])
    /\ List.length l <= 2
    /\ Forall trimmed l
    /\ NoDup (map normal_form l)
    /\ NoDup (map lower l)
    /\ (is_ok (parse_queries repeating repeating_reply) = false -> l = []).
Proof.
  exact (proj2 (suggest_wiki_queries_distinct repeating "Databases"
                  "What is a B-tree?" [])
               repeating_reply eq_refl).
Defined.

End Evidence.

(* ------------------------------------------------------------------ *)
(** * More on the texts that come back from the language model *)

Module Replies.
Import PyStr Py Utils Props StrFacts Normalizer QuestionText.

(** ** What the question never holds *)

Lemma last_char_app (prev : option ascii) (a b : string) :
  last_char prev (a ++ b) = last_char (last_char prev a) b.
Proof. revert prev. induction a as [|c a IH]; intros prev; cbn; auto. Qed.

Lemma last_char_cons (p q : option ascii) (c : ascii) (s : string) :
  last_char p (String c s) = last_char q (String c s).
Proof. reflexivity. Qed.

Lemma space_not_word (c : ascii) : isspace c = true -> isword c = false.
Proof.
  destruct c as [[] [] [] [] [] [] [] []]; vm_compute; intros H;
    first [reflexivity | discriminate H].
Qed.

Lemma last_char_spaces (ws : string) :
  all_space ws -> word_of (last_char None ws) = false.
Proof.
  assert (G : forall prev, word_of prev = false -> all_space ws ->
                           word_of (last_char prev ws) = false).
  { induction ws as [|c ws IH]; intros prev P A; [exact P|].
    cbn. apply IH.
    - cbn. apply space_not_word, A. rewrite occurs_char_cons. now left.
    - intros x O. apply A. rewrite occurs_char_cons. now right. }
  now apply G.
Qed.

Lemma lstrip_split (s : string) :
  exists ws, s = ws ++ lstrip s /\ all_space ws.
Proof.
  induction s as [|c s (ws & E & A)].
  - exists "". split; [reflexivity | intros ? []].
  - cbn. destruct (isspace c) eqn:Sp.
    + exists (String c ws). split; [cbn; now rewrite <- E|].
      intros x. rewrite occurs_char_cons. intros [<-|O]; auto.
    + exists "". split; [reflexivity | intros ? []].
Qed.

Lemma rstrip_split (s : string) : exists ws, s = rstrip s ++ ws.
Proof.
  induction s as [|c s (ws & E)].
  - exists "". reflexivity.
  - cbn. destruct (rstrip s) as [|d r].
    + destruct (isspace c).
      * exists (String c s). reflexivity.
      * exists ws. cbn in *. now rewrite <- E.
    + exists ws. cbn in *. now rewrite <- E.
Qed.

Lemma label_here_more (prev : option ascii) (rest more : string) :
  label_here prev rest -> label_here prev (rest ++ more).
Proof.
  intros (B & word & ws & tail & -> & C & A). split; [exact B|].
  exists word, ws, (tail ++ more). split; [|auto].
  now rewrite !append_assoc.
Qed.

Lemma label_here_nonempty (prev : option ascii) (rest : string) :
  label_here prev rest -> rest <> "".
Proof.
  intros (_ & word & ws & tail & -> & _). destruct word; [destruct ws|]; discriminate.
Qed.

(** A label in a prefix of [t] is a label in [t]. *)
Lemma label_after_more (p more pre : string) :
  label_after p pre -> label_after (p ++ more) pre.
Proof.
  intros (rest & -> & L). exists (rest ++ more). split.
  - now rewrite append_assoc.
  - now apply label_here_more.
Qed.

(** A label in [t] with its leading white space gone is a label in [t]. *)
Lemma label_after_spaces (ws p pre : string) :
  all_space ws -> label_after p pre -> label_after (ws ++ p) (ws ++ pre).
Proof.
  intros A (rest & -> & L). exists rest. split; [now rewrite append_assoc|].
  rewrite last_char_app. destruct pre as [|c pre].
  - cbn in *. destruct L as (B & X). split; [|exact X].
    now apply last_char_spaces.
  - exact L.
Qed.

(** X5.  The question that [ask_question] returns is trimmed and holds no
    answer label: whatever the language model wrote from its first answer
    label on is not shown to the candidate. *)
Theorem question_text_hides_answer (raw : string) :
  strip (question_text raw) = question_text raw
  /\ forall pre, ~ label_after (question_text raw) pre.
Proof.
  split; [rewrite question_text_cut; apply strip_idem|].
  rewrite question_text_cut.
  set (t := unlabelled raw). set (p := split_head true answer_re None t).
  assert (Np : forall pre, ~ label_after p pre).
  { destruct (split_head_cases None t) as [(p' & r & Et & Ep & L & Min) | (Ep & No)];
      fold p in Ep.
    - subst p'. intros pre (rest & Epre & Lpre).
      apply (Min pre (rest ++ r)).
      + now rewrite Et, Epre, append_assoc.
      + rewrite Epre, length_append.
        pose proof (label_here_nonempty _ _ Lpre).
        destruct rest; [congruence | cbn; lia].
      + now apply label_here_more.
    - rewrite Ep. intros pre (rest & Epre & Lpre). exact (No pre rest Epre Lpre). }
  intros pre L. unfold strip in L.
  destruct (lstrip_split p) as (ws & Ews & A).
  destruct (rstrip_split (lstrip p)) as (ws' & Ews').
  apply (Np (ws ++ pre)).
  rewrite Ews. apply label_after_spaces; [exact A|].
  rewrite Ews'. now apply label_after_more.
Qed.

(** ** What the JSON reader is given *)

(** Replacing a comma and a character by that character alone keeps the
    last character of a text. *)
Lemma replace_comma_last (y : ascii) (s : string) (prev : option ascii) :
  last_char prev (replace (String "," (String y "")) (String y "") s)
  = last_char prev s.
Proof.
  unfold replace.
  assert (G : forall n s prev, String.length s <= n ->
              last_char prev (replace_from (String "," (String y "")) (String y "") 0 s)
              = last_char prev s).
  { clear s prev. induction n as [|n IH]; intros s prev L.
    - destruct s; [reflexivity | cbn in L; lia].
    - destruct s as [|c s]; [reflexivity|].
      cbn [replace_from].
      destruct (prefix (String "," (String y "")) (String c s)) eqn:P.
      + destruct (prefix_append _ _ P) as (r & Er).
        cbn in Er. injection Er as -> ->.
        cbn. apply IH. cbn in L. lia.
      + cbn [last_char]. apply IH. cbn in L. lia. }
  now apply (G (String.length s)).
Qed.

Lemma replace_comma_head (y c : ascii) (s : string) :
  c <> ","%char ->
  head (replace (String "," (String y "")) (String y "") (String c s)) = Some c.
Proof.
  intros N. unfold replace. cbn [replace_from].
  destruct (prefix (String "," (String y "")) (String c s)) eqn:P; [|reflexivity].
  destruct (prefix_append _ _ P) as (r & Er). cbn in Er. congruence.
Qed.

Lemma head_some (s : string) (c : ascii) :
  head s = Some c -> exists s', s = String c s'.
Proof. destruct s; cbn; intros H; [discriminate|]. injection H as ->. eauto. Qed.

Lemma repaired_braces (mid : string) :
  head (repaired ("{" ++ mid ++ "}")) = Some "{"%char
  /\ last_char None (repaired ("{" ++ mid ++ "}")) = Some "}"%char.
Proof.
  unfold repaired. split.
  - destruct (head_some (replace ",}" "}" ("{" ++ mid ++ "}")) "{") as (s' & ->).
    + apply replace_comma_head. discriminate.
    + apply replace_comma_head. discriminate.
  - rewrite !replace_comma_last. cbn. rewrite last_char_app. reflexivity.
Qed.

Section WithRuntime.
Variable R : runtime.

(** X6.  [clean_json] either fails to find the braces or gives the JSON
    reader a text that begins with an opening brace and ends with a closing
    brace; what comes back from it is what the reader makes of that text. *)
Theorem clean_json_reads_braces (text : string) :
  clean_json R text = braces_error
  \/ exists candidate,
      clean_json R text = json_loads R candidate
      /\ head candidate = Some "{"%char
      /\ last_char None candidate = Some "}"%char.
Proof.
  destruct (occurs_char_dec "{" text) as [Ol|];
    [|left; now apply clean_json_no_lbrace].
  destruct (occurs_char_dec "}" text) as [Or|];
    [|left; now apply clean_json_no_rbrace].
  destruct (occurs_split_first _ _ Ol) as (a & r & Ea & Ha).
  destruct (occurs_split_last _ _ Or) as (b & c & Eb & Hc).
  destruct (le_lt_dec (String.length b) (String.length a)) as [L|L].
  - left. now apply (clean_json_inverted R text a r b c).
  - right.
    assert (E' : a ++ String "{" r = b ++ String "}" c) by congruence.
    destruct (append_eq_split _ _ _ _ E' ltac:(lia)) as (m & Em & Er).
    destruct m as [|x m].
    { rewrite append_nil_r in Em. subst b. lia. }
    cbn [append] in Er. injection Er as <- Er. subst r.
    exists (repaired ("{" ++ m ++ "}")).
    split; [|apply repaired_braces].
    rewrite Ea. apply (clean_json_braces R a m c Ha Hc).
Qed.

End WithRuntime.
End Replies.

(* ------------------------------------------------------------------ *)
(** * The sidebar and the start of an interview *)

Module Sidebar.
Import PyStr Py Utils App Demo Props Cover StrFacts QuestionText Subtopics.

Lemma filter_none {A} (f : A -> bool) (l : list A) :
  List.length (filter f l) = 0 <-> forall x, In x l -> f x = false.
Proof.
  induction l as [|a l IH]; cbn.
  - split; [intros _ x [] | reflexivity].
  - destruct (f a) eqn:Fa; cbn.
    + split; [discriminate|]. intros H. specialize (H a (or_introl eq_refl)).
      congruence.
    + rewrite IH. split.
      * intros H x [<- | Hx]; auto.
      * intros H x Hx. apply H. now right.
Qed.

Lemma filter_all {A} (f : A -> bool) (l : list A) :
  List.length (filter f l) = List.length l <-> forall x, In x l -> f x = true.
Proof.
  induction l as [|a l IH]; cbn.
  - split; [intros _ x [] | reflexivity].
  - pose proof (filter_length_le f l) as Le.
    destruct (f a) eqn:Fa; cbn.
    + split.
      * intros H x [<- | Hx]; [exact Fa|]. apply IH; [lia | exact Hx].
      * intros H. f_equal. apply IH. intros x Hx. apply H. now right.
    + split; [lia|]. intros H. specialize (H a (or_introl eq_refl)). congruence.
Qed.

Lemma filter_id {A} (f : A -> bool) (l : list A) :
  (forall x, In x l -> f x = true) -> filter f l = l.
Proof.
  induction l as [|a l IH]; cbn; intros H; [reflexivity|].
  rewrite (H a (or_introl eq_refl)). f_equal. apply IH. intros x Hx. apply H.
  now right.
Qed.

Lemma nonempty_false (s : string) : nonempty s = false <-> s = "".
Proof. destruct s; cbn; split; congruence. Qed.

Lemma nonempty_true (s : string) : nonempty s = true <-> s <> "".
Proof. destruct s; cbn; split; congruence. Qed.

(** The fields of the sidebar, trimmed. *)
Lemma in_fields (i : inputs) (x : string) :
  In x (map (fun k => strip (subtopic_inputs i k)) (seq 0 (max_subtopics i)))
  <-> exists k, k < max_subtopics i /\ strip (subtopic_inputs i k) = x.
Proof.
  rewrite in_map_iff. split; intros (k & A & B).
  - exists k. apply in_seq in B. split; [lia | exact A].
  - exists k. split; [exact B|]. apply in_seq. lia.
Qed.

Lemma user_subtopics_blank (i : inputs) :
  List.length (user_subtopics i) = 0 <-> all_blank i.
Proof.
  unfold user_subtopics, all_blank. rewrite filter_none. split.
  - intros H k Hk. apply nonempty_false. apply H. apply in_fields. eauto.
  - intros H x Hx. apply in_fields in Hx. destruct Hx as (k & Hk & <-).
    apply nonempty_false. auto.
Qed.

Lemma user_subtopics_filled (i : inputs) :
  List.length (user_subtopics i) = max_subtopics i <-> all_filled i.
Proof.
  unfold user_subtopics, all_filled.
  assert (L : List.length (map (fun k => strip (subtopic_inputs i k))
                               (seq 0 (max_subtopics i)))
              = max_subtopics i) by (now rewrite length_map, length_seq).
  set (fields := map (fun k => strip (subtopic_inputs i k))
                     (seq 0 (max_subtopics i))) in *.
  transitivity (List.length (filter nonempty fields) = List.length fields);
    [now rewrite L|].
  rewrite filter_all. subst fields. split.
  - intros H k Hk. apply nonempty_true. apply H. apply in_fields. eauto.
  - intros H x Hx. apply in_fields in Hx. destruct Hx as (k & Hk & <-).
    apply nonempty_true. auto.
Qed.

Lemma user_subtopics_trimmed (i : inputs) : Forall trimmed (user_subtopics i).
Proof.
  unfold user_subtopics. apply Forall_forall. intros x Hx.
  apply filter_In in Hx. destruct Hx as [Hx N].
  apply in_map_iff in Hx. destruct Hx as (k & <- & _).
  split; [apply strip_idem | now apply nonempty_true].
Qed.

(** X7.  The subtopic fields are valid, and the Start button enabled, exactly
    when every field is blank or every field is filled, white space not
    counting; when all are filled the manual subtopics are the fields in
    their order, trimmed. *)
Theorem valid_subtopics_all_or_none (i : inputs) :
  (valid_subtopics i = true <-> all_blank i \/ all_filled i)
  /\ (all_blank i -> user_subtopics i = [])
  /\ (all_filled i ->
      user_subtopics i
      = map (fun k => strip (subtopic_inputs i k)) (seq 0 (max_subtopics i))).
Proof.
  split; [|split].
  - unfold valid_subtopics. rewrite orb_true_iff, !Nat.eqb_eq.
    now rewrite user_subtopics_blank, user_subtopics_filled.
  - intros B. apply user_subtopics_blank in B.
    now destruct (user_subtopics i).
  - intros F. unfold user_subtopics. apply filter_id. intros x Hx.
    apply in_fields in Hx. destruct Hx as (k & Hk & <-).
    apply nonempty_true. auto.
Qed.

Section WithRuntime.
Variable R : runtime.

Lemma topic_nonempty (i : inputs) :
  topic_of i <> "" -> nonempty (strip (user_topic i)) = true.
Proof. intros T. now apply nonempty_true. Qed.

(** A start with subtopics given by hand. *)
Lemma start_by_hand (i : inputs) (e : env) :
  start_button i = true ->
  topic_of i <> "" ->
  user_subtopics i <> [] ->
  start R i e
  = (Halt RerunScript,
     {| session := set_subtopics (user_subtopics i) (init_state i);
        log := log e;
        notices := notices e |}).
Proof.
  intros B T U. unfold start. rewrite B.
  unfold sbind, modify, get, notify, st_rerun, try_except.
  cbn -[strip]. rewrite (topic_nonempty i T). cbn -[strip].
  destruct (user_subtopics i); [congruence | reflexivity].
Qed.

(** A start with subtopics asked of the language model. *)
Lemma start_generated (i : inputs) (e : env) :
  start_button i = true ->
  topic_of i <> "" ->
  user_subtopics i = [] ->
  start R i e
  = (Halt RerunScript,
     match chat_completion R (log e) (subtopics_prompt (topic_of i)) (Qmake 2 10) with
     | Ok raw =>
         {| session :=
              set_subtopics
                (firstn (max_subtopics i)
                        (or_else (parse_subtopics R (topic_of i) raw) [topic_of i]))
                (init_state i);
            log := (log e ++ [LlmCall (subtopics_prompt (topic_of i)) (Qmake 2 10)])%list;
            notices := notices e |}
     | Raise msg =>
         {| session := init_state i;
            log := (log e ++ [LlmCall (subtopics_prompt (topic_of i)) (Qmake 2 10)])%list;
            notices := (notices e ++ [Error ("Failed to get subtopics: " ++ msg)])%list |}
     end).
Proof.
  intros B T U. unfold start. rewrite B.
  unfold sbind, modify, get, notify, st_rerun, try_except, call,
    get_subtopics, bind, ask_llm, ret, topic_of.
  cbn -[subtopics_prompt strip parse_subtopics firstn].
  rewrite (topic_nonempty i T). cbn -[subtopics_prompt strip parse_subtopics firstn].
  rewrite U. cbn -[subtopics_prompt strip parse_subtopics firstn].
  destruct (chat_completion R (log e) _ _); reflexivity.
Qed.

(** X8.  A start with every subtopic field filled takes the fields, trimmed,
    as the subtopics of a fresh session: there are exactly as many as the
    slider says, and the language model is not asked. *)
Theorem start_manual (i : inputs) (e : env) :
  start_button i = true ->
  topic_of i <> "" ->
  user_subtopics i <> [] ->
  start R i e
  = (Halt RerunScript,
     {| session := set_subtopics (user_subtopics i) (init_state i);
        log := log e;
        notices := notices e |})
  /\ List.length (user_subtopics i) = max_subtopics i
  /\ Forall trimmed (user_subtopics i).
Proof.
  intros B T U. split; [now apply start_by_hand|].
  split; [|apply user_subtopics_trimmed].
  unfold start_button in B. apply andb_true_iff in B. destruct B as [_ V].
  unfold valid_subtopics in V. apply orb_true_iff in V.
  rewrite !Nat.eqb_eq in V. destruct V as [V | V]; [|exact V].
  destruct (user_subtopics i); [congruence | discriminate].
Qed.

(** X9.  A start with every subtopic field blank asks the language model
    once.  When it replies the session starts with at least one subtopic (the
    slider being at 1 or more) and at most as many as the slider says, never
    more than 3, each of them trimmed and not empty; no error is shown. *)
Theorem start_autogenerated (i : inputs) (e : env) (raw : string) :
  start_button i = true ->
  topic_of i <> "" ->
  user_subtopics i = [] ->
  1 <= max_subtopics i ->
  chat_completion R (log e) (subtopics_prompt (topic_of i)) (Qmake 2 10) = Ok raw ->
  exists subs,
    start R i e
    = (Halt RerunScript,
       {| session := set_subtopics subs (init_state i);
          log := (log e ++ [LlmCall (subtopics_prompt (topic_of i)) (Qmake 2 10)])%list;
          notices := notices e |})
    /\ subs <> []
    /\ List.length subs <= Nat.min 3 (max_subtopics i)
    /\ Forall trimmed subs.
Proof.
  intros B T U M C. rewrite (start_generated i e B T U), C.
  eexists. split; [reflexivity|].
  assert (Tt : trimmed (topic_of i)) by (split; [apply strip_idem | exact T]).
  assert (S : let l := or_else (parse_subtopics R (topic_of i) raw) [topic_of i] in
              l <> [] /\ List.length l <= 3 /\ Forall trimmed l).
  { cbn zeta. destruct (parse_subtopics R (topic_of i) raw) as [l|] eqn:P; cbn [or_else].
    - unfold parse_subtopics in P.
      destruct (clean_json R raw) as [data|]; [|discriminate]. cbn [rbind] in P.
      destruct (py_get data "subtopics" (PList [])) as [field|]; [|discriminate].
      cbn [rbind] in P. destruct (py_iter field) as [items|]; [|discriminate].
      cbn [rbind] in P.
      destruct (stripped_nonblank items) as [subs|] eqn:S; [|discriminate].
      cbn [rbind] in P.
      assert (K : Forall trimmed subs).
      { clear P. revert subs S. induction items as [|v items IH]; intros subs S; cbn in S.
        - injection S as <-. constructor.
        - destruct (py_strip v) as [t|] eqn:Ev; [|discriminate]. cbn in S.
          destruct (nonempty t) eqn:Ne; [|now apply IH].
          destruct (stripped_nonblank items) as [rest|]; [|discriminate].
          cbn in S. injection S as <-. constructor; [|now apply IH].
          destruct v; try discriminate. cbn in Ev. injection Ev as <-.
          split; [apply strip_idem | now apply nonempty_true]. }
      destruct subs as [|s subs].
      + injection P as <-. split; [discriminate|]. split; [cbn; lia|].
        constructor; [exact Tt | constructor].
      + assert (El : l = firstn 3 (s :: subs)) by (now injection P).
        rewrite El. split; [discriminate|]. split; [apply firstn_le_length|].
        now apply Forall_firstn_keep.
    - split; [discriminate|]. split; [cbn; lia|].
      constructor; [exact Tt | constructor]. }
  cbn zeta in S. destruct S as (N & L & F).
  split; [|split].
  - destruct (or_else _ _) as [|x l]; [congruence|].
    destruct (max_subtopics i); [lia | discriminate].
  - rewrite length_firstn. lia.
  - now apply Forall_firstn_keep.
Qed.

End WithRuntime.

(** The three fields of [manual_start]. *)
Lemma start_manual_witness :
  start offline manual_start (env_of midway)
  = (Halt RerunScript,
     {| session := set_subtopics ["Indexing"; "Transactions"; "Joins"]
                                 (init_state manual_start);
        log := [];
        notices := [] |})
  /\ List.length (user_subtopics manual_start) = 3
  /\ Forall trimmed (user_subtopics manual_start).
Proof.
  refine (start_manual offline manual_start (env_of midway) eq_refl _ _);
    discriminate.
Defined.

(** The reply [four_subtopics_reply] with the slider at 2. *)
Lemma start_autogenerated_witness :
  exists subs,
    start listing good_start (env_of midway)
    = (Halt RerunScript,
       {| session := set_subtopics subs (init_state good_start);
          log := [LlmCall (subtopics_prompt "Databases") (Qmake 2 10)];
          notices := [] |})
    /\ subs <> []
    /\ List.length subs <= 2
    /\ Forall trimmed subs.
Proof.
  refine (start_autogenerated listing good_start (env_of midway)
            four_subtopics_reply eq_refl _ eq_refl _ eq_refl).
  - discriminate.
  - cbn. lia.
Defined.

End Sidebar.

(* ------------------------------------------------------------------ *)
(** * The interview, run after run *)

Module Interview.
Import PyStr Py Utils App Demo Props Report Cover StrFacts Policy Session Sidebar.

Section WithRuntime.
Variable R : runtime.

(** ** Question needed *)

Lemma question_needed_pending (sub : string) (e : env) :
  nonempty (question (session e)) && awaiting_answer (session e) = true ->
  question_needed R sub e = (Next tt, e).
Proof.
  intros Q. apply andb_true_iff in Q. destruct Q as [Q A].
  unfold question_needed, sbind, get. cbn. rewrite Q, A. reflexivity.
Qed.

(** The step when a question has to be generated. *)
Lemma question_needed_generates (sub : string) (e : env) :
  nonempty (question (session e)) && awaiting_answer (session e) = false ->
  question_needed R sub e
  = let s := session e in
    match question_plan R (topic s) sub (last_scores s)
                        (previous_question s) (previous_answer s) with
    | Raise msg =>
        (Halt StopScript,
         {| session := s; log := log e;
            notices := (notices e
                        ++ [Error ("Failed to generate question: " ++ msg)])%list |})
    | Ok (st, prompt) =>
        match chat_completion R (log e) prompt (Qmake 2 10) with
        | Ok raw =>
            (Next tt,
             {| session := asking (question_text raw) st s;
                log := (log e ++ [LlmCall prompt (Qmake 2 10)])%list;
                notices := notices e |})
        | Raise msg =>
            (Halt StopScript,
             {| session := s;
                log := (log e ++ [LlmCall prompt (Qmake 2 10)])%list;
                notices := (notices e
                            ++ [Error ("Failed to generate question: " ++ msg)])%list |})
        end
    end.
Proof.
  intros G. destruct e as [s w n]. cbn [session log notices] in *.
  unfold question_needed. unfold sbind at 1, get at 1. cbn [session].
  replace (negb (nonempty (question s)) || negb (awaiting_answer s)) with true
    by (destruct (nonempty (question s)), (awaiting_answer s); cbn in *; congruence).
  unfold sbind at 1, try_except, call, ask_question, bind, lift_result, ask_llm, ret.
  cbn [log session notices]. fold (previous_question s) (previous_answer s).
  destruct (question_plan R (topic s) sub (last_scores s) (previous_question s)
                          (previous_answer s)) as [[st prompt]|msg].
  - cbn [fst snd]. destruct (chat_completion R w prompt (Qmake 2 10)); reflexivity.
  - reflexivity.
Qed.

(** The step changes the question, the style and the awaiting flag only. *)
Lemma question_needed_core (sub : string) (e : env) (o : App.outcome unit) (e' : env) :
  question_needed R sub e = (o, e') ->
  core (session e') = core (session e)
  /\ topic (session e') = topic (session e)
  /\ (o = Next tt \/ o = Halt StopScript)
  /\ (log e' = log e
      \/ exists prompt, log e' = (log e ++ [LlmCall prompt (Qmake 2 10)])%list).
Proof.
  intros H.
  destruct (nonempty (question (session e)) && awaiting_answer (session e)) eqn:G.
  - rewrite (question_needed_pending sub e G) in H. injection H as <- <-. auto.
  - rewrite (question_needed_generates sub e G) in H. cbn zeta in H.
    destruct (question_plan R _ _ _ _ _) as [[st prompt]|msg].
    + destruct (chat_completion R (log e) prompt (Qmake 2 10));
        injection H as <- <-; cbn;
        (split; [reflexivity|]; split; [reflexivity|]; split; [auto|]; right;
         eexists; reflexivity).
    + injection H as <- <-. cbn. auto.
Qed.

(** X10.  When no question can be generated, because the scores of the last
    turn cannot be read or because the language model fails, the run stops
    and never crashes: the session is as it was, one error is shown, and at
    most one request was made. *)
Theorem question_generation_failure (sub : string) (e : env) (sg : signal) (e' : env) :
  question_needed R sub e = (Halt sg, e') ->
  sg = StopScript
  /\ session e' = session e
  /\ (exists msg,
         notices e' = (notices e ++ [Error ("Failed to generate question: " ++ msg)])%list)
  /\ (log e' = log e
      \/ exists prompt, log e' = (log e ++ [LlmCall prompt (Qmake 2 10)])%list).
Proof.
  intros H.
  destruct (nonempty (question (session e)) && awaiting_answer (session e)) eqn:G.
  - rewrite (question_needed_pending sub e G) in H. discriminate.
  - rewrite (question_needed_generates sub e G) in H. cbn zeta in H.
    destruct (question_plan R _ _ _ _ _) as [[st prompt]|msg].
    + destruct (chat_completion R (log e) prompt (Qmake 2 10)); [discriminate|].
      injection H as <- <-. cbn. eauto 8.
    + injection H as <- <-. cbn. eauto 8.
Qed.

(** ** Grading *)

Lemma grade_closed_form (ans : string) (e : env) :
  grade R ans e
  = let s := session e in
    let found := wiki_context R (log e) (topic s) (question s) in
    let prompt := grading_prompt (topic s) (question s) (or_else found "") ans in
    (Next (or_else
             (rbind (chat_completion R
                       (log e ++ [EvidenceLookup (topic s) (question s)])%list
                       prompt (Qmake 0 1))
                    (clean_json R))
             unparsed_result),
     {| session := s;
        log := (log e ++ [EvidenceLookup (topic s) (question s);
                          LlmCall prompt (Qmake 0 1)])%list;
        notices := (notices e
                    ++ match found with
                       | Ok _ => []
                       | Raise msg => [Warning ("Wikipedia context unavailable: " ++ msg)]
                       end)%list |}).
Proof.
  destruct e as [s w n].
  unfold grade, sbind, get, try_except, call, pure_call, notify, sret,
    build_wiki_context, ask_llm.
  cbn -[grading_prompt clean_json].
  destruct (wiki_context R w (topic s) (question s)) as [context|msg];
    cbn -[grading_prompt clean_json]; rewrite <- ?app_assoc, ?app_nil_r;
    cbn -[grading_prompt clean_json].
  - destruct (chat_completion R _ _ _) as [raw|]; cbn -[grading_prompt clean_json];
      [|reflexivity].
    destruct (clean_json R raw); reflexivity.
  - destruct (chat_completion R _ _ _) as [raw|]; cbn -[grading_prompt clean_json];
      [|reflexivity].
    destruct (clean_json R raw); reflexivity.
Qed.


(** ** Closure *)

Lemma score_column_readable (field : string) (history : list Turn) :
  Forall (fun t => is_ok (turn_score R field t) = true) history ->
  is_ok (score_column R field history) = true.
Proof.
  induction 1 as [|h history Hh _ IH]; [reflexivity|].
  unfold turn_score in Hh. cbn [score_column].
  destruct (truthy (turn_scores h)); [|exact IH].
  destruct (py_get (turn_scores h) field (PInt 0)) as [v|]; [|discriminate].
  cbn [rbind] in *. destruct (py_int R v); [|discriminate]. cbn [rbind].
  destruct (score_column R field history); [reflexivity | discriminate].
Qed.

(** Both predicates return on a history whose scores can be read. *)
Lemma poor_defined (history : list Turn) :
  Forall (readable_turn R) history ->
  exists cp pr,
    still_poor_after_checkpoint R history = Ok cp
    /\ still_poor_after_probe R history = Ok pr.
Proof.
  intros H.
  assert (C : is_ok (score_column R "correctness" history) = true).
  { apply score_column_readable. eapply Forall_impl; [|exact H]. now intros t []. }
  assert (S : is_ok (score_column R "specificity" history) = true).
  { apply score_column_readable. eapply Forall_impl; [|exact H]. now intros t []. }
  unfold still_poor_after_checkpoint, still_poor_after_probe.
  destruct (score_column R "correctness" history); [|discriminate].
  destruct (score_column R "specificity" history); [|discriminate].
  cbn [rbind]. eauto.
Qed.

Lemma close_subtopic_flags (sub : string) (e : env) (cp pr : bool) :
  still_poor_after_checkpoint R (history_sub (session e)) = Ok cp ->
  still_poor_after_probe R (history_sub (session e)) = Ok pr ->
  close_subtopic R sub e
  = (Next tt,
     {| session := closed (flagged_area sub cp pr (history_sub (session e)))
                          (session e);
        log := log e;
        notices := notices e |}).
Proof.
  intros C P. unfold close_subtopic, sbind, get, pure_call, sret, modify.
  destruct e as [s w n]. cbn [session log notices] in *. rewrite C, P.
  unfold flagged_area, reasons_of.
  destruct cp, pr; cbn; unfold closed; cbn; rewrite ?app_nil_r;
    destruct (Nat.leb (List.length (subtopics s)) (sub_idx s + 1));
    rewrite ?orb_true_r, ?orb_false_r; reflexivity.
Qed.


(** ** The invariants, step by step *)

Lemma sane_core (s s' : session_state) : core s = core s' -> sane R s -> sane R s'.
Proof.
  unfold core. intros E. injection E as E1 E2 E3 E4 E5 E6 E7.
  unfold sane, in_range, coherent, sound_areas, sound_area, readable,
    well_recorded.
  rewrite E1, E2, E3, E4, E5, E6, E7. auto.
Qed.

Lemma sane_subtopics (l : list string) (i : inputs) :
  sane R (set_subtopics l (init_state i)).
Proof.
  split; [|split; [|split; [|split]]].
  - unfold in_range. cbn. destruct l; cbn; [now left | right; lia].
  - split; [|split]; cbn; auto. exists []. reflexivity.
  - split; cbn; auto.
  - constructor.
  - constructor.
Qed.

Lemma sane_init (i : inputs) : sane R (init_state i).
Proof. exact (sane_subtopics [] i). Qed.

Lemma segment_more (part whole more : list Turn) :
  segment part whole -> segment part (whole ++ more).
Proof.
  intros (a & b & ->). exists a, (b ++ more)%list. now rewrite <- !app_assoc.
Qed.

Lemma sane_counted (s : session_state) :
  sane R s -> sane R (set_turns_in_sub (turns_in_sub s + 1) s).
Proof.
  intros (A & (B1 & B2 & B3) & C & D & W).
  split; [exact A|]. split; [|split; [exact C | split; [exact D | exact W]]].
  split; [exact B1|]. split; [cbn; lia | exact B3].
Qed.

Lemma sane_recorded (s : session_state) (t : Turn) (scores : pyval) :
  sane R s ->
  nth_error (subtopics s) (sub_idx s) = Some (turn_subtopic t) ->
  readable_turn R t ->
  blank_turn t \/ graded R t ->
  sane R (recorded t scores (set_turns_in_sub (turns_in_sub s + 1) s)).
Proof.
  intros (A & ((before & B1) & B2 & B3) & (C1 & C2) & D & W) N T K.
  split; [exact A|]. split; [|split; [|split]].
  - split; [|split]; cbn.
    + exists before. now rewrite B1, app_assoc.
    + rewrite length_app. cbn. lia.
    + apply Forall_app. split; [exact B3|]. constructor; [exact N | constructor].
  - split; [|exact C2]. cbn. eapply Forall_impl; [|exact C1].
    intros a (S1 & S2 & S3 & S4). split; [exact S1|]. split; [exact S2|].
    split; [|exact S4]. cbn. now apply segment_more.
  - unfold readable. cbn. apply Forall_app. split; [exact D|].
    constructor; [exact T | constructor].
  - unfold well_recorded. cbn. apply Forall_app. split; [exact W|].
    constructor; [|constructor]. split; [exact K|].
    eapply nth_error_In. exact N.
Qed.

Lemma reasons_of_cases (cp pr : bool) :
  cp || pr = true ->
  reasons_of cp pr = [checkpoint_reason]
  \/ reasons_of cp pr = [probe_reason]
  \/ reasons_of cp pr = [checkpoint_reason; probe_reason].
Proof. destruct cp, pr; cbn; auto; discriminate. Qed.

Lemma sane_closed (s : session_state) (sub : string) (cp pr : bool) :
  sane R s ->
  finished s = false ->
  nth_error (subtopics s) (sub_idx s) = Some sub ->
  history_sub s <> [] ->
  sane R (closed (flagged_area sub cp pr (history_sub s)) s).
Proof.
  intros (A & ((before & B1) & B2 & B3) & (C1 & C2) & D & W) F N H.
  assert (I : sub_idx s < List.length (subtopics s))
    by (apply nth_error_Some; congruence).
  split; [|split; [|split; [|split]]].
  - unfold in_range. cbn. rewrite F. cbn [orb].
    destruct (Nat.leb (List.length (subtopics s)) (sub_idx s + 1)) eqn:L.
    + apply Nat.leb_le in L. split; [lia|]. destruct (subtopics s); [cbn in I; lia|].
      discriminate.
    + apply Nat.leb_gt in L. right. lia.
  - split; [|split]; cbn; auto. exists (full_history s). now rewrite app_nil_r.
  - split; cbn.
    + apply Forall_app. split; [exact C1|]. unfold flagged_area.
      destruct (cp || pr) eqn:P; [|constructor]. constructor; [|constructor].
      split; [|split; [|split]]; cbn.
      * now apply reasons_of_cases.
      * exact H.
      * exists before, []. now rewrite app_nil_r.
      * eapply nth_error_In. exact N.
    + rewrite length_app. unfold flagged_area. destruct (cp || pr); cbn; lia.
  - constructor.
  - exact W.
Qed.

(** A result that can be displayed has scores that can be read. *)
Lemma shown_readable (result ev : pyval) (sub ans : string) (s : session_state) :
  shown R result = Ok ev ->
  readable_turn R (graded_turn sub ans result ev s).
Proof.
  unfold shown, readable_turn, turn_score. cbn [graded_turn turn_scores]. intros S.
  destruct (py_get result "correctness" (PInt 0)) as [cv|]; [|discriminate].
  cbn [rbind] in *. destruct (py_int R cv); [|discriminate]. cbn [rbind] in *.
  destruct (py_get result "specificity" (PInt 0)) as [sv|]; [|discriminate].
  cbn [rbind] in *. destruct (py_int R sv); [|discriminate].
  destruct (truthy result); auto.
Qed.

(** ** Answer submitted *)

(** The path of an answer that is not blank, on a history whose scores can
    be read: closure always returns. *)
Lemma submit_graded (i : inputs) (sub : string) (e : env) :
  nonempty (strip (answer i)) = true ->
  readable R (session e) ->
  exists result e1,
    grade R (answer i) (counted e) = (Next result, e1)
    /\ session e1 = session (counted e)
    /\ match shown R result with
       | Raise msg => submit R i sub e = (Halt (Raised msg), e1)
       | Ok ev =>
           let s2 := recorded (graded_turn sub (answer i) result ev (session e1))
                              result (session e1) in
           if Nat.leb 2 (turns_in_sub s2)
           then exists cp pr,
               submit R i sub e
               = (Halt RerunScript,
                  {| session := closed (flagged_area sub cp pr (history_sub s2)) s2;
                     log := log e1;
                     notices := (notices e1 ++ [limit_notice s2])%list |})
           else submit R i sub e
                = (Halt RerunScript,
                   {| session := s2; log := log e1; notices := notices e1 |})
       end.
Proof.
  intros B D.
  pose proof (grade_closed_form (answer i) (counted e)) as G. cbn zeta in G.
  eexists. eexists. split; [exact G|]. split; [reflexivity|].
  rewrite (submit_answered R i sub e _ _ B G).
  destruct (shown R _) as [ev|msg] eqn:S; [|reflexivity].
  cbn zeta. cbn [session log notices].
  match goal with |- context [Nat.leb 2 ?n] => destruct (Nat.leb 2 n) end;
    [|reflexivity].
  match goal with
  | |- context [close_subtopic R sub ?x] =>
      destruct (poor_defined (history_sub (session x))) as (cp & pr & C & P)
  end.
  { cbn. apply Forall_app. split; [exact D|].
    constructor; [|constructor]. eapply shown_readable. exact S. }
  exists cp, pr. now rewrite (close_subtopic_flags sub _ cp pr C P).
Qed.

Lemma submit_sane (i : inputs) (sub : string) (e : env) (o : App.outcome unit)
      (e' : env) :
  sane R (session e) ->
  finished (session e) = false ->
  nth_error (subtopics (session e)) (sub_idx (session e)) = Some sub ->
  submit R i sub e = (o, e') ->
  sane R (session e').
Proof.
  intros S F N H.
  destruct (nonempty (strip (answer i))) eqn:B.
  - destruct (submit_graded i sub e B) as (result & e1 & G & E1 & M);
      [apply S|].
    destruct (shown R result) as [ev|msg] eqn:Sh.
    + cbn zeta in M. rewrite E1 in M.
      assert (S2 : sane R (recorded (graded_turn sub (answer i) result ev
                                                 (session (counted e)))
                                    result (session (counted e)))).
      { apply sane_recorded; [exact S | exact N | |].
        - eapply shown_readable. exact Sh.
        - right. split; [exact B | exact Sh]. }
      destruct (Nat.leb 2 _).
      * destruct M as (cp & pr & M). rewrite M in H. injection H as <- <-.
        cbn [session]. apply sane_closed; [exact S2 | exact F | exact N |].
        cbn. now destruct (history_sub (session e)).
      * rewrite M in H. injection H as <- <-. exact S2.
    + rewrite M in H. injection H as <- <-. rewrite E1.
      now apply sane_counted.
  - rewrite (submit_blank R i sub e B) in H. injection H as <- <-.
    cbn [session]. apply sane_recorded; [exact S | exact N | |].
    + split; reflexivity.
    + left. repeat split.
Qed.

(** ** The main flow *)

Lemma main_flow_finished (i : inputs) (e : env) :
  finished (session e) = true ->
  main_flow R i e
  = (Next tt, {| session := session e; log := log e;
                 notices := (notices e ++ [Success "Interview complete."])%list |}).
Proof.
  intros F. unfold main_flow, sbind, get, notify. cbn. now rewrite F.
Qed.

Lemma main_flow_unstarted (i : inputs) (e : env) :
  finished (session e) = false ->
  subtopics (session e) = [] ->
  main_flow R i e
  = (Halt StopScript, {| session := session e; log := log e;
                         notices := (notices e ++ [Info start_hint])%list |}).
Proof.
  intros F U. unfold main_flow, sbind, get, notify, st_stop. cbn.
  now rewrite F, U.
Qed.

Lemma main_flow_current (i : inputs) (e : env) (sub : string) :
  finished (session e) = false ->
  nth_error (subtopics (session e)) (sub_idx (session e)) = Some sub ->
  main_flow R i e
  = match question_needed R sub e with
    | (Next _, e1) => if submitted i then submit R i sub e1 else (Next tt, e1)
    | (Halt sg, e1) => (Halt sg, e1)
    end.
Proof.
  intros F N. unfold main_flow. unfold sbind at 1, get at 1. rewrite F.
  destruct (subtopics (session e)) as [|x l] eqn:U.
  - destruct (sub_idx (session e)); discriminate.
  - rewrite N. unfold sbind.
    destruct (question_needed R sub e) as [[[]|sg] e1]; [|reflexivity].
    destruct (submitted i); reflexivity.
Qed.

Lemma main_flow_out_of_range (i : inputs) (e : env) :
  finished (session e) = false ->
  subtopics (session e) <> [] ->
  nth_error (subtopics (session e)) (sub_idx (session e)) = None ->
  main_flow R i e = (Halt (Raised "IndexError"), e).
Proof.
  intros F U N. unfold main_flow. unfold sbind at 1, get at 1. rewrite F.
  destruct (subtopics (session e)) as [|x l] eqn:Es; [congruence|].
  now rewrite N.
Qed.

Lemma main_flow_sane (i : inputs) (e : env) (o : App.outcome unit) (e' : env) :
  sane R (session e) ->
  main_flow R i e = (o, e') ->
  sane R (session e').
Proof.
  intros S H.
  destruct (finished (session e)) eqn:F.
  { rewrite (main_flow_finished i e F) in H. now injection H as <- <-. }
  destruct (subtopics (session e)) as [|x l] eqn:U.
  { rewrite (main_flow_unstarted i e F U) in H. now injection H as <- <-. }
  destruct (nth_error (subtopics (session e)) (sub_idx (session e))) as [sub|] eqn:N.
  - rewrite (main_flow_current i e sub F N) in H.
    destruct (question_needed R sub e) as [[[]|sg] e1] eqn:Q;
      destruct (question_needed_core sub e _ _ Q) as (C & _).
    + assert (S1 : sane R (session e1)) by (eapply sane_core; [symmetry; exact C | exact S]).
      destruct (submitted i); [|now injection H as <- <-].
      unfold core in C. injection C as C1 C2 C3 C4 C5 C6 C7.
      eapply submit_sane; [exact S1 | | | exact H].
      * congruence.
      * rewrite C1, C2. exact N.
    + injection H as <- <-. eapply sane_core; [symmetry; exact C | exact S].
  - rewrite main_flow_out_of_range in H; [| exact F | congruence | exact N].
    now injection H as <- <-.
Qed.

(** ** Whole runs *)

Lemma script_run_idle_start (i : inputs) (s : session_state) (w : world) :
  start_button i = false ->
  script_run R i (Some s) w = main_flow R i (run_env s w).
Proof. intros B. unfold script_run, start. rewrite B. reflexivity. Qed.

Lemma start_blank_topic (i : inputs) (e : env) :
  start_button i = true ->
  topic_of i = "" ->
  start R i e
  = (Halt StopScript,
     {| session := init_state i; log := log e;
        notices := (notices e ++ [Warning start_hint])%list |}).
Proof.
  intros B T. unfold topic_of in T.
  unfold start, sbind, modify, get, notify, st_stop. rewrite B. cbn.
  rewrite T. reflexivity.
Qed.

(** A start always ends the run, in a fresh session. *)
Lemma start_sessions (i : inputs) (e : env) :
  start_button i = true ->
  exists sg e',
    start R i e = (Halt sg, e')
    /\ (exists l, session e' = set_subtopics l (init_state i))
    /\ (log e' = log e
        \/ exists prompt, log e' = (log e ++ [LlmCall prompt (Qmake 2 10)])%list).
Proof.
  intros B.
  assert (I : init_state i = set_subtopics [] (init_state i)) by reflexivity.
  destruct (string_dec (topic_of i) "") as [T|T].
  - rewrite (start_blank_topic i e B T). do 2 eexists. split; [reflexivity|].
    cbn. eauto.
  - destruct (user_subtopics i) as [|x l] eqn:U.
    + rewrite (start_generated R i e B T U).
      destruct (chat_completion R (log e) _ _); do 2 eexists;
        (split; [reflexivity|]); cbn; eauto.
    + rewrite (start_by_hand R i e B T) by congruence. rewrite U.
      do 2 eexists. split; [reflexivity|]. cbn. eauto.
Qed.

Lemma script_run_sane (i : inputs) (s : session_state) (w : world)
      (o : App.outcome unit) (e' : env) :
  sane R s ->
  script_run R i (Some s) w = (o, e') ->
  sane R (session e').
Proof.
  intros S H. destruct (start_button i) eqn:B.
  - destruct (start_sessions i (run_env s w) B) as (sg & e1 & E & (l & L) & _).
    unfold script_run, sbind in H. fold (run_env s w) in H. rewrite E in H.
    injection H as <- <-. rewrite L. apply sane_subtopics.
  - rewrite (script_run_idle_start i s w B) in H.
    eapply main_flow_sane; [|exact H]. exact S.
Qed.

Lemma reachable_sane (s : session_state) : reachable R s -> sane R s.
Proof.
  induction 1 as [i w o e' H | i s w o e' _ IH H].
  - change (script_run R i None w) with (script_run R i (Some (init_state i)) w) in H.
    eapply script_run_sane; [|exact H]. apply sane_init.
  - eapply script_run_sane; [|exact H]. exact IH.
Qed.


(** ** What holds of every session *)

(** X14.  In a session that runs of the script have led to, the submission
    of an answer ends in a rerun, with one exception: a grading result that
    cannot be displayed (a score that is not a number, an evidence that is
    not a mapping) ends the run with that exception, after the turn was
    counted and before it was recorded.  In particular the poor-area
    predicates never fail at closure. *)
Theorem submit_fails_at_display_only (i : inputs) (sub : string) (e : env)
        (o : App.outcome unit) (e' : env) :
  reachable R (session e) ->
  submit R i sub e = (o, e') ->
  o = Halt RerunScript
  \/ exists msg result e1,
      o = Halt (Raised msg)
      /\ nonempty (strip (answer i)) = true
      /\ grade R (answer i) (counted e) = (Next result, e1)
      /\ shown R result = Raise msg
      /\ session e' = set_turns_in_sub (turns_in_sub (session e) + 1) (session e).
Proof.
  intros Re H. apply reachable_sane in Re. destruct Re as (_ & _ & _ & D & _).
  destruct (nonempty (strip (answer i))) eqn:B.
  - destruct (submit_graded i sub e B D) as (result & e1 & G & E1 & M).
    destruct (shown R result) as [ev|msg] eqn:Sh.
    + left. cbn zeta in M. destruct (Nat.leb 2 _).
      * destruct M as (cp & pr & M). rewrite M in H. now injection H as <- _.
      * rewrite M in H. now injection H as <- _.
    + right. rewrite M in H. injection H as <- <-.
      exists msg, result, e1. now rewrite E1.
  - left. rewrite (submit_blank R i sub e B) in H. now injection H as <- _.
Qed.

(** X15.  In a session that runs of the script have led to, the subtopic
    index points at a subtopic as long as the session is not finished, so
    the current subtopic can always be read; the session is finished exactly
    when the index is just past the last subtopic. *)
Theorem current_subtopic_exists (s : session_state) :
  reachable R s ->
  in_range s
  /\ (finished s = false -> subtopics s <> [] ->
      exists sub, nth_error (subtopics s) (sub_idx s) = Some sub)
  /\ (subtopics s <> [] ->
      (finished s = true <-> sub_idx s = List.length (subtopics s))).
Proof.
  intros Re. apply reachable_sane in Re. destruct Re as (A & _).
  split; [exact A|]. unfold in_range in A. split.
  - intros F U. rewrite F in A. destruct A as [A | A]; [congruence|].
    destruct (nth_error (subtopics s) (sub_idx s)) as [sub|] eqn:N; [eauto|].
    apply nth_error_None in N. lia.
  - intros U. destruct (finished s).
    + destruct A as [A _]. split; auto.
    + destruct A as [A | A]; [congruence|]. split; [discriminate | lia].
Qed.

(** X16.  In a session that runs of the script have led to, the history of
    the current subtopic is the end of the full history, it holds turns of
    the current subtopic only, and it is never longer than the turn counter
    says. *)
Theorem histories_coherent (s : session_state) :
  reachable R s -> coherent s.
Proof. intros Re. apply reachable_sane in Re. apply Re. Qed.

(** X17.  In a session that runs of the script have led to, every poor area
    names a subtopic of the session, gives one or both of the two reasons,
    checkpoint first, and holds at least one turn, its turns standing
    together in the full history; and there are no more poor areas than
    subtopics closed. *)
Theorem poor_areas_sound (s : session_state) :
  reachable R s -> sound_areas s.
Proof. intros Re. apply reachable_sane in Re. apply Re. Qed.

(** ** What a run may change *)

Ltac grows_by new extra :=
  unfold grows; cbn;
  split; [reflexivity|]; split; [reflexivity|];
  split; [exists new; split; [rewrite ?app_nil_r; reflexivity | cbn; lia]|];
  split; [exists extra; split; [rewrite ?app_nil_r; reflexivity | cbn; lia]|];
  split; [auto | intros; congruence].

Lemma submit_grows (i : inputs) (sub : string) (e : env) (o : App.outcome unit)
      (e' : env) :
  finished (session e) = false ->
  submit R i sub e = (o, e') ->
  grows (session e) (session e')
  /\ (log e' = log e
      \/ exists t q p,
          log e' = (log e ++ [EvidenceLookup t q; LlmCall p (Qmake 0 1)])%list).
Proof.
  intros F H. destruct (nonempty (strip (answer i))) eqn:B.
  - pose proof (grade_closed_form (answer i) (counted e)) as G. cbn zeta in G.
    rewrite (submit_answered R i sub e _ _ B G) in H.
    destruct (shown R _) as [ev|msg].
    + cbn zeta in H. cbn [session log notices] in H.
      destruct (Nat.leb 2 _) in H.
      * match type of H with
        | context [close_subtopic R sub ?x] =>
            destruct (close_subtopic_cases R sub x)
              as [(msg & E & _) | (extra & E & X)];
              rewrite E in H; injection H as <- <-
        end.
        -- split; [|cbn; eauto 6].
           match goal with
           | |- grows _ (session {| session := recorded ?t _ _ |}) => grows_by [t] (@nil PoorArea)
           end.
        -- split; [|cbn; eauto 6].
           assert (L : List.length extra <= 1)
             by (destruct X as [-> | (reasons & ->)]; cbn; lia).
           match goal with
           | |- grows _ (session {| session := closed _ (recorded ?t _ _) |}) =>
               unfold grows; cbn;
               split; [reflexivity|]; split; [reflexivity|];
               split; [exists [t]; split; [reflexivity | cbn; lia]|];
               split; [exists extra; split; [reflexivity | exact L]|];
               split; [auto | intros; congruence]
           end.
      * injection H as <- <-. split; [|cbn; eauto 6].
        match goal with
        | |- grows _ (session {| session := recorded ?t _ _ |}) => grows_by [t] (@nil PoorArea)
        end.
    + injection H as <- <-. split; [|cbn; eauto 6].
      grows_by (@nil Turn) (@nil PoorArea).
  - rewrite (submit_blank R i sub e B) in H. injection H as <- <-.
    split; [|now left]. grows_by [no_answer_turn sub (session e)] (@nil PoorArea).
Qed.

Lemma grows_refl (s : session_state) : grows s s.
Proof.
  unfold grows. split; [reflexivity|]. split; [reflexivity|].
  split; [exists []; split; [now rewrite app_nil_r | cbn; lia]|].
  split; [exists []; split; [now rewrite app_nil_r | cbn; lia]|].
  split; [auto | reflexivity].
Qed.

Lemma grows_core (s s1 s' : session_state) :
  core s1 = core s -> topic s1 = topic s -> finished s = false ->
  grows s1 s' -> grows s s'.
Proof.
  unfold core, grows. intros C T F (G1 & G2 & G3 & G4 & G5 & G6).
  injection C as C1 C2 C3 C4 C5 C6 C7.
  rewrite T, C1, C5, C6, C2 in *.
  split; [exact G1|]. split; [exact G2|]. split; [exact G3|]. split; [exact G4|].
  split; [exact G5 | intros; congruence].
Qed.

(** A run without Start/Restart, step by step. *)
Lemma main_flow_grows (i : inputs) (e : env) (o : App.outcome unit) (e' : env) :
  main_flow R i e = (o, e') ->
  grows (session e) (session e')
  /\ (finished (session e) = false ->
      exists new, log e' = (log e ++ new)%list
                  /\ List.length new <= 3
                  /\ lookups new <= 1
                  /\ (submitted i = false -> List.length new <= 1 /\ lookups new = 0)).
Proof.
  intros H.
  assert (Z : exists new : world,
             log e = (log e ++ new)%list /\ List.length new <= 3 /\ lookups new <= 1
             /\ (submitted i = false -> List.length new <= 1 /\ lookups new = 0)).
  { exists []. rewrite app_nil_r. unfold lookups. cbn. repeat split; lia. }
  destruct (finished (session e)) eqn:F.
  { rewrite (main_flow_finished i e F) in H. injection H as <- <-.
    split; [apply grows_refl | discriminate]. }
  destruct (subtopics (session e)) as [|x l] eqn:U.
  { rewrite (main_flow_unstarted i e F U) in H. injection H as <- <-.
    split; [apply grows_refl | intros _; exact Z]. }
  destruct (nth_error (subtopics (session e)) (sub_idx (session e))) as [sub|] eqn:N.
  - rewrite (main_flow_current i e sub F N) in H.
    destruct (question_needed R sub e) as [[[]|sg] e1] eqn:Q;
      destruct (question_needed_core sub e _ _ Q) as (C & T & _ & L).
    + assert (Q1 : exists asked : world,
                 log e1 = (log e ++ asked)%list /\ List.length asked <= 1
                 /\ lookups asked = 0).
      { destruct L as [-> | (prompt & ->)].
        - exists []. rewrite app_nil_r. unfold lookups. cbn. repeat split; lia.
        - eexists. split; [reflexivity|]. unfold lookups. cbn. lia. }
      destruct Q1 as (asked & La & Na & Ka).
      destruct (submitted i) eqn:Sb.
      * assert (F1 : finished (session e1) = false)
          by (unfold core in C; injection C as _ _ _ _ _ _ C7; congruence).
        destruct (submit_grows i sub e1 o e' F1 H) as (G & W).
        split; [exact (grows_core _ _ _ C T F G)|]. intros _.
        destruct W as [-> | (t & q & p & ->)].
        -- exists asked. split; [exact La|]. split; [lia|]. split; [lia|].
           discriminate.
        -- exists (asked ++ [EvidenceLookup t q; LlmCall p (Qmake 0 1)])%list.
           split; [now rewrite La, app_assoc|].
           unfold lookups in *. rewrite filter_app, !length_app. cbn.
           split; [lia|]. split; [lia | discriminate].
      * injection H as <- <-.
        split; [exact (grows_core _ _ _ C T F (grows_refl _))|]. intros _.
        exists asked. split; [exact La|]. split; [lia|]. split; [lia|]. auto.
    + injection H as <- <-.
      split; [exact (grows_core _ _ _ C T F (grows_refl _))|]. intros _.
      destruct L as [-> | (prompt & ->)]; [exact Z|].
      eexists. split; [reflexivity|]. unfold lookups. cbn. repeat split; lia.
  - rewrite main_flow_out_of_range in H; [| exact F | congruence | exact N].
    injection H as <- <-. split; [apply grows_refl | intros _; exact Z].
Qed.

(** X18.  A run without Start/Restart only adds to the record of the
    interview: the topic and the subtopics stay, the full history and the
    poor areas keep what they hold and get at most one more element each,
    the subtopic index stays or goes up by one, and a finished session is
    not changed at all. *)
Theorem run_only_appends (i : inputs) (s : session_state) (w : world)
        (o : App.outcome unit) (e' : env) :
  start_button i = false ->
  script_run R i (Some s) w = (o, e') ->
  grows s (session e').
Proof.
  intros B H. rewrite (script_run_idle_start i s w B) in H.
  exact (proj1 (main_flow_grows i (run_env s w) o e' H)).
Qed.

(** X19.  Up to the final report, a run makes at most three calls to the
    outside: one request for subtopics or for a question, and, when an
    answer is submitted, one evidence lookup and one grading request.  A run
    in which no answer is submitted makes at most one request and no
    evidence lookup. *)
Theorem run_calls_bounded (i : inputs) (s : session_state) (w : world)
        (o : App.outcome unit) (e' : env) :
  (start_button i = false -> finished s = false) ->
  script_run R i (Some s) w = (o, e') ->
  exists new,
    log e' = (w ++ new)%list
    /\ List.length new <= 3
    /\ lookups new <= 1
    /\ (start_button i = true \/ submitted i = false ->
        List.length new <= 1 /\ lookups new = 0).
Proof.
  intros F H. destruct (start_button i) eqn:B.
  - destruct (start_sessions i (run_env s w) B) as (sg & e1 & E & _ & L).
    unfold script_run, sbind in H. fold (run_env s w) in H. rewrite E in H.
    injection H as <- <-. cbn [log run_env] in L.
    destruct L as [-> | (prompt & ->)].
    + exists []. rewrite app_nil_r. unfold lookups. cbn. repeat split; lia.
    + eexists. split; [reflexivity|]. unfold lookups. cbn. repeat split; lia.
  - rewrite (script_run_idle_start i s w B) in H.
    destruct (proj2 (main_flow_grows i (run_env s w) o e' H) (F eq_refl))
      as (new & L & N & K & I).
    exists new. split; [exact L|]. split; [exact N|]. split; [exact K|].
    intros [D | D]; [discriminate | auto].
Qed.

(** ** From one run to the next *)

Lemma last_map_snoc {A B} (f : A -> B) (l : list A) (x : A) (d : B) :
  last (map f (l ++ [x])) d = f x.
Proof. rewrite map_app. cbn [map]. apply last_last. Qed.

(** A run that has a question to generate and no answer to take. *)
Lemma script_run_asks (i : inputs) (s : session_state) (w : world)
      (sub st prompt : string) :
  start_button i = false ->
  submitted i = false ->
  finished s = false ->
  nth_error (subtopics s) (sub_idx s) = Some sub ->
  nonempty (question s) && awaiting_answer s = false ->
  question_plan R (topic s) sub (last_scores s) (previous_question s)
                (previous_answer s) = Ok (st, prompt) ->
  script_run R i (Some s) w
  = match chat_completion R w prompt (Qmake 2 10) with
    | Ok raw =>
        (Next tt,
         {| session := asking (question_text raw) st s;
            log := (w ++ [LlmCall prompt (Qmake 2 10)])%list;
            notices := [] |})
    | Raise msg =>
        (Halt StopScript,
         {| session := s;
            log := (w ++ [LlmCall prompt (Qmake 2 10)])%list;
            notices := [Error ("Failed to generate question: " ++ msg)] |})
    end.
Proof.
  intros B Sb F N Q P. rewrite (script_run_idle_start i s w B).
  rewrite (main_flow_current i (run_env s w) sub F N).
  rewrite (question_needed_generates sub (run_env s w) Q). cbn zeta.
  cbn [run_env session log notices]. rewrite P.
  destruct (chat_completion R w prompt (Qmake 2 10)); [|reflexivity].
  now rewrite Sb.
Qed.

(** X11.  After a blank answer, the next run asks a checkpoint question for
    the same subtopic: its prompt repeats the question that was left
    unanswered and gives an empty previous answer. *)
Theorem blank_answer_then_checkpoint (i i' : inputs) (sub : string) (e : env)
        (w : world) :
  strip (answer i) = "" ->
  finished (session e) = false ->
  nth_error (subtopics (session e)) (sub_idx (session e)) = Some sub ->
  start_button i' = false ->
  submitted i' = false ->
  let after := session (snd (submit R i sub e)) in
  let prompt := checkpoint_prompt (topic (session e)) sub (question (session e)) "" in
  script_run R i' (Some after) w
  = match chat_completion R w prompt (Qmake 2 10) with
    | Ok raw =>
        (Next tt,
         {| session := asking (question_text raw) "checkpoint" after;
            log := (w ++ [LlmCall prompt (Qmake 2 10)])%list;
            notices := [] |})
    | Raise msg =>
        (Halt StopScript,
         {| session := after;
            log := (w ++ [LlmCall prompt (Qmake 2 10)])%list;
            notices := [Error ("Failed to generate question: " ++ msg)] |})
    end.
Proof.
  intros A F N B Sb. cbn zeta.
  rewrite (submit_blank R i sub e) by (now rewrite A). cbn [snd session].
  apply (script_run_asks i' _ w sub); try assumption; cbn.
  - apply andb_false_r.
  - unfold previous_question, previous_answer. cbn [history_sub recorded].
    now rewrite !last_map_snoc.
Qed.

(** X12.  When an answer closes a subtopic that is not the last one, the
    next run asks a seed question for the subtopic that follows: nothing of
    the closed subtopic goes into the prompt. *)
Theorem closure_then_seed (i i' : inputs) (sub : string) (e e1 : env) (w : world) :
  nonempty (strip (answer i)) = true ->
  2 <= turns_in_sub (session e) + 1 ->
  finished (session e) = false ->
  sub_idx (session e) + 1 < List.length (subtopics (session e)) ->
  submit R i sub e = (Halt RerunScript, e1) ->
  start_button i' = false ->
  submitted i' = false ->
  exists next,
    nth_error (subtopics (session e)) (sub_idx (session e) + 1) = Some next
    /\ let prompt := seed_prompt (topic (session e)) next in
       script_run R i' (Some (session e1)) w
       = match chat_completion R w prompt (Qmake 2 10) with
         | Ok raw =>
             (Next tt,
              {| session := asking (question_text raw) "seed" (session e1);
                 log := (w ++ [LlmCall prompt (Qmake 2 10)])%list;
                 notices := [] |})
         | Raise msg =>
             (Halt StopScript,
              {| session := session e1;
                 log := (w ++ [LlmCall prompt (Qmake 2 10)])%list;
                 notices := [Error ("Failed to generate question: " ++ msg)] |})
         end.
Proof.
  intros A T F I H B Sb.
  destruct (nth_error (subtopics (session e)) (sub_idx (session e) + 1))
    as [next|] eqn:N; [|apply nth_error_None in N; lia].
  exists next. split; [reflexivity|]. cbn zeta.
  pose proof (grade_closed_form (answer i) (counted e)) as G. cbn zeta in G.
  rewrite (submit_answered R i sub e _ _ A G) in H.
  destruct (shown R _) as [ev|]; [|discriminate].
  cbn zeta in H. cbn [session log notices recorded turns_in_sub counted
                      set_turns_in_sub] in H.
  replace (Nat.leb 2 (turns_in_sub (session e) + 1)) with true in H
    by (symmetry; apply Nat.leb_le; lia).
  match type of H with
  | context [close_subtopic R sub ?x] =>
      destruct (close_subtopic_cases R sub x) as [(msg & E & _) | (extra & E & X)];
        rewrite E in H; [discriminate|]
  end.
  injection H as <-. cbn [session].
  apply (script_run_asks i' _ w next);
    [exact B | exact Sb | | exact N | reflexivity | reflexivity].
  cbn. rewrite F. cbn [orb]. apply Nat.leb_gt. lia.
Qed.

(** ** One answered turn per open subtopic *)

Lemma first_only_snoc (history : list Turn) (t : Turn) :
  Forall blank_turn (tl history) ->
  blank_turn t \/ history = [] ->
  Forall blank_turn (tl (history ++ [t])).
Proof.
  intros H [B | ->]; [|constructor].
  destruct history as [|x rest]; [constructor|]. cbn [tl app] in *.
  apply Forall_app. split; [exact H|]. constructor; [exact B | constructor].
Qed.

Lemma submit_first_only (i : inputs) (sub : string) (e : env)
      (o : App.outcome unit) (e' : env) :
  sane R (session e) ->
  first_only (session e) ->
  submit R i sub e = (o, e') ->
  first_only (session e').
Proof.
  intros (_ & (_ & L & _) & _ & D & _) P H. unfold first_only in *.
  destruct (nonempty (strip (answer i))) eqn:B.
  - destruct (submit_graded i sub e B D) as (result & e1 & G & E1 & M).
    destruct (shown R result) as [ev|msg] eqn:Sh.
    + cbn zeta in M. rewrite E1 in M.
      destruct (Nat.leb 2 _) eqn:T.
      * destruct M as (cp & pr & M). rewrite M in H. injection H as <- <-.
        constructor.
      * rewrite M in H. injection H as <- <-.
        cbn [session recorded history_sub counted set_turns_in_sub].
        apply first_only_snoc; [exact P|]. right.
        cbn -[Nat.leb] in T. apply Nat.leb_gt in T.
        destruct (history_sub (session e)); [reflexivity | cbn in L; lia].
    + rewrite M in H. injection H as <- <-. rewrite E1. exact P.
  - rewrite (submit_blank R i sub e B) in H. injection H as <- <-.
    cbn [session recorded history_sub counted set_turns_in_sub].
    apply first_only_snoc; [exact P|]. left. repeat split.
Qed.

Lemma main_flow_first_only (i : inputs) (e : env) (o : App.outcome unit) (e' : env) :
  sane R (session e) ->
  first_only (session e) ->
  main_flow R i e = (o, e') ->
  first_only (session e').
Proof.
  intros S P H.
  destruct (finished (session e)) eqn:F.
  { rewrite (main_flow_finished i e F) in H. now injection H as <- <-. }
  destruct (subtopics (session e)) as [|x l] eqn:U.
  { rewrite (main_flow_unstarted i e F U) in H. now injection H as <- <-. }
  destruct (nth_error (subtopics (session e)) (sub_idx (session e))) as [sub|] eqn:N.
  - rewrite (main_flow_current i e sub F N) in H.
    destruct (question_needed R sub e) as [[[]|sg] e1] eqn:Q;
      destruct (question_needed_core sub e _ _ Q) as (C & _).
    + assert (S1 : sane R (session e1)) by (eapply sane_core; [symmetry; exact C | exact S]).
      assert (P1 : first_only (session e1)).
      { unfold core in C. injection C as _ _ _ C4 _ _ _.
        unfold first_only. now rewrite C4. }
      destruct (submitted i); [|now injection H as <- <-].
      eapply submit_first_only; [exact S1 | exact P1 | exact H].
    + injection H as <- <-. unfold core in C. injection C as _ _ _ C4 _ _ _.
      unfold first_only. now rewrite C4.
  - rewrite main_flow_out_of_range in H; [| exact F | congruence | exact N].
    now injection H as <- <-.
Qed.

Lemma reachable_first_only (s : session_state) : reachable R s -> first_only s.
Proof.
  assert (Run : forall i s w o e',
             sane R s -> first_only s ->
             script_run R i (Some s) w = (o, e') -> first_only (session e')).
  { intros i s0 w o e' S P H. destruct (start_button i) eqn:B.
    - destruct (start_sessions i (run_env s0 w) B) as (sg & e1 & E & (l & L) & _).
      unfold script_run, sbind in H. fold (run_env s0 w) in H. rewrite E in H.
      injection H as <- <-. rewrite L. constructor.
    - rewrite (script_run_idle_start i s0 w B) in H.
      exact (main_flow_first_only i (run_env s0 w) o e' S P H). }
  induction 1 as [i w o e' H | i s w o e' Re IH H].
  - change (script_run R i None w) with (script_run R i (Some (init_state i)) w) in H.
    eapply Run; [apply sane_init | constructor | exact H].
  - eapply Run; [apply reachable_sane; exact Re | exact IH | exact H].
Qed.

(** X22.  In a session that runs of the script have led to, only the first
    turn of the open subtopic can hold an answer: every turn recorded after
    it in the subtopic is a blank-answer turn, since an answer that is not
    blank closes the subtopic unless it is the first submission there. *)
Theorem only_first_turn_answered (s : session_state) :
  reachable R s ->
  first_only s
  /\ (forall t, In t (history_sub s) -> nonempty (turn_answer t) = true ->
                exists rest, history_sub s = t :: rest).
Proof.
  intros Re. pose proof (reachable_first_only s Re) as P. split; [exact P|].
  unfold first_only in P. intros t I A.
  destruct (history_sub s) as [|x rest]; [destruct I|]. cbn [tl] in P.
  destruct I as [-> | I]; [eauto|].
  rewrite Forall_forall in P. destruct (P t I) as (E & _).
  rewrite E in A. discriminate.
Qed.

(** ** The final report *)

(** X20.  In a session that runs of the script have led to, every turn of
    the full history belongs to a subtopic of the session and is of one of
    two kinds: recorded for a blank answer, with zero scores and the evidence
    (insufficient, no answer), or recorded for an answer that is not blank,
    with a grading result that could be displayed and the evidence that was
    displayed. *)
Theorem turns_well_recorded (s : session_state) :
  reachable R s -> well_recorded R s.
Proof. intros Re. apply reachable_sane in Re. apply Re. Qed.



Section WithJson.
Variable json_dumps : list Turn -> result string.



End WithJson.

End WithRuntime.

(** ** The theorems at work *)

Lemma then_run_reachable (R : runtime) (i : inputs) (r : App.outcome unit * env) :
  reachable R (session (snd r)) ->
  reachable R (session (snd (then_run R i r))).
Proof.
  intros H. unfold then_run.
  destruct (script_run R i (Some (session (snd r))) (log (snd r))) as [o e'] eqn:E.
  eapply reach_next; [exact H | exact E].
Qed.

(** A first run and the runs that follow it lead to a session that runs of
    the script lead to. *)
Lemma runs_reachable (R : runtime) (i0 : inputs) (w : world) (steps : list inputs) :
  reachable R
    (session (snd (fold_left (fun r i => then_run R i r) steps
                             (script_run R i0 None w)))).
Proof.
  assert (G : forall steps r,
             reachable R (session (snd r)) ->
             reachable R
               (session (snd (fold_left (fun r i => then_run R i r) steps r)))).
  { clear steps. induction steps as [|i steps IH]; intros r H; cbn [fold_left];
      [exact H|].
    apply IH. now apply then_run_reachable. }
  apply G.
  destruct (script_run R i0 None w) as [o e'] eqn:E.
  eapply reach_first. exact E.
Qed.

(** The scenario goes through sessions that runs of the script lead to. *)
Lemma scenario_reachable (n : nat) :
  reachable interviewer (session (snd (scenario_after n))).
Proof. apply runs_reachable. Qed.

(** A language model that cannot be reached, when a question is needed. *)
Lemma question_generation_failure_witness :
  let e' := snd (question_needed offline "Indexing" (env_of fresh)) in
  StopScript = StopScript
  /\ session e' = session (env_of fresh)
  /\ (exists msg,
         notices e'
         = (notices (env_of fresh)
            ++ [Error ("Failed to generate question: " ++ msg)])%list)
  /\ (log e' = log (env_of fresh)
      \/ exists prompt,
          log e' = (log (env_of fresh) ++ [LlmCall prompt (Qmake 2 10)])%list).
Proof.
  assert (H : question_needed offline "Indexing" (env_of fresh)
              = (Halt StopScript,
                 snd (question_needed offline "Indexing" (env_of fresh))))
    by (vm_compute; reflexivity).
  exact (question_generation_failure offline "Indexing" (env_of fresh)
           StopScript _ H).
Defined.

(** A blank answer in [midway], then a run in which nothing is pressed. *)
Lemma blank_answer_then_checkpoint_witness :
  let after := session (snd (submit examiner blank_submit "Indexing" (env_of midway))) in
  let prompt := checkpoint_prompt "Databases" "Indexing" "Name one kind of index." "" in
  script_run examiner idle (Some after) []
  = match chat_completion examiner [] prompt (Qmake 2 10) with
    | Ok raw =>
        (Next tt,
         {| session := asking (question_text raw) "checkpoint" after;
            log := [LlmCall prompt (Qmake 2 10)];
            notices := [] |})
    | Raise msg =>
        (Halt StopScript,
         {| session := after;
            log := [LlmCall prompt (Qmake 2 10)];
            notices := [Error ("Failed to generate question: " ++ msg)] |})
    end.
Proof.
  exact (blank_answer_then_checkpoint examiner blank_submit idle "Indexing"
           (env_of midway) [] eq_refl eq_refl eq_refl eq_refl eq_refl).
Defined.

(** The second answer of [midway] closes "Indexing"; the next run asks a
    seed question on "Transactions". *)
Lemma closure_then_seed_witness :
  let e1 := snd (submit terse real_submit "Indexing" asked_once) in
  exists next,
    nth_error ["Indexing"; "Transactions"] 1 = Some next
    /\ let prompt := seed_prompt "Databases" next in
       script_run terse idle (Some (session e1)) (log e1)
       = match chat_completion terse (log e1) prompt (Qmake 2 10) with
         | Ok raw =>
             (Next tt,
              {| session := asking (question_text raw) "seed" (session e1);
                 log := (log e1 ++ [LlmCall prompt (Qmake 2 10)])%list;
                 notices := [] |})
         | Raise msg =>
             (Halt StopScript,
              {| session := session e1;
                 log := (log e1 ++ [LlmCall prompt (Qmake 2 10)])%list;
                 notices := [Error ("Failed to generate question: " ++ msg)] |})
         end.
Proof.
  assert (H : submit terse real_submit "Indexing" asked_once
              = (Halt RerunScript,
                 snd (submit terse real_submit "Indexing" asked_once)))
    by (vm_compute; reflexivity).
  refine (closure_then_seed terse real_submit idle "Indexing" asked_once _
            (log (snd (submit terse real_submit "Indexing" asked_once)))
            eq_refl (le_n 2) eq_refl _ H eq_refl eq_refl).
  cbn. lia.
Defined.

(** The answer "Keys." of the scenario. *)
Lemma submit_fails_at_display_only_witness :
  let r := submit interviewer (scenario_inputs false "Keys." true) "Indexing"
                  (snd (scenario_after 3)) in
  fst r = Halt RerunScript
  \/ exists msg result e1,
      fst r = Halt (Raised msg)
      /\ nonempty (strip "Keys.") = true
      /\ grade interviewer "Keys." (counted (snd (scenario_after 3)))
         = (Next result, e1)
      /\ shown interviewer result = Raise msg
      /\ session (snd r)
         = set_turns_in_sub (turns_in_sub (session (snd (scenario_after 3))) + 1)
                            (session (snd (scenario_after 3))).
Proof.
  exact (submit_fails_at_display_only interviewer
           (scenario_inputs false "Keys." true) "Indexing" (snd (scenario_after 3))
           _ _ (scenario_reachable 3) (surjective_pairing _)).
Defined.

(** The session at the end of the scenario. *)
Lemma current_subtopic_exists_witness :
  let s := session (snd (scenario_after 4)) in
  in_range s
  /\ (finished s = false -> subtopics s <> [] ->
      exists sub, nth_error (subtopics s) (sub_idx s) = Some sub)
  /\ (subtopics s <> [] ->
      (finished s = true <-> sub_idx s = List.length (subtopics s))).
Proof.
  exact (current_subtopic_exists interviewer _ (scenario_reachable 4)).
Defined.

Lemma histories_coherent_witness :
  coherent (session (snd (scenario_after 2))).
Proof.
  exact (histories_coherent interviewer _ (scenario_reachable 2)).
Defined.

Lemma poor_areas_sound_witness :
  sound_areas (session (snd (scenario_after 4))).
Proof.
  exact (poor_areas_sound interviewer _ (scenario_reachable 4)).
Defined.

(** The last answer of the scenario: one turn and one poor area more. *)
Lemma run_only_appends_witness :
  grows (session (snd (scenario_after 3)))
        (session (snd (then_run interviewer (scenario_inputs false "Keys." true)
                                (scenario_after 3)))).
Proof.
  exact (run_only_appends interviewer (scenario_inputs false "Keys." true)
           (session (snd (scenario_after 3))) (log (snd (scenario_after 3)))
           _ _ eq_refl (surjective_pairing _)).
Defined.

Lemma run_calls_bounded_witness :
  exists new,
    log (snd (then_run interviewer (scenario_inputs false "Keys." true)
                       (scenario_after 3)))
    = (log (snd (scenario_after 3)) ++ new)%list
    /\ List.length new <= 3
    /\ lookups new <= 1
    /\ (start_button (scenario_inputs false "Keys." true) = true
        \/ submitted (scenario_inputs false "Keys." true) = false ->
        List.length new <= 1 /\ lookups new = 0).
Proof.
  assert (F : finished (session (snd (scenario_after 3))) = false)
    by (vm_compute; reflexivity).
  exact (run_calls_bounded interviewer (scenario_inputs false "Keys." true)
           (session (snd (scenario_after 3))) (log (snd (scenario_after 3)))
           _ _ (fun _ => F) (surjective_pairing _)).
Defined.

(** The report at the end of the scenario: two turns, the first one without
    an answer. *)
Lemma turns_well_recorded_witness :
  well_recorded interviewer (session (snd (scenario_after 4))).
Proof.
  exact (turns_well_recorded interviewer _ (scenario_reachable 4)).
Defined.


(** An open subtopic with an answered turn and then a blank one: the
    answered turn is the first. *)
Lemma only_first_turn_answered_witness :
  let s := session (snd answered_then_blank) in
  map turn_answer (history_sub s) = ["A B-tree."; ""]
  /\ first_only s
  /\ (forall t, In t (history_sub s) -> nonempty (turn_answer t) = true ->
                exists rest, history_sub s = t :: rest).
Proof.
  cbn zeta. split; [vm_compute; reflexivity|].
  exact (only_first_turn_answered terse _
           (runs_reachable terse (scenario_inputs true "" false) [] _)).
Defined.

End Interview.
